(** * ESS: night-time charging window optimizer

    Shallow embedding of the decision logic of the repository:
    - [find_optimal_charging_windows], [is_charging_profitable] and
      [optimize_charging_schedule] (src/energy_storage_optimizer.py);
    - [find_cheapest_night_charging], [validate_config], [main] and the
      manager of src/ESS.py;
    - [Config] (src/config.py) and [AlphaESSManager] (src/alpha_ess_manager.py).

    Modelling choices.
    - Python [int] is [Z]. Python [float] is the primitive binary64 [float]
      of Rocq: sums, quotients, products and comparisons are the IEEE 754
      operations, with their rounding, overflow to infinity and NaN. [sum]
      adds from the left, rounding after each addition, as CPython does
      before version 3.12 (later versions compensate the rounding errors
      of [sum]).
    - Exceptions are an error monad [result] over the exception classes the
      modelled functions can raise.
    - Slices, ranges and [sum] follow the Python semantics, including
      negative and out-of-range slice bounds and the [int] 0 that [sum]
      returns on an empty list.
    - Awaited calls of the alphaess client are answered by an oracle, and the
      functions return the trace of their calls and log lines.
    - Logging is dropped from the optimizer. *)

From Stdlib Require Import String DecimalString.
From Stdlib Require Import Floats.
From Stdlib Require Import ZArith List Sorted Lia Bool.
Import ListNotations.
Open Scope Z_scope.

Set Warnings "-inexact-float".

(** ** Python primitives *)

Module Py.

Inductive exn : Type :=
| ValueError
| ZeroDivisionError
| OverflowError.

Inductive result (A : Type) : Type :=
| Ok (a : A)
| Raise (e : exn).

Arguments Ok {A} a.
Arguments Raise {A} e.

Definition bind {A B : Type} (r : result A) (k : A -> result B) : result B :=
  match r with
  | Ok a => k a
  | Raise e => Raise e
  end.

(** [range(lo, hi)]. *)
Definition range (lo hi : Z) : list Z :=
  map (fun k => lo + Z.of_nat k) (seq 0 (Z.to_nat (hi - lo))).

(** Normalisation of one slice bound against the length of the list. *)
Definition clamp (len i : Z) : Z :=
  if i <? 0 then Z.max (i + len) 0 else Z.min i len.

(** [l[lo:hi]]. *)
Definition slice {A : Type} (l : list A) (lo hi : Z) : list A :=
  let len := Z.of_nat (length l) in
  let a := clamp len lo in
  let b := clamp len hi in
  firstn (Z.to_nat (b - a)) (skipn (Z.to_nat a) l).

(** What [sum] returns on a list of floats: the [int] 0 it starts from when
    the list is empty, a float otherwise. *)
Inductive number : Type :=
| IntZero
| Float (f : float).

(** [sum(l)]: starts from the int 0 and adds from the left; [0 + x] is
    [0.0 + x]. *)
Definition sum (l : list float) : number :=
  match l with
  | [] => IntZero
  | _ :: _ => Float (fold_left PrimFloat.add l PrimFloat.zero)
  end.

(** [a + b] on two results of [sum]. *)
Definition plus (a b : number) : number :=
  match a, b with
  | IntZero, IntZero => IntZero
  | IntZero, Float y => Float (PrimFloat.add PrimFloat.zero y)
  | Float x, IntZero => Float (PrimFloat.add x PrimFloat.zero)
  | Float x, Float y => Float (PrimFloat.add x y)
  end.

(** [float(n)], rounded to nearest even; it raises OverflowError on the ints
    that round beyond the largest double. *)
Definition float_of_int (n : Z) : float :=
  SF2Prim (binary_normalize prec emax n 0 false).

Definition int_too_large (n : Z) : bool :=
  2 ^ 1024 - 2 ^ 970 <=? Z.abs n.

(** [x / n] with [n] an int: int division of 0 by [n] when [x] is the int 0,
    float division by [float(n)] otherwise. *)
Definition truediv (x : number) (n : Z) : result float :=
  match x with
  | IntZero =>
      if n =? 0 then Raise ZeroDivisionError
      else Ok (if n <? 0 then PrimFloat.neg_zero else PrimFloat.zero)
  | Float f =>
      if int_too_large n then Raise OverflowError
      else if n =? 0 then Raise ZeroDivisionError
      else Ok (PrimFloat.div f (float_of_int n))
  end.

(** [for x in xs: s = body x s], stopping at the first exception. *)
Fixpoint for_each {A S : Type} (xs : list A) (body : A -> S -> result S) (s : S)
  : result S :=
  match xs with
  | [] => Ok s
  | x :: xs' => bind (body x s) (for_each xs' body)
  end.

End Py.

Import Py.

Notation "x <- c1 ;; c2" := (bind c1 (fun x => c2))
  (at level 61, c1 at next level, right associativity).

(** ** src/energy_storage_optimizer.py *)

(** A window is a tuple [(start, end)]. *)
Definition window : Type := (Z * Z)%type.

(** The two locals [min_mean] and [best_windows] threaded through the loops. *)
Record best : Type := mkBest {
  min_mean : float;
  best_windows : list window
}.

Definition NIGHT_HOURS : Z := 7.

(** Body of the loop [for start in range(NIGHT_HOURS - hours_to_charge + 1)]. *)
Definition single_body (night_prices : list float) (hours_to_charge : Z)
  (start : Z) (st : best) : result best :=
  let end_ := start + hours_to_charge in
  let window := slice night_prices start end_ in
  mean_price <- truediv (sum window) hours_to_charge ;;
  if PrimFloat.ltb mean_price (min_mean st)
  then Ok (mkBest mean_price [(start, end_)])
  else Ok st.

(** Body of the innermost loop [for start2 in range(end1, ...)]. *)
Definition split_body (night_prices : list float) (hours_to_charge : Z)
  (window2_size start1 end1 : Z) (window1 : list float)
  (start2 : Z) (st : best) : result best :=
  let end2 := start2 + window2_size in
  let window2 := slice night_prices start2 end2 in
  let total_price := plus (sum window1) (sum window2) in
  mean_price <- truediv total_price hours_to_charge ;;
  if PrimFloat.ltb mean_price (min_mean st)
  then Ok (mkBest mean_price [(start1, end1); (start2, end2)])
  else Ok st.

(** First loop: single continuous windows. *)
Definition single_phase (night_prices : list float) (hours_to_charge : Z)
  (st : best) : result best :=
  for_each (range 0 (NIGHT_HOURS - hours_to_charge + 1))
    (single_body night_prices hours_to_charge) st.

(** Second loop nest: two windows whose sizes sum to [hours_to_charge]. *)
Definition split_phase (night_prices : list float) (hours_to_charge : Z)
  (st : best) : result best :=
  for_each (range 1 hours_to_charge)
    (fun window1_size st =>
       let window2_size := hours_to_charge - window1_size in
       for_each (range 0 (NIGHT_HOURS - window1_size + 1))
         (fun start1 st =>
            let end1 := start1 + window1_size in
            let window1 := slice night_prices start1 end1 in
            for_each (range end1 (NIGHT_HOURS - window2_size + 1))
              (split_body night_prices hours_to_charge
                 window2_size start1 end1 window1) st) st) st.

Definition find_optimal_charging_windows (prices : list float)
  (hours_to_charge : Z) : result (list window * float) :=
  if NIGHT_HOURS <? hours_to_charge then Raise ValueError
  else
    let night_prices := slice prices 0 NIGHT_HOURS in
    st1 <- single_phase night_prices hours_to_charge
             (mkBest PrimFloat.infinity []) ;;
    st2 <- split_phase night_prices hours_to_charge st1 ;;
    Ok (best_windows st2, min_mean st2).

(** The configuration values the decision logic reads; the multiplier is
    taken as a float. *)
Record Config : Type := mkConfig {
  price_multiplier : float;
  charge_to_full : Z
}.

Definition is_charging_profitable (config : Config) (mean_charge_price : float)
  (daily_prices : list float) : result bool :=
  daily_average <- truediv (sum daily_prices) (Z.of_nat (length daily_prices)) ;;
  Ok (PrimFloat.leb
        (PrimFloat.mul mean_charge_price (price_multiplier config))
        daily_average).

(** ** src/ESS.py *)

Definition cheapest_body (electricity_prices : list float)
  (hours_to_charge : Z) (i : Z) (st : Z * float) : result (Z * float) :=
  let '(index, min_mean) := st in
  mean <- truediv (sum (slice electricity_prices i (i + hours_to_charge)))
            hours_to_charge ;;
  if PrimFloat.ltb mean min_mean
  then Ok (i, mean)
  else Ok (index, min_mean).

Definition find_cheapest_night_charging (electricity_prices : list float)
  (hours_to_charge : Z) : result (Z * float) :=
  let num_hours_considered := 7 in
  if num_hours_considered <? hours_to_charge then Raise ValueError
  else
    let electricity_prices := slice electricity_prices 0 num_hours_considered in
    for_each
      (range 0 (Z.of_nat (length electricity_prices) - hours_to_charge + 1))
      (cheapest_body electricity_prices hours_to_charge)
      (0, PrimFloat.infinity).

(** ** Dispatch of the schedule *)

(** An awaited call either returns or raises. *)
Inductive outcome (E A : Type) : Type :=
| Return (a : A)
| Throw (e : E).

Arguments Return {E A} a.
Arguments Throw {E A} e.

Definition MIDNIGHT : string := "00:00"%string.

(** [f"{n:02d}"]: the decimal digits of [n], with its sign, padded with
    zeros to two characters. *)
Definition format_02d (n : Z) : string :=
  let digits := NilZero.string_of_int (Z.to_int n) in
  if (String.length digits <? 2)%nat
  then String.append "0"%string digits
  else digits.

(** [f"{n:02d}:00"]. *)
Definition hour_string (n : Z) : string :=
  String.append (format_02d n) ":00"%string.

(** The arguments of [manager.set_charging_schedule]. *)
Record command : Type := mkCommand {
  should_charge : bool;
  start_time1 : string;
  end_time1 : string;
  start_time2 : string;
  end_time2 : string
}.

(** What [optimize_charging_schedule] can raise: an exception of the two
    functions it calls, or IndexError from [windows[0]]. *)
Inductive run_exn : Type :=
| Inner (e : exn)
| IndexError.

(** [optimize_charging_schedule], from the fetched prices to the command
    handed to the manager. *)
Definition optimize_charging_schedule (config : Config) (prices : list float)
  : outcome run_exn command :=
  match find_optimal_charging_windows prices (charge_to_full config) with
  | Raise e => Throw (Inner e)
  | Ok (windows, mean_price) =>
      match is_charging_profitable config mean_price prices with
      | Raise e => Throw (Inner e)
      | Ok false =>
          Return (mkCommand false MIDNIGHT MIDNIGHT MIDNIGHT MIDNIGHT)
      | Ok true =>
          match windows with
          | [] => Throw IndexError
          | w0 :: rest =>
              let start_time1 := hour_string (fst w0) in
              let end_time1 := hour_string (snd w0) in
              match rest with
              | [] =>
                  Return (mkCommand true start_time1 end_time1
                            MIDNIGHT MIDNIGHT)
              | w1 :: _ =>
                  Return (mkCommand true start_time1 end_time1
                            (hour_string (fst w1)) (hour_string (snd w1)))
              end
          end
      end
  end.

(** [main] of ESS.py, from the fetched prices to the arguments of
    [authenticate_and_set_schedule]. *)
Definition ess_main (charge_to_full : Z) (prices : list float)
  : result (bool * string * string) :=
  r <- find_cheapest_night_charging prices charge_to_full ;;
  let start_charge_hour := fst r in
  let stop_charge_hour := start_charge_hour + charge_to_full in
  Ok (true, hour_string start_charge_hour, hour_string stop_charge_hour).

(** The times a schedule inside the night prefix can carry. *)
Definition night_times : list string :=
  ["00:00"; "01:00"; "02:00"; "03:00"; "04:00"; "05:00"; "06:00"; "07:00"]%string.

(** ** Configuration files (src/config.py and src/ESS.py) *)

Module ConfigFile.

(** The dict [yaml.safe_load] returns, with values of any type [V]. *)
Definition dict (V : Type) : Type := list (string * V).

Fixpoint dict_get {V : Type} (d : dict V) (key : string) : option V :=
  match d with
  | [] => None
  | (k, v) :: rest => if String.eqb key k then Some v else dict_get rest key
  end.

(** [key in d]. *)
Definition dict_contains {V : Type} (d : dict V) (key : string) : bool :=
  match dict_get d key with
  | Some _ => true
  | None => false
  end.

Inductive config_exn : Type :=
| ConfigValueError (message : string)
| KeyError (key : string)
| TypeError.

(** [for key in required_keys: if key not in data: raise ValueError(...)]. *)
Fixpoint check_required {V : Type} (data : dict V) (required_keys : list string)
  : outcome config_exn unit :=
  match required_keys with
  | [] => Return tt
  | key :: rest =>
      if negb (dict_contains data key)
      then Throw (ConfigValueError
                    (String.append key " not found in config"%string))
      else check_required data rest
  end.

(** [validate_config] of src/ESS.py. *)
Definition ess_required_keys : list string :=
  ["username"; "password"; "price_multiplier"; "charge_to_full";
   "serial_number"]%string.

Definition validate_config {V : Type} (config : dict V)
  : outcome config_exn unit :=
  check_required config ess_required_keys.

(** Class [Config] of src/config.py. *)
Record ConfigObject (V : Type) : Type := mkConfigObject {
  config_path : string;
  data : dict V
}.

Arguments mkConfigObject {V} config_path data.
Arguments config_path {V} c.
Arguments data {V} c.

Definition required_keys : list string :=
  ["app_id"; "app_secret"; "serial_number"; "price_multiplier";
   "charge_to_full"]%string.

(** What [load_config] hands to the constructor: [yaml.safe_load] returns
    None on an empty file and a dict on a file whose top level is a mapping.
    Other top-level values (a sequence, a scalar) are not modelled. *)
Inductive document (V : Type) : Type :=
| EmptyDocument
| Mapping (d : dict V).

Arguments EmptyDocument {V}.
Arguments Mapping {V} d.

(** [Config.__init__], given what [load_config] returned. On None the test
    [key not in self.data] of [validate_config] raises TypeError. *)
Definition init {V : Type} (path : string) (loaded : document V)
  : outcome config_exn (ConfigObject V) :=
  match loaded with
  | EmptyDocument => Throw TypeError
  | Mapping d =>
      match check_required d required_keys with
      | Return _ => Return (mkConfigObject path d)
      | Throw e => Throw e
      end
  end.

(** [Config.__getitem__]. *)
Definition getitem {V : Type} (c : ConfigObject V) (key : string)
  : outcome config_exn V :=
  match dict_get (data c) key with
  | Some v => Return v
  | None => Throw (KeyError key)
  end.

End ConfigFile.

(** ** The battery service (src/alpha_ess_manager.py and src/ESS.py) *)

Module Service.

(** What an awaited call of the alphaess client does: it returns, raises
    [httpx.HTTPStatusError] with a status code, or raises another
    [Exception]. *)
Inductive reply : Type :=
| Fine
| HTTPStatusError (status_code : Z)
| OtherException.

(** The client calls of the two scripts, with their arguments; [V] is the
    type of the values of the configuration. *)
Inductive call (V : Type) : Type :=
| updateChargeConfigInfo (sysSn : V) (batHighCap : Z) (gridCharge : bool)
    (timeChae1 timeChae2 timeChaf1 timeChaf2 : string)
| close
| authenticate (username password : V)
| setbatterycharge (serial_number : V) (enabled : bool)
    (cp1start cp1end cp2start cp2end : string) (chargestopsoc : Z).

Arguments updateChargeConfigInfo {V}.
Arguments close {V}.
Arguments authenticate {V}.
Arguments setbatterycharge {V}.

(** The lines the scripts log around the client calls. *)
Inductive logline : Type :=
| InfoSent
| ErrorAuthentication
| ErrorHttp (status_code : Z)
| ErrorOther
| WarningRetry (attempt : Z)
| ErrorGivingUp.

Inductive event (V : Type) : Type :=
| Called (c : call V) (r : reply)
| Logged (l : logline).

Arguments Called {V} c r.
Arguments Logged {V} l.

(** The two [except] clauses: what is logged for an exception. *)
Definition log_failure (r : reply) : logline :=
  match r with
  | HTTPStatusError status_code =>
      if status_code =? 401 then ErrorAuthentication else ErrorHttp status_code
  | _ => ErrorOther
  end.

Section Client.

Context {V : Type}.

(** [replies n] is what the [n]-th awaited client call does. *)
Variable replies : nat -> reply.

(** *** AlphaESSManager.set_charging_schedule (src/alpha_ess_manager.py) *)

(** The [try] block of one attempt: the reply that ended it ([Fine] when it
    reached [return True]), the number of client calls made so far, and the
    events. *)
Definition try_update (update : call V) (n : nat)
  : reply * nat * list (event V) :=
  match replies n with
  | Fine =>
      (replies (S n), S (S n),
       [Called update Fine; Logged InfoSent; Called close (replies (S n))])
  | r => (r, S n, [Called update r])
  end.

(** The loop [for attempt in range(3)] and what follows it. The result is
    the returned boolean, or the exception of the last [close]. *)
Fixpoint schedule_attempts (update : call V) (attempts : list Z) (n : nat)
  : outcome reply bool * list (event V) :=
  match attempts with
  | [] =>
      ((match replies n with
        | Fine => Return false
        | r => Throw r
        end),
       [Logged ErrorGivingUp; Called close (replies n)])
  | attempt :: rest =>
      let '(r, n', tr) := try_update update n in
      match r with
      | Fine => (Return true, tr)
      | _ =>
          let '(res, tr') := schedule_attempts update rest n' in
          (res,
           tr ++ [Logged (log_failure r); Logged (WarningRetry (attempt + 1))]
              ++ tr')
      end
  end.

Definition set_charging_schedule (serial_number : V) (cmd : command)
  : outcome reply bool * list (event V) :=
  schedule_attempts
    (updateChargeConfigInfo serial_number 100 (should_charge cmd)
       (start_time1 cmd) (end_time1 cmd) (start_time2 cmd) (end_time2 cmd))
    (range 0 3) 0.

(** *** AlphaESSManager of src/ESS.py *)

(** The value of the Python string literal ["your_serial_number"]. *)
Variable of_str : string -> V.

(** [authenticate_and_send_to_ess]: KeyError from the two subscripts, or
    the returned boolean with the number of client calls made so far and
    the events. *)
Definition authenticate_and_send_to_ess (config : ConfigFile.dict V)
  (should_charge : bool) (start_charging stop_charging : string) (n : nat)
  : outcome ConfigFile.config_exn (bool * nat * list (event V)) :=
  match ConfigFile.dict_get config "username"%string with
  | None => Throw (ConfigFile.KeyError "username"%string)
  | Some username =>
      match ConfigFile.dict_get config "password"%string with
      | None => Throw (ConfigFile.KeyError "password"%string)
      | Some password =>
          let serial_number :=
            match ConfigFile.dict_get config "serial_number"%string with
            | Some v => v
            | None => of_str "your_serial_number"%string
            end in
          let auth := authenticate username password in
          let send :=
            setbatterycharge serial_number should_charge
              start_charging stop_charging MIDNIGHT MIDNIGHT 100 in
          match replies n with
          | Fine =>
              match replies (S n) with
              | Fine =>
                  Return (true, S (S n), [Called auth Fine; Called send Fine])
              | r =>
                  Return (false, S (S n),
                          [Called auth Fine; Called send r;
                           Logged (log_failure r)])
              end
          | r => Return (false, S n, [Called auth r; Logged (log_failure r)])
          end
      end
  end.

(** The loop [for i in range(3): ... break / else: ...]. *)
Fixpoint send_attempts (config : ConfigFile.dict V) (should_charge : bool)
  (start_charging stop_charging : string) (attempts : list Z) (n : nat)
  : outcome ConfigFile.config_exn (list (event V)) :=
  match attempts with
  | [] => Return [Logged ErrorGivingUp]
  | _ :: rest =>
      match authenticate_and_send_to_ess config should_charge
              start_charging stop_charging n with
      | Throw e => Throw e
      | Return (true, _, tr) => Return (tr ++ [Logged InfoSent])
      | Return (false, n', tr) =>
          match send_attempts config should_charge
                  start_charging stop_charging rest n' with
          | Throw e => Throw e
          | Return tr' => Return (tr ++ tr')
          end
      end
  end.

Definition authenticate_and_set_schedule (config : ConfigFile.dict V)
  (should_charge : bool) (start_charging stop_charging : string)
  : outcome ConfigFile.config_exn (list (event V)) :=
  send_attempts config should_charge start_charging stop_charging
    (range 0 3) 0.

End Client.

(** Counting the events of a trace. *)
Definition is_update {V : Type} (e : event V) : bool :=
  match e with
  | Called (updateChargeConfigInfo _ _ _ _ _ _ _) _ => true
  | _ => false
  end.

Definition is_authenticate {V : Type} (e : event V) : bool :=
  match e with
  | Called (authenticate _ _) _ => true
  | _ => false
  end.

Definition is_send {V : Type} (e : event V) : bool :=
  match e with
  | Called (setbatterycharge _ _ _ _ _ _ _) _ => true
  | _ => false
  end.

Definition is_warning {V : Type} (e : event V) : bool :=
  match e with
  | Logged (WarningRetry _) => true
  | _ => false
  end.

Definition is_giving_up {V : Type} (e : event V) : bool :=
  match e with
  | Logged ErrorGivingUp => true
  | _ => false
  end.

Definition count {V : Type} (p : event V -> bool) (tr : list (event V)) : nat :=
  length (filter p tr).

End Service.
(** ** Vocabulary of the specification *)

(** Price of hour [i] of a series. *)
Definition price_at (prices : list float) (i : Z) : float :=
  nth (Z.to_nat i) prices PrimFloat.zero.

(** Python sum of the prices of the block [[s, s + w)]. *)
Definition block_sum (prices : list float) (s w : Z) : number :=
  sum (map (price_at prices) (range s (s + w))).

(** The double [t / h] for [h <> 0]. *)
Definition mean_value (t : number) (h : Z) : float :=
  match t with
  | IntZero => if h <? 0 then PrimFloat.neg_zero else PrimFloat.zero
  | Float f => PrimFloat.div f (float_of_int h)
  end.

(** Mean price of the single block [[s, s + h)], as a double. *)
Definition single_mean (prices : list float) (h s : Z) : float :=
  mean_value (block_sum prices s h) h.

(** Combined mean price of the blocks [[s1, s1 + w1)] and [[s2, s2 + w2)]
    over [h] hours, as a double: the two block sums are added, then
    divided. *)
Definition split_mean (prices : list float) (h s1 w1 s2 w2 : Z) : float :=
  mean_value (plus (block_sum prices s1 w1) (block_sum prices s2 w2)) h.

(** Two blocks of positive sizes adding up to [h], inside the night prefix
    and sharing no hour. *)
Definition disjoint_blocks (h s1 w1 s2 w2 : Z) : Prop :=
  1 <= w1 /\ 1 <= w2 /\ w1 + w2 = h /\
  0 <= s1 /\ s1 + w1 <= NIGHT_HOURS /\
  0 <= s2 /\ s2 + w2 <= NIGHT_HOURS /\
  (s1 + w1 <= s2 \/ s2 + w2 <= s1).

(** A price that is a number and not below zero (-0.0 included). *)
Definition non_negative (x : float) : Prop :=
  PrimFloat.leb PrimFloat.zero x = true.

(** A price that is neither an infinity nor NaN: [-inf < x < inf]. *)
Definition finite (x : float) : Prop :=
  PrimFloat.ltb PrimFloat.neg_infinity x = true /\
  PrimFloat.ltb x PrimFloat.infinity = true.

(** A sum that is not below zero, the int 0 included. *)
Definition number_non_negative (t : number) : Prop :=
  match t with
  | IntZero => True
  | Float f => non_negative f
  end.

(** The hours covered by a list of half-open windows, in order. *)
Definition covered_hours (ws : list window) : list Z :=
  flat_map (fun w => range (fst w) (snd w)) ws.

(** Number of hours covered, window by window. *)
Definition total_hours (ws : list window) : Z :=
  fold_right (fun w acc => (snd w - fst w) + acc) 0 ws.

(** Python sum, in one pass, of the prices of a series at the hours covered
    by [ws], divided by [h]. *)
Definition covered_mean (prices : list float) (h : Z) (ws : list window)
  : float :=
  mean_value (sum (map (price_at prices) (covered_hours ws))) h.

(** Average of a whole series: its left-to-right sum divided by its
    length. *)
Definition series_mean (l : list float) : float :=
  PrimFloat.div (fold_left PrimFloat.add l PrimFloat.zero)
    (float_of_int (Z.of_nat (length l))).

(** [sys.maxsize], the longest list CPython can hold. *)
Definition max_list_length : Z := 2 ^ 63 - 1.

(** What the loop bodies compute for a candidate: the sums of the slices
    of its windows, added from the left. *)
Definition window_total (night_prices : list float) (ws : list window)
  : number :=
  match ws with
  | [] => IntZero
  | w :: rest =>
      fold_left
        (fun acc w' => plus acc (sum (slice night_prices (fst w') (snd w'))))
        rest (sum (slice night_prices (fst w) (snd w)))
  end.

Definition mean_of (night_prices : list float) (h : Z) (ws : list window)
  : float :=
  mean_value (window_total night_prices ws) h.

(** One comparison of the running best against a candidate. *)
Definition consider (night_prices : list float) (h : Z) (st : best)
  (ws : list window) : best :=
  if PrimFloat.ltb (mean_of night_prices h ws) (min_mean st)
  then mkBest (mean_of night_prices h ws) ws
  else st.

(** The candidates in the order of the specification: single blocks by
    ascending start, then splits by ascending [w1], [s1], [s2]. *)
Definition single_candidates (h : Z) : list (list window) :=
  map (fun s => [(s, s + h)]) (range 0 (NIGHT_HOURS - h + 1)).

Definition split_candidates_at (h w1 s1 : Z) : list (list window) :=
  map (fun s2 => [(s1, s1 + w1); (s2, s2 + (h - w1))])
      (range (s1 + w1) (NIGHT_HOURS - (h - w1) + 1)).

Definition split_candidates_of (h w1 : Z) : list (list window) :=
  flat_map (split_candidates_at h w1) (range 0 (NIGHT_HOURS - w1 + 1)).

Definition split_candidates (h : Z) : list (list window) :=
  flat_map (split_candidates_of h) (range 1 h).

Definition candidates (h : Z) : list (list window) :=
  single_candidates h ++ split_candidates h.

(** Position of a candidate in the enumeration order: kind (single before
    split), then size of the first block, first start, second start. *)
Definition enum_key (ws : list window) : Z * Z * Z * Z :=
  match ws with
  | [(s, _)] => (0, 0, s, 0)
  | [(s1, e1); (s2, _)] => (1, e1 - s1, s1, s2)
  | _ => (2, 0, 0, 0)
  end.

Definition key_lt (a b : Z * Z * Z * Z) : Prop :=
  let '(a1, a2, a3, a4) := a in
  let '(b1, b2, b3, b4) := b in
  a1 < b1 \/
  (a1 = b1 /\ (a2 < b2 \/
  (a2 = b2 /\ (a3 < b3 \/
  (a3 = b3 /\ a4 < b4))))).

Definition key_ltb (a b : Z * Z * Z * Z) : bool :=
  let '(a1, a2, a3, a4) := a in
  let '(b1, b2, b3, b4) := b in
  (a1 <? b1) ||
  ((a1 =? b1) && ((a2 <? b2) ||
  ((a2 =? b2) && ((a3 <? b3) ||
  ((a3 =? b3) && (a4 <? b4)))))).

Definition enum_before (c c' : list window) : Prop :=
  key_lt (enum_key c) (enum_key c').

Fixpoint all_pairs_ltb (l : list (list window)) : bool :=
  match l with
  | [] => true
  | c :: r =>
      forallb (fun c' => key_ltb (enum_key c) (enum_key c')) r
      && all_pairs_ltb r
  end.

(** Shape of a well-formed schedule. *)
Definition window_in_night (w : window) : Prop :=
  0 <= fst w /\ fst w < snd w /\ snd w <= NIGHT_HOURS.

Definition window_before (w w' : window) : Prop := snd w <= fst w'.

(** The shape the specification asks of the windows of a schedule for [h]
    hours. *)
Definition well_formed_windows (h : Z) (ws : list window) : Prop :=
  (length ws <= 2)%nat /\
  Forall window_in_night ws /\
  StronglySorted window_before ws /\
  StronglySorted (fun w w' => fst w < fst w') ws /\
  total_hours ws = h /\
  NoDup (covered_hours ws) /\
  Z.of_nat (length (covered_hours ws)) = h /\
  (forall x, In x (covered_hours ws) -> 0 <= x < NIGHT_HOURS).

(** Relation between the locals of [find_cheapest_night_charging] and those
    of the first loop of [find_optimal_charging_windows]: the same running
    minimum, and the same block once a block has been chosen. *)
Definition same_choice (h : Z) (c : Z * float) (st : best) : Prop :=
  min_mean st = snd c /\
  ((best_windows st = [] /\ c = (0, PrimFloat.infinity)) \/
   best_windows st = [(fst c, fst c + h)]).

(** The day of the first scenario of the specification, the night of the
    second one, a night of prices whose sums overflow, and a night on which
    rounding separates two candidates with the same exact mean. *)
Definition sample_day : list float :=
  [40; 10; 10; 50; 5; 5; 60; 90; 90]%float.

Definition alternating_night : list float :=
  [10; 100; 10; 100; 10; 100; 10]%float.

Definition overflow_night : list float :=
  repeat 0x1p1023%float 7.

Definition rounding_night : list float :=
  [112.94; 112.94; 112.94; 112.94; 112.94; 62.92; 62.92]%float.

(** A night of finite prices on which two block sums overflow to opposite
    infinities, and a night of prices that are not numbers. *)
Definition cancelling_night : list float :=
  [0x1p1023; 0x1p1023; -0x1p1023; -0x1p1023; 0; 0; 0]%float.

Definition nan_night : list float := repeat PrimFloat.nan 7.

(** A day of finite prices on which the sum of two separate hours
    overflows to -inf while every block of two adjacent hours stays
    finite. *)
Definition cancelling_day : list float :=
  [0x1p1023; 0; -0x1p1023; 0; -0x1p1023; 0; 0; 0x1p1023]%float.

(** ** Order on doubles *)

(** A double that is not NaN is placed by its class (-inf, negative, zero,
    positive, +inf), then exponent and mantissa. *)
Definition sf_key (x : spec_float) : Z * Z * Z :=
  match x with
  | S754_nan => (0, 0, 0)
  | S754_zero _ => (0, 0, 0)
  | S754_infinity true => (-2, 0, 0)
  | S754_infinity false => (2, 0, 0)
  | S754_finite false m e => (1, e, Zpos m)
  | S754_finite true m e => (-1, - e, Zneg m)
  end.

Definition lex_lt (a b : Z * Z * Z) : Prop :=
  let '(a1, a2, a3) := a in
  let '(b1, b2, b3) := b in
  a1 < b1 \/ (a1 = b1 /\ (a2 < b2 \/ (a2 = b2 /\ a3 < b3))).

Definition lex_le (a b : Z * Z * Z) : Prop :=
  let '(a1, a2, a3) := a in
  let '(b1, b2, b3) := b in
  a1 < b1 \/ (a1 = b1 /\ (a2 < b2 \/ (a2 = b2 /\ a3 <= b3))).

Definition sf_num (x : spec_float) : Prop := x <> S754_nan.

Definition sf_nonneg (x : spec_float) : Prop :=
  match x with
  | S754_zero _ => True
  | S754_infinity false => True
  | S754_finite false _ _ => True
  | _ => False
  end.

Definition sf_finite (x : spec_float) : Prop :=
  match x with
  | S754_zero _ => True
  | S754_finite _ _ _ => True
  | _ => False
  end.

Definition fkey (x : float) : Z * Z * Z := sf_key (Prim2SF x).

(** ** Rounding of a product *)

(** Round to nearest, ties to even, of [m / 2^n]. *)
Definition rne (m n : Z) : Z :=
  let q := m / 2 ^ n in
  let r := m mod 2 ^ n in
  if 2 * r <? 2 ^ n then q
  else if 2 ^ n <? 2 * r then q + 1
  else if Z.even q then q else q + 1.

(** The double of sign [sx] with the rounded mantissa [q] at exponent [t]:
    a mantissa that reached [2^prec] moves to the next exponent, and an
    exponent above the largest one gives an infinity. *)
Definition rounded (prec emax : Z) (sx : bool) (q t : Z) : spec_float :=
  if q =? 0 then S754_zero sx
  else if q =? 2 ^ prec then
    if t + 1 <=? emax - prec
    then S754_finite sx (Z.to_pos (2 ^ (prec - 1))) (t + 1)
    else S754_infinity sx
  else
    if t <=? emax - prec
    then S754_finite sx (Z.to_pos q) t
    else S754_infinity sx.

Definition sf_nonpos (x : spec_float) : Prop :=
  match x with
  | S754_zero _ => True
  | S754_infinity true => True
  | S754_finite true _ _ => True
  | _ => False
  end.

(** ** Facts on the order of doubles *)

Ltac sf_cases :=
  repeat match goal with
  | |- context [Z.compare ?a ?b] => destruct (Z.compare_spec a b)
  | |- context [Pos.compare_cont Eq ?a ?b] =>
      change (Pos.compare_cont Eq a b) with (Pos.compare a b);
      destruct (Pos.compare_spec a b)
  end.

Lemma SFltb_iff (x y : spec_float) :
  SFltb x y = true <-> sf_num x /\ sf_num y /\ lex_lt (sf_key x) (sf_key y).
Proof.
  unfold SFltb, sf_num, lex_lt.
  destruct x as [[|]|[|]| |[|] mx ex], y as [[|]|[|]| |[|] my ey];
    cbn [SFcompare sf_key]; sf_cases; cbn [CompOpp];
    (split; [intros Hc; try discriminate Hc; repeat split; try discriminate; lia
            |intros (Hx & Hy & Hc); try congruence; try reflexivity; lia]).
Qed.

Lemma SFleb_iff (x y : spec_float) :
  SFleb x y = true <-> sf_num x /\ sf_num y /\ lex_le (sf_key x) (sf_key y).
Proof.
  unfold SFleb, sf_num, lex_le.
  destruct x as [[|]|[|]| |[|] mx ex], y as [[|]|[|]| |[|] my ey];
    cbn [SFcompare sf_key]; sf_cases; cbn [CompOpp];
    (split; [intros Hc; try discriminate Hc; repeat split; try discriminate; lia
            |intros (Hx & Hy & Hc); try congruence; try reflexivity; lia]).
Qed.

Section Rounding.

Variable prec emax : Z.

Lemma shr_1_nonneg (mrs : shr_record) :
  0 <= shr_m mrs -> 0 <= shr_m (shr_1 mrs).
Proof.
  destruct mrs as [m r s]. cbn [shr_m]. intros Hm. unfold shr_1.
  destruct m as [|[p|p|]|p]; cbn [shr_m]; lia.
Qed.

Lemma iter_shr_1_nonneg (p : positive) (mrs : shr_record) :
  0 <= shr_m mrs -> 0 <= shr_m (SpecFloat.iter_pos shr_1 p mrs).
Proof.
  revert mrs. induction p as [p IH|p IH|]; intros mrs Hm; cbn [SpecFloat.iter_pos].
  - apply IH, IH. now apply shr_1_nonneg.
  - now apply IH, IH.
  - now apply shr_1_nonneg.
Qed.

Lemma shr_fexp_nonneg (m e : Z) (l : location) :
  0 <= m -> 0 <= shr_m (fst (shr_fexp prec emax m e l)).
Proof.
  intros Hm. unfold shr_fexp, shr.
  assert (H0 : 0 <= shr_m (shr_record_of_loc m l))
    by (destruct l as [|[| |]]; exact Hm).
  destruct (fexp prec emax (Zdigits2 m + e) - e) as [|p|p]; cbn [fst];
    try exact H0.
  now apply iter_shr_1_nonneg.
Qed.

Lemma round_nearest_even_nonneg (m : Z) (l : location) :
  0 <= m -> 0 <= round_nearest_even m l.
Proof.
  intros Hm. unfold round_nearest_even.
  destruct l as [|[| |]]; try destruct (Z.even m); lia.
Qed.

Lemma binary_round_aux_nonneg (mx ex : Z) (lx : location) :
  0 <= mx -> sf_nonneg (binary_round_aux prec emax false mx ex lx).
Proof.
  intros Hm. unfold binary_round_aux.
  pose proof (shr_fexp_nonneg mx ex lx Hm) as H1.
  destruct (shr_fexp prec emax mx ex lx) as [mrs' e']. cbn [fst] in H1.
  pose proof (shr_fexp_nonneg
                (round_nearest_even (shr_m mrs') (loc_of_shr_record mrs'))
                e' loc_Exact
                (round_nearest_even_nonneg _ _ H1)) as H2.
  destruct (shr_fexp prec emax _ e' loc_Exact) as [mrs'' e'']. cbn [fst] in H2.
  destruct (shr_m mrs'') as [|p|p]; [exact I| |lia].
  destruct (e'' <=? emax - prec); exact I.
Qed.

Lemma SFadd_nonneg (x y : spec_float) :
  sf_nonneg x -> sf_nonneg y -> sf_nonneg (SFadd prec emax x y).
Proof.
  destruct x as [sx|[|]| |[|] mx ex], y as [sy|[|]| |[|] my ey];
    cbn [sf_nonneg SFadd]; try tauto; intros _ _.
  - destruct sx, sy; exact I.
  - cbn [cond_Zopp]. unfold binary_normalize.
    destruct (Z.pos _ + Z.pos _) as [|p|p] eqn:Hsum; [exact I| |lia].
    unfold binary_round.
    destruct (shl_align p (Z.min ex ey) _) as [mz ez].
    now apply binary_round_aux_nonneg.
Qed.

Lemma SFdiv_nonneg (x : spec_float) (my : positive) (ey : Z) :
  sf_nonneg x -> sf_nonneg (SFdiv prec emax x (S754_finite false my ey)).
Proof.
  destruct x as [sx|[|]| |[|] mx ex]; cbn [sf_nonneg SFdiv xorb];
    try tauto; intros _.
  unfold SFdiv_core_binary.
  set (m' := match _ - _ - _ with Z0 => Z.pos mx | Zpos _ => _ | Zneg _ => 0 end).
  assert (Hm' : 0 <= m').
  { subst m'. destruct (_ - _ - _) as [|p|p]; try lia.
    apply Z.shiftl_nonneg. lia. }
  pose proof (Z.div_pos m' (Z.pos my) Hm' ltac:(lia)) as Hq.
  unfold Z.div in Hq.
  destruct (Z.div_eucl m' (Z.pos my)) as [q r]. cbn [fst] in Hq.
  now apply binary_round_aux_nonneg.
Qed.

End Rounding.

Lemma SFeqb_refl (s : spec_float) :
  SFeqb s s = match s with S754_nan => false | _ => true end.
Proof.
  unfold SFeqb. destruct s as [[|]|[|]| |[|] m e]; cbn [SFcompare];
    try reflexivity;
    rewrite Z.compare_refl;
    change (Pos.compare_cont Eq m m) with (Pos.compare m m);
    now rewrite Pos.compare_refl.
Qed.

Lemma is_nan_spec (x : float) :
  PrimFloat.is_nan x = true <-> Prim2SF x = S754_nan.
Proof.
  unfold PrimFloat.is_nan. rewrite FloatAxioms.eqb_spec, SFeqb_refl.
  destruct (Prim2SF x); cbn; split; congruence.
Qed.

Lemma is_number_spec (x : float) :
  PrimFloat.is_nan x = false <-> sf_num (Prim2SF x).
Proof.
  unfold sf_num. rewrite <- is_nan_spec.
  destruct (PrimFloat.is_nan x); split; congruence.
Qed.

Lemma ltb_iff (x y : float) :
  PrimFloat.ltb x y = true <->
  PrimFloat.is_nan x = false /\ PrimFloat.is_nan y = false /\
  lex_lt (fkey x) (fkey y).
Proof. now rewrite FloatAxioms.ltb_spec, SFltb_iff, !is_number_spec. Qed.

Lemma leb_iff (x y : float) :
  PrimFloat.leb x y = true <->
  PrimFloat.is_nan x = false /\ PrimFloat.is_nan y = false /\
  lex_le (fkey x) (fkey y).
Proof. now rewrite FloatAxioms.leb_spec, SFleb_iff, !is_number_spec. Qed.

Lemma ltb_false_iff (x y : float) :
  PrimFloat.ltb x y = false <->
  ~ (PrimFloat.is_nan x = false /\ PrimFloat.is_nan y = false /\
     lex_lt (fkey x) (fkey y)).
Proof. rewrite <- ltb_iff. destruct (PrimFloat.ltb x y); split; congruence. Qed.

Lemma leb_false_iff (x y : float) :
  PrimFloat.leb x y = false <->
  ~ (PrimFloat.is_nan x = false /\ PrimFloat.is_nan y = false /\
     lex_le (fkey x) (fkey y)).
Proof. rewrite <- leb_iff. destruct (PrimFloat.leb x y); split; congruence. Qed.

Ltac float_order :=
  repeat match goal with
  | H : PrimFloat.ltb _ _ = true |- _ => apply ltb_iff in H
  | H : PrimFloat.leb _ _ = true |- _ => apply leb_iff in H
  | H : PrimFloat.ltb _ _ = false |- _ => apply ltb_false_iff in H
  | H : PrimFloat.leb _ _ = false |- _ => apply leb_false_iff in H
  | |- PrimFloat.ltb _ _ = true => apply ltb_iff
  | |- PrimFloat.leb _ _ = true => apply leb_iff
  | |- PrimFloat.ltb _ _ = false => apply ltb_false_iff
  | |- PrimFloat.leb _ _ = false => apply leb_false_iff
  end;
  unfold lex_lt, lex_le in *;
  repeat match goal with
  | |- context [fkey ?x] =>
      let a := fresh "a" in let b := fresh "b" in let c := fresh "c" in
      destruct (fkey x) as [[a b] c]
  | H : context [fkey ?x] |- _ =>
      let a := fresh "a" in let b := fresh "b" in let c := fresh "c" in
      destruct (fkey x) as [[a b] c]
  end;
  repeat match goal with
  | |- ~ _ => intro
  | H : _ /\ _ |- _ => destruct H
  end;
  repeat match goal with
  | H : ~ (?A /\ ?B /\ ?L) |- _ =>
      assert (~ L) by (intro; apply H; repeat split; assumption); clear H
  end;
  try (repeat split; try assumption; lia);
  try (exfalso;
       match goal with
       | H : ~ _ |- False => apply H; repeat split; (assumption || lia)
       end).

Lemma ltb_irrefl (x : float) : PrimFloat.ltb x x = false.
Proof. float_order. Qed.

Lemma ltb_trans (x y z : float) :
  PrimFloat.ltb x y = true -> PrimFloat.ltb y z = true ->
  PrimFloat.ltb x z = true.
Proof. intros. float_order. Qed.

Lemma leb_ltb_trans (x y z : float) :
  PrimFloat.leb x y = true -> PrimFloat.ltb y z = true ->
  PrimFloat.ltb x z = true.
Proof. intros. float_order. Qed.

Lemma ltb_leb_trans (x y z : float) :
  PrimFloat.ltb x y = true -> PrimFloat.leb y z = true ->
  PrimFloat.ltb x z = true.
Proof. intros. float_order. Qed.

Lemma leb_trans (x y z : float) :
  PrimFloat.leb x y = true -> PrimFloat.leb y z = true ->
  PrimFloat.leb x z = true.
Proof. intros. float_order. Qed.

Lemma ltb_leb (x y : float) :
  PrimFloat.ltb x y = true -> PrimFloat.leb x y = true.
Proof. intros. float_order. Qed.

Lemma ltb_not_leb (x y : float) :
  PrimFloat.ltb x y = true -> PrimFloat.leb y x = false.
Proof. intros. float_order. Qed.

Lemma not_ltb_leb (x y : float) :
  PrimFloat.is_nan x = false -> PrimFloat.is_nan y = false ->
  PrimFloat.ltb x y = false -> PrimFloat.leb y x = true.
Proof. intros. float_order. Qed.

Lemma not_leb_ltb (x y : float) :
  PrimFloat.is_nan x = false -> PrimFloat.is_nan y = false ->
  PrimFloat.leb x y = false -> PrimFloat.ltb y x = true.
Proof. intros. float_order. Qed.

Lemma ltb_number (x y : float) :
  PrimFloat.ltb x y = true ->
  PrimFloat.is_nan x = false /\ PrimFloat.is_nan y = false.
Proof. intros. float_order. Qed.

Lemma leb_refl (x : float) :
  PrimFloat.is_nan x = false -> PrimFloat.leb x x = true.
Proof. intros. float_order. Qed.

Lemma ltb_infinity_false (x : float) :
  PrimFloat.ltb PrimFloat.infinity x = false.
Proof.
  apply ltb_false_iff. intros (_ & _ & H). unfold fkey, lex_lt in H.
  change (Prim2SF PrimFloat.infinity) with (S754_infinity false) in H.
  cbn [sf_key] in H.
  destruct (Prim2SF x) as [[|]|[|]| |[|] m e]; cbn [sf_key] in H; lia.
Qed.

Lemma not_below_infinity (x : float) :
  PrimFloat.is_nan x = false ->
  PrimFloat.ltb x PrimFloat.infinity = false ->
  x = PrimFloat.infinity.
Proof.
  intros Hnum Hlt. apply Prim2SF_inj.
  change (Prim2SF PrimFloat.infinity) with (S754_infinity false).
  apply is_number_spec in Hnum.
  rewrite FloatAxioms.ltb_spec in Hlt.
  change (Prim2SF PrimFloat.infinity) with (S754_infinity false) in Hlt.
  unfold sf_num in Hnum.
  destruct (Prim2SF x) as [[|]|[|]| |[|] m e]; cbn in Hlt;
    congruence.
Qed.

Lemma non_negative_spec (x : float) :
  non_negative x <-> sf_nonneg (Prim2SF x).
Proof.
  unfold non_negative. rewrite FloatAxioms.leb_spec.
  change (Prim2SF PrimFloat.zero) with (S754_zero false).
  destruct (Prim2SF x) as [[|]|[|]| |[|] m e]; cbn; split;
    intros H; try exact I; try reflexivity; try discriminate H;
    try contradiction.
Qed.

Lemma non_negative_number (x : float) :
  non_negative x -> PrimFloat.is_nan x = false.
Proof.
  intros H. apply non_negative_spec in H. apply is_number_spec.
  unfold sf_num. destruct (Prim2SF x) as [[|]|[|]| |[|] m e];
    cbn in H; try contradiction; discriminate.
Qed.

Lemma add_non_negative (x y : float) :
  non_negative x -> non_negative y -> non_negative (PrimFloat.add x y).
Proof.
  rewrite !non_negative_spec, add_spec. apply SFadd_nonneg.
Qed.

Lemma div_non_negative (x d : float) (m : positive) (e : Z) :
  Prim2SF d = S754_finite false m e ->
  non_negative x -> non_negative (PrimFloat.div x d).
Proof.
  intros Hd. rewrite !non_negative_spec, div_spec, Hd. apply SFdiv_nonneg.
Qed.

Lemma zero_non_negative : non_negative PrimFloat.zero.
Proof. reflexivity. Qed.

Lemma fold_add_non_negative (l : list float) (x : float) :
  non_negative x -> Forall non_negative l ->
  non_negative (fold_left PrimFloat.add l x).
Proof.
  revert x. induction l as [|y l IH]; intros x Hx Hl; [exact Hx|].
  inversion Hl; subst. cbn [fold_left]. apply IH; [|assumption].
  now apply add_non_negative.
Qed.

(** Dividing by a number of hours between 1 and 7. *)
Lemma small_divisor (h : Z) :
  1 <= h <= NIGHT_HOURS ->
  exists m e, Prim2SF (float_of_int h) = S754_finite false m e.
Proof.
  unfold NIGHT_HOURS. intros Hh.
  assert (Hcases : h = 1 \/ h = 2 \/ h = 3 \/ h = 4 \/ h = 5 \/ h = 6 \/ h = 7)
    by lia.
  destruct Hcases as [->|[->|[->|[->|[->|[->| ->]]]]]];
    eexists _, _; vm_compute; reflexivity.
Qed.

Lemma sum_non_negative (l : list float) :
  Forall non_negative l -> number_non_negative (sum l).
Proof.
  intros Hl. destruct l as [|x l]; [exact I|].
  cbn [sum number_non_negative].
  apply fold_add_non_negative; [apply zero_non_negative|assumption].
Qed.

Lemma plus_non_negative (a b : number) :
  number_non_negative a -> number_non_negative b ->
  number_non_negative (plus a b).
Proof.
  destruct a as [|x], b as [|y]; cbn [plus number_non_negative];
    intros Ha Hb; try exact I; apply add_non_negative;
    try assumption; apply zero_non_negative.
Qed.

Lemma mean_value_non_negative (t : number) (h : Z) :
  1 <= h <= NIGHT_HOURS ->
  number_non_negative t -> non_negative (mean_value t h).
Proof.
  intros Hh Ht. destruct t as [|f]; cbn [mean_value number_non_negative] in *.
  - destruct (Z.ltb_spec h 0); [lia|]. apply zero_non_negative.
  - destruct (small_divisor h Hh) as (m & e & Hd).
    now apply (div_non_negative f _ m e Hd).
Qed.

(** ** Sums and means of finite prices are numbers *)

Section RoundingNumbers.

Variable prec emax : Z.

Lemma binary_round_aux_num (sx : bool) (mx ex : Z) (lx : location) :
  0 <= mx -> sf_num (binary_round_aux prec emax sx mx ex lx).
Proof.
  intros Hm. unfold binary_round_aux, sf_num.
  pose proof (shr_fexp_nonneg prec emax mx ex lx Hm) as H1.
  destruct (shr_fexp prec emax mx ex lx) as [mrs' e']. cbn [fst] in H1.
  pose proof (shr_fexp_nonneg prec emax
                (round_nearest_even (shr_m mrs') (loc_of_shr_record mrs'))
                e' loc_Exact
                (round_nearest_even_nonneg _ _ H1)) as H2.
  destruct (shr_fexp prec emax _ e' loc_Exact) as [mrs'' e'']. cbn [fst] in H2.
  destruct (shr_m mrs'') as [|p|p]; [discriminate| |lia].
  destruct (e'' <=? emax - prec); discriminate.
Qed.

Lemma binary_normalize_num (m e : Z) (szero : bool) :
  sf_num (binary_normalize prec emax m e szero).
Proof.
  unfold binary_normalize.
  destruct m as [|p|p]; [discriminate| |]; unfold binary_round;
    destruct (shl_align p e _) as [mz ez];
    apply binary_round_aux_num; lia.
Qed.

Lemma SFadd_num (x y : spec_float) :
  sf_num x -> sf_finite y -> sf_num (SFadd prec emax x y).
Proof.
  destruct x as [sx|[|]| |[|] mx ex], y as [sy|[|]| |[|] my ey];
    cbn [sf_finite SFadd]; try tauto; intros Hx _; try exact Hx;
    try discriminate;
    try (destruct sx, sy; discriminate);
    try (destruct (shl_align _ _ _) as [? ?]; destruct (shl_align _ _ _) as [? ?]);
    apply binary_normalize_num.
Qed.

Lemma SFdiv_num (x : spec_float) (sy : bool) (my : positive) (ey : Z) :
  sf_num x -> sf_num (SFdiv prec emax x (S754_finite sy my ey)).
Proof.
  unfold sf_num.
  destruct x as [sx|sx| |sx mx ex]; cbn [SFdiv];
    intros Hx; try exact Hx; try discriminate.
  unfold SFdiv_core_binary.
  set (m' := match _ - _ - _ with Z0 => Z.pos mx | Zpos _ => _ | Zneg _ => 0 end).
  assert (Hm' : 0 <= m').
  { subst m'. destruct (_ - _ - _) as [|p|p]; try lia.
    apply Z.shiftl_nonneg. lia. }
  pose proof (Z.div_pos m' (Z.pos my) Hm' ltac:(lia)) as Hq.
  unfold Z.div in Hq.
  destruct (Z.div_eucl m' (Z.pos my)) as [q r]. cbn [fst] in Hq.
  now apply binary_round_aux_num.
Qed.

End RoundingNumbers.

Lemma finite_spec (x : float) : finite x <-> sf_finite (Prim2SF x).
Proof.
  unfold finite. rewrite !FloatAxioms.ltb_spec.
  change (Prim2SF PrimFloat.infinity) with (S754_infinity false).
  change (Prim2SF PrimFloat.neg_infinity) with (S754_infinity true).
  destruct (Prim2SF x) as [[|]|[|]| |[|] m e]; cbn; split;
    intros H; try exact I; try (split; reflexivity);
    try contradiction; destruct H; discriminate.
Qed.

Lemma finite_number (x : float) : finite x -> PrimFloat.is_nan x = false.
Proof. intros [_ H]. now apply (ltb_number _ _ H). Qed.

Lemma add_number (x y : float) :
  PrimFloat.is_nan x = false -> finite y ->
  PrimFloat.is_nan (PrimFloat.add x y) = false.
Proof.
  rewrite !is_number_spec, finite_spec, add_spec. apply SFadd_num.
Qed.

Lemma fold_add_number (l : list float) (x : float) :
  PrimFloat.is_nan x = false -> Forall finite l ->
  PrimFloat.is_nan (fold_left PrimFloat.add l x) = false.
Proof.
  revert x. induction l as [|y l IH]; intros x Hx Hl; [exact Hx|].
  inversion Hl; subst. cbn [fold_left]. apply IH; [|assumption].
  now apply add_number.
Qed.

Lemma div_number (x d : float) (s : bool) (m : positive) (e : Z) :
  Prim2SF d = S754_finite s m e ->
  PrimFloat.is_nan x = false -> PrimFloat.is_nan (PrimFloat.div x d) = false.
Proof.
  intros Hd. rewrite !is_number_spec, div_spec, Hd. apply SFdiv_num.
Qed.

(** The mean of one block of finite prices is a number: a sum that
    overflows stays at one infinity. *)
Lemma block_mean_number (l : list float) (h : Z) :
  1 <= h <= NIGHT_HOURS -> Forall finite l ->
  PrimFloat.is_nan (mean_value (sum l) h) = false.
Proof.
  intros Hh Hl. destruct l as [|x l]; cbn [sum mean_value].
  - now destruct (h <? 0).
  - destruct (small_divisor h Hh) as (m & e & Hd).
    apply (div_number _ _ false m e Hd).
    now apply fold_add_number.
Qed.

(** ** Multiplication by a non-negative double is monotone *)
Lemma rne_bounds (m n : Z) :
  0 <= n -> m / 2 ^ n <= rne m n <= m / 2 ^ n + 1.
Proof.
  intros Hn. unfold rne.
  destruct (_ <? _); [lia|]. destruct (_ <? _); [lia|].
  destruct (Z.even _); lia.
Qed.

Lemma rne_exact (q n : Z) : 0 <= n -> rne (q * 2 ^ n) n = q.
Proof.
  intros Hn. unfold rne.
  assert (Hp : 0 < 2 ^ n) by (apply Z.pow_pos_nonneg; lia).
  rewrite Z.div_mul, Z.mod_mul by lia.
  destruct (Z.ltb_spec (2 * 0) (2 ^ n)); [reflexivity|lia].
Qed.

Lemma rne_monotone (m1 m2 n : Z) :
  0 <= n -> m1 <= m2 -> rne m1 n <= rne m2 n.
Proof.
  intros Hn Hm.
  assert (Hp : 0 < 2 ^ n) by (apply Z.pow_pos_nonneg; lia).
  pose proof (Z.div_le_mono m1 m2 (2 ^ n) Hp Hm) as Hq.
  destruct (Z.eq_dec (m1 / 2 ^ n) (m2 / 2 ^ n)) as [Heq|Hne].
  - assert (Hr : m1 mod 2 ^ n <= m2 mod 2 ^ n).
    { pose proof (Z.div_mod m1 (2 ^ n)) as H1.
      pose proof (Z.div_mod m2 (2 ^ n)) as H2.
      rewrite Heq in H1. lia. }
    unfold rne. rewrite Heq.
    destruct (Z.ltb_spec (2 * (m1 mod 2 ^ n)) (2 ^ n));
      destruct (Z.ltb_spec (2 * (m2 mod 2 ^ n)) (2 ^ n));
      destruct (Z.ltb_spec (2 ^ n) (2 * (m1 mod 2 ^ n)));
      destruct (Z.ltb_spec (2 ^ n) (2 * (m2 mod 2 ^ n)));
      destruct (Z.even (m2 / 2 ^ n)); lia.
  - pose proof (rne_bounds m1 n Hn). pose proof (rne_bounds m2 n Hn). lia.
Qed.

Lemma rne_scale (m n k : Z) :
  0 <= n -> 0 <= k -> rne (m * 2 ^ k) (n + k) = rne m n.
Proof.
  intros Hn Hk. unfold rne.
  assert (Hpn : 0 < 2 ^ n) by (apply Z.pow_pos_nonneg; lia).
  assert (Hpk : 0 < 2 ^ k) by (apply Z.pow_pos_nonneg; lia).
  rewrite Z.pow_add_r by lia.
  rewrite Z.div_mul_cancel_r by lia.
  rewrite Z.mul_mod_distr_r by lia.
  destruct (Z.ltb_spec (2 * (m mod 2 ^ n)) (2 ^ n));
    destruct (Z.ltb_spec (2 * (m mod 2 ^ n * 2 ^ k)) (2 ^ n * 2 ^ k));
    try nia; try reflexivity.
  destruct (Z.ltb_spec (2 ^ n) (2 * (m mod 2 ^ n)));
    destruct (Z.ltb_spec (2 ^ n * 2 ^ k) (2 * (m mod 2 ^ n * 2 ^ k)));
    try nia; reflexivity.
Qed.

Lemma shr_1_spec (mrs : shr_record) :
  0 <= shr_m mrs ->
  shr_1 mrs
  = Build_shr_record (shr_m mrs / 2) (Z.odd (shr_m mrs))
      (shr_r mrs || shr_s mrs).
Proof.
  destruct mrs as [m r s]. cbn [shr_m shr_r shr_s]. intros Hm.
  rewrite <- Z.div2_div.
  destruct m as [|[p|p|]|p]; try reflexivity. lia.
Qed.

Lemma iter_pos_nat {A : Type} (f : A -> A) (p : positive) (x : A) :
  SpecFloat.iter_pos f p x = Nat.iter (Pos.to_nat p) f x.
Proof.
  revert x. induction p as [p IH|p IH|]; intros x; cbn [SpecFloat.iter_pos].
  - rewrite !IH. rewrite Pos2Nat.inj_xI.
    replace (S (2 * Pos.to_nat p))%nat
      with (Pos.to_nat p + (Pos.to_nat p + 1))%nat by lia.
    rewrite !Nat.iter_add. reflexivity.
  - rewrite !IH. rewrite Pos2Nat.inj_xO.
    replace (2 * Pos.to_nat p)%nat
      with (Pos.to_nat p + Pos.to_nat p)%nat by lia.
    now rewrite Nat.iter_add.
  - reflexivity.
Qed.

Lemma mod_pow2_succ (m k : Z) :
  0 <= k ->
  m mod 2 ^ (k + 1) = m mod 2 ^ k + 2 ^ k * ((m / 2 ^ k) mod 2).
Proof.
  intros Hk. rewrite Z.pow_add_r by lia. change (2 ^ 1) with 2.
  apply Z.rem_mul_r; [|lia].
  apply Z.pow_nonzero; lia.
Qed.

(** The record after [k + 1] right shifts of a mantissa. *)
Lemma iter_shr_1_spec (m : Z) (k : nat) :
  0 <= m ->
  Nat.iter (S k) shr_1 (Build_shr_record m false false)
  = Build_shr_record (m / 2 ^ (Z.of_nat k + 1))
      (Z.odd (m / 2 ^ Z.of_nat k))
      (negb (m mod 2 ^ Z.of_nat k =? 0)).
Proof.
  intros Hm. induction k as [|k IH].
  - rewrite Nat.iter_succ. cbn [Nat.iter nat_rect].
    rewrite shr_1_spec by exact Hm. cbn [shr_m shr_r shr_s].
    change (2 ^ (Z.of_nat 0 + 1)) with 2. change (2 ^ Z.of_nat 0) with 1.
    now rewrite Z.div_1_r, Z.mod_1_r.
  - rewrite (Nat.iter_succ (S k)), IH.
    rewrite shr_1_spec; cbn [shr_m shr_r shr_s].
    + assert (Hp : 0 < 2 ^ Z.of_nat k) by (apply Z.pow_pos_nonneg; lia).
      assert (Hp' : 0 < 2 ^ (Z.of_nat k + 1)) by (apply Z.pow_pos_nonneg; lia).
      replace (Z.of_nat (S k)) with (Z.of_nat k + 1) by lia.
      f_equal.
      * rewrite Z.div_div by lia.
        now rewrite (Z.pow_add_r 2 (Z.of_nat k + 1) 1) by lia.
      * rewrite (mod_pow2_succ m (Z.of_nat k)) by lia.
        pose proof (Z.mod_pos_bound m (2 ^ Z.of_nat k) Hp) as Hlo.
        rewrite Zodd_mod.
        pose proof (Z.mod_pos_bound (m / 2 ^ Z.of_nat k) 2 ltac:(lia)) as Hb.
        destruct (Z.eqb_spec ((m / 2 ^ Z.of_nat k) mod 2) 1) as [H1|H1];
          destruct (Z.eqb_spec (m mod 2 ^ Z.of_nat k) 0) as [H0|H0];
          cbn [negb orb];
          match goal with
          | |- _ = negb (?a =? 0) => destruct (Z.eqb_spec a 0)
          end; cbn [negb]; try reflexivity; nia.
    + apply Z.div_pos; [exact Hm|]. apply Z.pow_pos_nonneg; lia.
Qed.

(** Rounding the shifted record is rounding [m / 2^n] to nearest even. *)
Lemma shr_round (m : Z) (p : positive) :
  0 <= m ->
  let mrs := SpecFloat.iter_pos shr_1 p (Build_shr_record m false false) in
  round_nearest_even (shr_m mrs) (loc_of_shr_record mrs) = rne m (Zpos p).
Proof.
  intros Hm. cbv zeta. rewrite iter_pos_nat.
  destruct (Pos2Nat.is_succ p) as (k & Hk). rewrite Hk.
  rewrite iter_shr_1_spec by exact Hm.
  assert (Hpk : Zpos p = Z.of_nat k + 1) by lia.
  rewrite Hpk. unfold rne.
  assert (Hp : 0 < 2 ^ Z.of_nat k) by (apply Z.pow_pos_nonneg; lia).
  rewrite (mod_pow2_succ m (Z.of_nat k)) by lia.
  rewrite (Z.pow_add_r 2 (Z.of_nat k) 1) by lia. change (2 ^ 1) with 2.
  pose proof (Z.mod_pos_bound m (2 ^ Z.of_nat k) Hp) as Hlo.
  pose proof (Z.mod_pos_bound (m / 2 ^ Z.of_nat k) 2 ltac:(lia)) as Hb.
  rewrite Zodd_mod.
  set (lo := m mod 2 ^ Z.of_nat k) in *.
  set (b := (m / 2 ^ Z.of_nat k) mod 2) in *.
  set (P := 2 ^ Z.of_nat k) in *.
  cbn [shr_m loc_of_shr_record].
  destruct (Z.eqb_spec b 1) as [H1|H1];
    destruct (Z.eqb_spec lo 0) as [H0|H0]; cbn [negb round_nearest_even];
    destruct (Z.ltb_spec (2 * (lo + P * b)) (P * 2));
    destruct (Z.ltb_spec (P * 2) (2 * (lo + P * b)));
    try reflexivity; nia.
Qed.

Lemma digits2_size (p : positive) : digits2_pos p = Pos.size p.
Proof. induction p as [p IH|p IH|]; cbn; now rewrite ?IH. Qed.

Lemma digits_bounds (p : positive) :
  2 ^ (Zpos (digits2_pos p) - 1) <= Zpos p < 2 ^ Zpos (digits2_pos p).
Proof.
  rewrite digits2_size.
  pose proof (Pos.size_gt p) as Hgt. pose proof (Pos.size_le p) as Hle.
  assert (Hpow : Zpos (2 ^ Pos.size p) = 2 ^ Zpos (Pos.size p))
    by apply Pos2Z.inj_pow.
  assert (Hsplit : 2 ^ Zpos (Pos.size p) = 2 * 2 ^ (Zpos (Pos.size p) - 1)).
  { rewrite <- (Z.pow_succ_r 2) by lia. f_equal. lia. }
  split; lia.
Qed.

Lemma digits_mul_pow2 (p : positive) (k : Z) (q : positive) :
  0 <= k -> Zpos q = Zpos p * 2 ^ k ->
  Zpos (digits2_pos q) = Zpos (digits2_pos p) + k.
Proof.
  intros Hk Hq.
  pose proof (digits_bounds p) as [Hlo Hhi].
  pose proof (digits_bounds q) as [Hlo' Hhi'].
  rewrite Hq in Hlo', Hhi'.
  set (d := Zpos (digits2_pos p)) in *. set (d' := Zpos (digits2_pos q)) in *.
  assert (Hpk : 0 < 2 ^ k) by (apply Z.pow_pos_nonneg; lia).
  assert (H1 : 2 ^ (d' - 1) < 2 ^ (d + k)).
  { rewrite (Z.pow_add_r 2 d k) by (subst d; lia). nia. }
  assert (H2 : 2 ^ (d - 1 + k) < 2 ^ d').
  { rewrite (Z.pow_add_r 2 (d - 1) k) by (subst d; lia). nia. }
  apply Z.pow_lt_mono_r_iff in H1; [|lia|subst d; lia].
  apply Z.pow_lt_mono_r_iff in H2; [|lia|subst d'; lia].
  lia.
Qed.

Lemma digits_monotone (p q : positive) :
  Zpos p <= Zpos q -> Zpos (digits2_pos p) <= Zpos (digits2_pos q).
Proof.
  intros Hpq.
  pose proof (digits_bounds p) as [Hlo _].
  pose proof (digits_bounds q) as [_ Hhi].
  assert (H : 2 ^ (Zpos (digits2_pos p) - 1) < 2 ^ Zpos (digits2_pos q)) by lia.
  apply Z.pow_lt_mono_r_iff in H; lia.
Qed.

Section RoundedProduct.

Variable prec emax : Z.
Hypothesis prec_pos : 0 < prec.

Let emin := SpecFloat.emin prec emax.
Let fexp := SpecFloat.fexp prec emax.

Lemma fexp_ge_emin (x : Z) : emin <= fexp x.
Proof. unfold fexp, SpecFloat.fexp, emin. lia. Qed.

Lemma fexp_monotone (x y : Z) : x <= y -> fexp x <= fexp y.
Proof. unfold fexp, SpecFloat.fexp. lia. Qed.

(** The rounded mantissa of a mantissa shifted to its target exponent has
    at most [prec] digits, or is [2^prec]. *)
Lemma rne_mantissa_bound (m : positive) (e : Z) :
  let t := fexp (Zpos (digits2_pos m) + e) in
  e <= t -> 0 <= rne (Zpos m) (t - e) <= 2 ^ prec.
Proof.
  intros t Ht.
  pose proof (rne_bounds (Zpos m) (t - e) ltac:(lia)) as [Hlo Hhi].
  pose proof (digits_bounds m) as [_ Hd].
  assert (Hpn : 0 < 2 ^ (t - e)) by (apply Z.pow_pos_nonneg; lia).
  assert (Hpp : 0 < 2 ^ prec) by (apply Z.pow_pos_nonneg; lia).
  assert (Hq0 : 0 <= Zpos m / 2 ^ (t - e)) by (apply Z.div_pos; lia).
  split; [lia|].
  assert (Hlt : Zpos m / 2 ^ (t - e) < 2 ^ prec); [|lia].
  apply Z.div_lt_upper_bound; [exact Hpn|].
  rewrite <- Z.pow_add_r by lia.
  eapply Z.lt_le_trans; [exact Hd|].
  apply Z.pow_le_mono_r; [lia|].
  subst t. unfold fexp, SpecFloat.fexp. lia.
Qed.

(** What [binary_round_aux] computes on an exact mantissa that has to be
    shifted right. *)
Lemma round_aux_spec (sx : bool) (m : positive) (e : Z) :
  let t := fexp (Zpos (digits2_pos m) + e) in
  e <= t ->
  binary_round_aux prec emax sx (Zpos m) e loc_Exact
  = rounded prec emax sx (rne (Zpos m) (t - e)) t.
Proof.
  intros t Ht.
  pose proof (rne_mantissa_bound m e Ht) as Hq. fold t in Hq.
  assert (Ht_min : emin <= t) by apply fexp_ge_emin.
  unfold binary_round_aux.
  assert (Hfirst : let '(mrs, e') := shr_fexp prec emax (Zpos m) e loc_Exact in
            round_nearest_even (shr_m mrs) (loc_of_shr_record mrs)
            = rne (Zpos m) (t - e) /\ e' = t).
  { unfold shr_fexp, shr. cbn [Zdigits2 shr_record_of_loc].
    fold fexp. fold t.
    destruct (t - e) as [|p|p] eqn:Hn; [| |lia].
    - cbn [shr_m loc_of_shr_record round_nearest_even]. split; [|lia].
      unfold rne. change (2 ^ 0) with 1.
      now rewrite Z.div_1_r, Z.mod_1_r.
    - split; [|lia]. now apply shr_round. }
  destruct (shr_fexp prec emax (Zpos m) e loc_Exact) as [mrs e'].
  destruct Hfirst as [-> ->].
  set (q := rne (Zpos m) (t - e)) in *.
  unfold rounded, shr_fexp, shr. fold fexp.
  destruct (Z.eqb_spec q 0) as [Hz|Hnz].
  { rewrite Hz. cbn [Zdigits2 shr_record_of_loc].
    assert (Hn : fexp (0 + t) - t <= 0)
      by (unfold fexp, SpecFloat.fexp; fold emin; lia).
    destruct (fexp (0 + t) - t) as [|p|p]; [reflexivity|lia|reflexivity]. }
  destruct q as [|pq|pq] eqn:Hq_eq; [congruence| |lia].
  cbn [Zdigits2 shr_record_of_loc].
  pose proof (digits_bounds pq) as [Hdlo Hdhi].
  assert (Hpp : 0 < 2 ^ (prec - 1)) by (apply Z.pow_pos_nonneg; lia).
  assert (Hsplit : 2 ^ prec = 2 * 2 ^ (prec - 1)).
  { rewrite <- (Z.pow_succ_r 2) by lia. f_equal. lia. }
  destruct (Z.eqb_spec (Zpos pq) (2 ^ prec)) as [Hfull|Hless].
  - assert (Hd : Zpos (digits2_pos pq) = prec + 1).
    { rewrite Hfull in Hdlo, Hdhi.
      apply Z.pow_le_mono_r_iff in Hdlo; [|lia|lia].
      apply Z.pow_lt_mono_r_iff in Hdhi; [|lia|lia]. lia. }
    rewrite Hd.
    replace (fexp (prec + 1 + t) - t) with 1
      by (unfold fexp, SpecFloat.fexp; fold emin; lia).
    cbn [SpecFloat.iter_pos]. rewrite shr_1_spec by (cbn [shr_m]; lia).
    cbn [shr_m fst snd]. rewrite Hfull, Hsplit.
    rewrite Z.mul_comm, Z.div_mul by lia.
    destruct (2 ^ (prec - 1)) as [|pp|pp] eqn:Hpow; [lia| |lia].
    cbn [Z.to_pos]. reflexivity.
  - assert (Hd : Zpos (digits2_pos pq) <= prec).
    { assert (H : 2 ^ (Zpos (digits2_pos pq) - 1) < 2 ^ prec) by lia.
      apply Z.pow_lt_mono_r_iff in H; lia. }
    assert (Hn : fexp (Zpos (digits2_pos pq) + t) - t <= 0)
      by (unfold fexp, SpecFloat.fexp; fold emin; lia).
    destruct (fexp (Zpos (digits2_pos pq) + t) - t) as [|p|p];
      [reflexivity|lia|reflexivity].
Qed.

Lemma rounded_le (q1 t1 q2 t2 : Z) :
  0 <= q1 <= 2 ^ prec -> 0 <= q2 <= 2 ^ prec ->
  (t1 = t2 /\ q1 <= q2) \/ (t1 < t2 /\ 2 ^ (prec - 1) <= q2) ->
  SFleb (rounded prec emax false q1 t1) (rounded prec emax false q2 t2) = true.
Proof.
  intros Hq1 Hq2 Hcase.
  assert (Hpp : 0 < 2 ^ (prec - 1)) by (apply Z.pow_pos_nonneg; lia).
  assert (Hsplit : 2 ^ prec = 2 * 2 ^ (prec - 1)).
  { rewrite <- (Z.pow_succ_r 2) by lia. f_equal. lia. }
  apply SFleb_iff. unfold rounded, sf_num, lex_le.
  destruct (Z.eqb_spec q1 0); destruct (Z.eqb_spec q2 0);
    destruct (Z.eqb_spec q1 (2 ^ prec)); destruct (Z.eqb_spec q2 (2 ^ prec));
    destruct (Z.leb_spec (t1 + 1) (emax - prec));
    destruct (Z.leb_spec (t2 + 1) (emax - prec));
    destruct (Z.leb_spec t1 (emax - prec));
    destruct (Z.leb_spec t2 (emax - prec));
    cbn [sf_key]; rewrite ?Z2Pos.id by lia;
    (split; [discriminate|split; [discriminate|lia]]).
Qed.

(** Rounding is monotone in the mantissa at a fixed exponent. *)
Lemma round_aux_monotone (m1 m2 : positive) (e : Z) :
  Zpos m1 <= Zpos m2 ->
  e <= fexp (Zpos (digits2_pos m1) + e) ->
  SFleb (binary_round_aux prec emax false (Zpos m1) e loc_Exact)
        (binary_round_aux prec emax false (Zpos m2) e loc_Exact) = true.
Proof.
  intros Hm Ht1.
  pose proof (digits_monotone m1 m2 Hm) as Hd.
  set (t1 := fexp (Zpos (digits2_pos m1) + e)) in *.
  set (t2 := fexp (Zpos (digits2_pos m2) + e)).
  assert (Ht : t1 <= t2) by (apply fexp_monotone; lia).
  assert (Ht2 : e <= t2) by lia.
  rewrite (round_aux_spec false m1 e Ht1), (round_aux_spec false m2 e Ht2).
  fold t1 t2.
  apply rounded_le;
    [now apply rne_mantissa_bound|now apply rne_mantissa_bound|].
  destruct (Z.eq_dec t1 t2) as [Heq|Hne].
  - left. split; [exact Heq|]. rewrite Heq. apply rne_monotone; lia.
  - right. split; [lia|].
    assert (Hemin : emin <= t1) by apply fexp_ge_emin.
    assert (Ht2_eq : t2 = Zpos (digits2_pos m2) + e - prec)
      by (subst t1 t2; unfold fexp, SpecFloat.fexp in *; lia).
    pose proof (rne_bounds (Zpos m2) (t2 - e) ltac:(lia)) as [Hlo _].
    pose proof (digits_bounds m2) as [Hdlo _].
    assert (Hpn : 0 < 2 ^ (t2 - e)) by (apply Z.pow_pos_nonneg; lia).
    eapply Z.le_trans; [|exact Hlo].
    apply Z.div_le_lower_bound; [exact Hpn|].
    rewrite Z.mul_comm, <- Z.pow_add_r by lia.
    replace (prec - 1 + (t2 - e)) with (Zpos (digits2_pos m2) - 1) by lia.
    exact Hdlo.
Qed.

(** Rounding does not depend on how the value is split between mantissa
    and exponent. *)
Lemma round_aux_scale (sx : bool) (m q : positive) (e k : Z) :
  0 <= k -> Zpos q = Zpos m * 2 ^ k ->
  e <= fexp (Zpos (digits2_pos m) + e) ->
  binary_round_aux prec emax sx (Zpos q) (e - k) loc_Exact
  = binary_round_aux prec emax sx (Zpos m) e loc_Exact.
Proof.
  intros Hk Hq Ht.
  pose proof (digits_mul_pow2 m k q Hk Hq) as Hd.
  assert (Hsame : Zpos (digits2_pos q) + (e - k) = Zpos (digits2_pos m) + e)
    by lia.
  rewrite (round_aux_spec sx m e Ht).
  rewrite (round_aux_spec sx q (e - k)) by (rewrite Hsame; lia).
  rewrite Hsame, Hq.
  replace (fexp (Zpos (digits2_pos m) + e) - (e - k))
    with (fexp (Zpos (digits2_pos m) + e) - e + k) by lia.
  now rewrite rne_scale by lia.
Qed.

Lemma round_aux_opp (m e : Z) (l : location) :
  binary_round_aux prec emax true m e l
  = SFopp (binary_round_aux prec emax false m e l).
Proof.
  unfold binary_round_aux.
  destruct (shr_fexp prec emax m e l) as [mrs' e'].
  destruct (shr_fexp prec emax _ e' loc_Exact) as [mrs'' e''].
  destruct (shr_m mrs'') as [|p|p]; try reflexivity.
  now destruct (e'' <=? emax - prec).
Qed.

End RoundedProduct.

Section ProductOrder.

Variable prec emax : Z.
Hypothesis prec_pos : 0 < prec.
Hypothesis emin_nonpos : SpecFloat.emin prec emax <= 0.

Lemma canonical_cases (m : positive) (e : Z) :
  canonical_mantissa prec emax m e = true ->
  Zpos (digits2_pos m) <= prec /\ SpecFloat.emin prec emax <= e /\
  (Zpos (digits2_pos m) = prec \/ e = SpecFloat.emin prec emax).
Proof.
  unfold canonical_mantissa, SpecFloat.fexp. intros H.
  apply Z.eqb_eq in H. lia.
Qed.

Lemma digits_product (mx mk : positive) :
  Zpos (digits2_pos mx) + Zpos (digits2_pos mk) - 1
  <= Zpos (digits2_pos (mx * mk)).
Proof.
  pose proof (digits_bounds mx) as [Hx _].
  pose proof (digits_bounds mk) as [Hk _].
  pose proof (digits_bounds (mx * mk)) as [_ Hp].
  rewrite Pos2Z.inj_mul in Hp.
  set (dx := Zpos (digits2_pos mx)) in *.
  set (dk := Zpos (digits2_pos mk)) in *.
  assert (Hpx : 0 < 2 ^ (dx - 1)) by (apply Z.pow_pos_nonneg; subst dx; lia).
  assert (Hpk : 0 < 2 ^ (dk - 1)) by (apply Z.pow_pos_nonneg; subst dk; lia).
  assert (H : 2 ^ (dx - 1 + (dk - 1)) < 2 ^ Zpos (digits2_pos (mx * mk))).
  { rewrite Z.pow_add_r by (subst dx dk; lia). nia. }
  apply Z.pow_lt_mono_r_iff in H; lia.
Qed.

(** The exact product of two doubles is never shifted left by the
    rounding. *)
Lemma product_shiftable (mx mk : positive) (ex ek : Z) :
  canonical_mantissa prec emax mx ex = true ->
  canonical_mantissa prec emax mk ek = true ->
  ex + ek
  <= SpecFloat.fexp prec emax (Zpos (digits2_pos (mx * mk)) + (ex + ek)).
Proof.
  intros Hx Hk.
  apply canonical_cases in Hx. apply canonical_cases in Hk.
  pose proof (digits_product mx mk) as Hd.
  unfold SpecFloat.fexp. lia.
Qed.

Lemma product_monotone (mx' mx mk : positive) (ex' ex ek : Z) :
  canonical_mantissa prec emax mx' ex' = true ->
  canonical_mantissa prec emax mx ex = true ->
  canonical_mantissa prec emax mk ek = true ->
  ex' < ex \/ (ex' = ex /\ Zpos mx' <= Zpos mx) ->
  SFleb
    (binary_round_aux prec emax false (Zpos (mx' * mk)) (ex' + ek) loc_Exact)
    (binary_round_aux prec emax false (Zpos (mx * mk)) (ex + ek) loc_Exact)
  = true.
Proof.
  intros Hx' Hx Hk Hle.
  pose proof (product_shiftable mx' mk ex' ek Hx' Hk) as Hs'.
  pose proof (product_shiftable mx mk ex ek Hx Hk) as Hs.
  destruct Hle as [Hlt|[-> Hm]].
  - set (k := ex - ex').
    assert (Hpk : 2 <= 2 ^ k).
    { change 2 with (2 ^ 1) at 1. apply Z.pow_le_mono_r; subst k; lia. }
    set (q := Z.to_pos (Zpos (mx * mk) * 2 ^ k)).
    assert (Hq : Zpos q = Zpos (mx * mk) * 2 ^ k)
      by (subst q; apply Z2Pos.id; lia).
    rewrite <- (round_aux_scale prec emax prec_pos false (mx * mk) q
                  (ex + ek) k ltac:(subst k; lia) Hq Hs).
    replace (ex + ek - k) with (ex' + ek) by (subst k; lia).
    apply round_aux_monotone; [exact prec_pos| |exact Hs'].
    rewrite Hq, !Pos2Z.inj_mul.
    apply canonical_cases in Hx'. apply canonical_cases in Hx.
    pose proof (digits_bounds mx') as [_ Hhi'].
    pose proof (digits_bounds mx) as [Hlo _].
    assert (Hd : Zpos (digits2_pos mx) = prec) by lia.
    rewrite Hd in Hlo.
    assert (Hhi : Zpos mx' < 2 ^ prec).
    { eapply Z.lt_le_trans; [exact Hhi'|]. apply Z.pow_le_mono_r; lia. }
    assert (Hsplit : 2 ^ prec = 2 * 2 ^ (prec - 1)).
    { rewrite <- (Z.pow_succ_r 2) by lia. f_equal. lia. }
    assert (Hxk : Zpos mx' <= Zpos mx * 2 ^ k) by nia.
    replace (Zpos mx * Zpos mk * 2 ^ k) with (Zpos mx * 2 ^ k * Zpos mk)
      by ring.
    apply Z.mul_le_mono_nonneg_r; lia.
  - apply round_aux_monotone; [exact prec_pos| |exact Hs'].
    rewrite !Pos2Z.inj_mul. apply Z.mul_le_mono_nonneg_r; lia.
Qed.

Lemma SFleb_nonpos_nonneg (a b : spec_float) :
  sf_nonpos a -> sf_nonneg b -> SFleb a b = true.
Proof.
  destruct a as [sa|[|]| |[|] ma ea], b as [sb|[|]| |[|] mb eb];
    cbn [sf_nonpos sf_nonneg]; try tauto; reflexivity.
Qed.

Lemma SFleb_opp (a b : spec_float) :
  SFleb (SFopp a) (SFopp b) = SFleb b a.
Proof.
  destruct (SFleb b a) eqn:Hba.
  - apply SFleb_iff in Hba. apply SFleb_iff.
    destruct Hba as (Hb & Ha & Hkey). unfold sf_num, lex_le in *.
    destruct a as [sa|[|]| |[|] ma ea], b as [sb|[|]| |[|] mb eb];
      cbn [SFopp sf_key negb] in *;
      (split; [discriminate || congruence
              |split; [discriminate || congruence|lia]]).
  - destruct (SFleb (SFopp a) (SFopp b)) eqn:Hab; [|reflexivity].
    apply SFleb_iff in Hab.
    assert (Hgoal : SFleb b a = true); [|congruence].
    apply SFleb_iff.
    destruct Hab as (Ha & Hb & Hkey). unfold sf_num, lex_le in *.
    destruct a as [sa|[|]| |[|] ma ea], b as [sb|[|]| |[|] mb eb];
      cbn [SFopp sf_key negb] in *;
      (split; [discriminate || congruence
              |split; [discriminate || congruence|lia]]).
Qed.

Lemma round_aux_nonpos (m e : Z) :
  0 <= m -> sf_nonpos (binary_round_aux prec emax true m e loc_Exact).
Proof.
  intros Hm. rewrite round_aux_opp.
  pose proof (binary_round_aux_nonneg prec emax m e loc_Exact Hm) as H.
  destruct (binary_round_aux prec emax false m e loc_Exact)
    as [s|[|]| |[|] m' e']; cbn in *; tauto.
Qed.

(** Multiplying two finite doubles by the same finite, non-negative one
    keeps their order. *)
Lemma SFmul_monotone (x' x k : spec_float) :
  SpecFloat.valid_binary prec emax x' = true ->
  SpecFloat.valid_binary prec emax x = true ->
  SpecFloat.valid_binary prec emax k = true ->
  sf_finite x' -> sf_finite x -> sf_finite k -> sf_nonneg k ->
  SFleb x' x = true ->
  SFleb (SFmul prec emax x' k) (SFmul prec emax x k) = true.
Proof.
  intros Hvx' Hvx Hvk Hfx' Hfx Hfk Hk Hle.
  destruct k as [sk|sk| |[|] mk ek]; cbn [sf_finite sf_nonneg] in Hfk, Hk;
    try contradiction.
  - destruct x' as [sx'|sx'| |sx' mx' ex'], x as [sx|sx| |sx mx ex];
      cbn [sf_finite] in Hfx', Hfx; try contradiction; reflexivity.
  - cbn [SpecFloat.valid_binary] in Hvk. unfold bounded in Hvk.
    apply andb_true_iff in Hvk. destruct Hvk as [Hck _].
    destruct x' as [sx'|sx'| |sx' mx' ex'], x as [sx|sx| |sx mx ex];
      cbn [sf_finite] in Hfx', Hfx; try contradiction; cbn [SFmul].
    + reflexivity.
    + destruct sx; [discriminate Hle|]. cbn [xorb].
      apply SFleb_nonpos_nonneg; [exact I|].
      apply binary_round_aux_nonneg. lia.
    + destruct sx'; [|discriminate Hle]. cbn [xorb].
      apply SFleb_nonpos_nonneg; [|exact I].
      apply round_aux_nonpos. lia.
    + cbn [SpecFloat.valid_binary] in Hvx', Hvx. unfold bounded in Hvx', Hvx.
      apply andb_true_iff in Hvx'. destruct Hvx' as [Hcx' _].
      apply andb_true_iff in Hvx. destruct Hvx as [Hcx _].
      apply SFleb_iff in Hle. destruct Hle as (_ & _ & Hkey).
      unfold lex_le in Hkey.
      destruct sx', sx; cbn [sf_key xorb] in *.
      * rewrite !round_aux_opp, SFleb_opp.
        apply product_monotone; try assumption. lia.
      * apply SFleb_nonpos_nonneg.
        -- apply round_aux_nonpos. lia.
        -- apply binary_round_aux_nonneg. lia.
      * lia.
      * apply product_monotone; try assumption. lia.
Qed.

Lemma SFleb_neg_infinity (y : spec_float) :
  sf_num y -> SFleb (S754_infinity true) y = true.
Proof. unfold sf_num. destruct y as [s|[|]| |s m e]; cbn; congruence. Qed.

Lemma SFleb_pos_infinity (y : spec_float) :
  sf_num y -> SFleb y (S754_infinity false) = true.
Proof.
  unfold sf_num. destruct y as [s|[|]| |[|] m e]; cbn; congruence.
Qed.

(** The same with infinities, as long as both products are numbers. *)
Lemma SFmul_monotone_num (x' x k : spec_float) :
  SpecFloat.valid_binary prec emax x' = true ->
  SpecFloat.valid_binary prec emax x = true ->
  SpecFloat.valid_binary prec emax k = true ->
  sf_nonneg k ->
  sf_num (SFmul prec emax x' k) -> sf_num (SFmul prec emax x k) ->
  SFleb x' x = true ->
  SFleb (SFmul prec emax x' k) (SFmul prec emax x k) = true.
Proof.
  intros Hvx' Hvx Hvk Hk Hn' Hn Hle.
  assert (Hfin : sf_finite x' -> sf_finite x -> sf_finite k ->
            SFleb (SFmul prec emax x' k) (SFmul prec emax x k) = true)
    by (intros; now apply SFmul_monotone).
  destruct x' as [sx'|sx'| |sx' mx' ex'], x as [sx|sx| |sx mx ex],
           k as [sk|sk| |sk mk ek];
    cbn [sf_nonneg] in Hk; try contradiction;
    try (apply Hfin; exact I);
    try discriminate Hle;
    clear Hfin Hvx' Hvx Hvk;
    repeat match goal with b : bool |- _ => destruct b end;
    cbn [SFmul xorb] in *;
    try contradiction;
    try discriminate Hle;
    try (exfalso; apply Hn; reflexivity);
    try (exfalso; apply Hn'; reflexivity);
    try (apply SFleb_neg_infinity; exact Hn);
    try (apply SFleb_pos_infinity; exact Hn');
    reflexivity.
Qed.

End ProductOrder.

Lemma mul_le_compat (x' x k : float) :
  non_negative k ->
  PrimFloat.is_nan (PrimFloat.mul x' k) = false ->
  PrimFloat.is_nan (PrimFloat.mul x k) = false ->
  PrimFloat.leb x' x = true ->
  PrimFloat.leb (PrimFloat.mul x' k) (PrimFloat.mul x k) = true.
Proof.
  rewrite non_negative_spec, !is_number_spec, !FloatAxioms.leb_spec, !mul_spec.
  intros Hk Hn' Hn Hle.
  apply SFmul_monotone_num; try assumption;
    try apply Prim2SF_valid; reflexivity || (vm_compute; discriminate).
Qed.

(** The product of two finite doubles is a number. *)
Lemma mul_finite_number (x k : float) :
  finite x -> finite k -> PrimFloat.is_nan (PrimFloat.mul x k) = false.
Proof.
  rewrite !finite_spec, is_number_spec, mul_spec. unfold SF64mul.
  destruct (Prim2SF x) as [sx|sx| |sx mx ex],
           (Prim2SF k) as [sk|sk| |sk mk ek];
    cbn [sf_finite SFmul]; try tauto; intros _ _; try discriminate.
  apply binary_round_aux_num. lia.
Qed.

(** ** Basic facts on the Python primitives *)

Lemma In_range (lo hi x : Z) : In x (range lo hi) <-> lo <= x < hi.
Proof.
  unfold range. rewrite in_map_iff. split.
  - intros (k & <- & Hk). apply in_seq in Hk. lia.
  - intros Hx. exists (Z.to_nat (x - lo)). split; [lia|].
    apply in_seq. lia.
Qed.

Lemma range_empty (lo hi : Z) : hi <= lo -> range lo hi = [].
Proof.
  intros H. unfold range. replace (Z.to_nat (hi - lo)) with 0%nat by lia.
  reflexivity.
Qed.

Lemma range_cons (lo hi : Z) : lo < hi -> range lo hi = lo :: range (lo + 1) hi.
Proof.
  intros H. unfold range.
  replace (Z.to_nat (hi - lo)) with (S (Z.to_nat (hi - (lo + 1)))) by lia.
  cbn [seq map]. f_equal; [lia|].
  rewrite <- seq_shift, map_map. apply map_ext. intros k. lia.
Qed.

Lemma length_range (lo hi : Z) : length (range lo hi) = Z.to_nat (hi - lo).
Proof. unfold range. now rewrite length_map, length_seq. Qed.

Lemma range_app (lo mid hi : Z) :
  lo <= mid <= hi -> range lo hi = range lo mid ++ range mid hi.
Proof.
  intros H. remember (Z.to_nat (mid - lo)) as n eqn:Hn.
  revert lo H Hn. induction n as [|n IH]; intros lo H Hn.
  - assert (lo = mid) by lia. subst lo.
    now rewrite (range_empty mid mid) by lia.
  - rewrite (range_cons lo hi), (range_cons lo mid) by lia.
    cbn [app]. f_equal. apply IH; lia.
Qed.

Lemma NoDup_range (lo hi : Z) : NoDup (range lo hi).
Proof.
  unfold range. apply NoDup_map_NoDup_ForallPairs; [|apply seq_NoDup].
  intros x y _ _ Hxy. lia.
Qed.


Lemma truediv_ok (t : number) (n : Z) :
  n <> 0 -> int_too_large n = false -> truediv t n = Ok (mean_value t n).
Proof.
  intros Hn Hsmall. unfold truediv, mean_value. rewrite Hsmall.
  destruct (Z.eqb_spec n 0); [contradiction|]. now destruct t.
Qed.

Lemma truediv_int_zero (n : Z) :
  n <> 0 -> truediv IntZero n = Ok (mean_value IntZero n).
Proof.
  intros Hn. unfold truediv, mean_value.
  destruct (Z.eqb_spec n 0); [contradiction|reflexivity].
Qed.

Lemma small_not_too_large (n : Z) :
  - 2 ^ 63 <= n <= 2 ^ 63 -> int_too_large n = false.
Proof.
  intros Hn. unfold int_too_large. apply Z.leb_gt.
  assert (H : 2 ^ 63 < 2 ^ 1024 - 2 ^ 970) by (vm_compute; reflexivity).
  lia.
Qed.

(** A slice that ends before it starts is empty; so is a slice of a list of
    at most 7 entries taken from [s >= 0] to [s + h] with [h <= -7]. *)
Lemma slice_backwards {A : Type} (l : list A) (s h : Z) :
  0 <= s -> h <= - 7 -> Z.of_nat (length l) <= 7 -> slice l s (s + h) = [].
Proof.
  intros Hs Hh Hlen. unfold slice, clamp.
  destruct (Z.ltb_spec s 0); [lia|].
  replace (Z.to_nat _) with 0%nat; [reflexivity|].
  destruct (Z.ltb_spec (s + h) 0); lia.
Qed.
Lemma skipn_nth_cons {A : Type} (d : A) (l : list A) (a : nat) :
  (a < length l)%nat -> skipn a l = nth a l d :: skipn (S a) l.
Proof.
  revert a. induction l as [|x l IH]; intros a Ha; cbn in Ha; [lia|].
  destruct a as [|a]; [reflexivity|].
  cbn [skipn nth]. apply IH. lia.
Qed.

Lemma firstn_skipn_nth {A : Type} (d : A) (l : list A) (n a : nat) :
  (a + n <= length l)%nat ->
  firstn n (skipn a l) = map (fun k => nth (a + k) l d) (seq 0 n).
Proof.
  revert a. induction n as [|n IH]; intros a Ha; [reflexivity|].
  rewrite (skipn_nth_cons d) by lia. cbn [firstn seq map].
  rewrite Nat.add_0_r. f_equal.
  rewrite IH by lia. rewrite <- seq_shift, map_map.
  apply map_ext. intros k. f_equal. lia.
Qed.

Lemma slice_inside (l : list float) (s e : Z) :
  0 <= s <= e -> e <= Z.of_nat (length l) ->
  slice l s e = map (price_at l) (range s e).
Proof.
  intros Hs He. unfold slice, clamp.
  destruct (Z.ltb_spec s 0); [lia|]. destruct (Z.ltb_spec e 0); [lia|].
  rewrite !Z.min_l by lia.
  rewrite (firstn_skipn_nth PrimFloat.zero) by lia.
  unfold range. rewrite map_map. apply map_ext. intros k.
  unfold price_at. f_equal. lia.
Qed.

Lemma night_firstn (prices : list float) :
  slice prices 0 NIGHT_HOURS = firstn 7 prices.
Proof.
  unfold slice, clamp, NIGHT_HOURS. cbn [Z.ltb Z.compare].
  rewrite (Z.min_l 0), Z.sub_0_r by lia. cbn [Z.to_nat skipn].
  destruct (Z.le_gt_cases 7 (Z.of_nat (length prices))) as [Hlen|Hlen].
  - now rewrite Z.min_l by lia.
  - rewrite Z.min_r by lia. rewrite Nat2Z.id.
    rewrite firstn_all. symmetry. apply firstn_all2. lia.
Qed.

Lemma night_length_any (prices : list float) :
  Z.of_nat (length (slice prices 0 NIGHT_HOURS))
  = Z.min NIGHT_HOURS (Z.of_nat (length prices)).
Proof. rewrite night_firstn, length_firstn. unfold NIGHT_HOURS. lia. Qed.


(** Every division of the optimizer is defined: the divisor is not 0, and a
    divisor too large for a double only meets empty slices. *)
Lemma night_truediv (prices : list float) (h s : Z) :
  h <> 0 -> h <= NIGHT_HOURS -> 0 <= s ->
  truediv (sum (slice (slice prices 0 NIGHT_HOURS) s (s + h))) h
  = Ok (mean_value (sum (slice (slice prices 0 NIGHT_HOURS) s (s + h))) h).
Proof.
  intros Hnz Hle Hs. unfold NIGHT_HOURS in Hle.
  destruct (Z.le_gt_cases h (- 7)) as [Hneg|Hpos].
  - rewrite slice_backwards; try assumption.
    + now apply truediv_int_zero.
    + rewrite night_length_any. unfold NIGHT_HOURS. lia.
  - apply truediv_ok; [assumption|]. apply small_not_too_large.
    assert (0 < 2 ^ 63) by (vm_compute; reflexivity). lia.
Qed.

(** ** The loops as one fold over the candidates *)

Section Loops.

Variable night : list float.
Variable h : Z.

Lemma single_body_consider (s : Z) (st : best) :
  truediv (sum (slice night s (s + h))) h
    = Ok (mean_value (sum (slice night s (s + h))) h) ->
  single_body night h s st = Ok (consider night h st [(s, s + h)]).
Proof.
  intros Hdiv. unfold single_body, consider, mean_of.
  cbn [window_total fold_left fst snd].
  rewrite Hdiv. cbn [bind]. now destruct (PrimFloat.ltb _ _).
Qed.

Lemma single_loop (xs : list Z) (st : best) :
  (forall s, In s xs ->
     truediv (sum (slice night s (s + h))) h
     = Ok (mean_value (sum (slice night s (s + h))) h)) ->
  for_each xs (single_body night h) st
  = Ok (fold_left (consider night h) (map (fun s => [(s, s + h)]) xs) st).
Proof.
  revert st. induction xs as [|s xs IH]; intros st Hdiv; [reflexivity|].
  cbn [for_each map fold_left].
  rewrite single_body_consider by (apply Hdiv; now left). cbn [bind].
  apply IH. intros s' Hs'. apply Hdiv. now right.
Qed.

Hypothesis h_divides : forall t, truediv t h = Ok (mean_value t h).

Lemma split_body_consider (w1 s1 s2 : Z) (st : best) :
  split_body night h (h - w1) s1 (s1 + w1) (slice night s1 (s1 + w1)) s2 st
  = Ok (consider night h st [(s1, s1 + w1); (s2, s2 + (h - w1))]).
Proof.
  unfold split_body, consider, mean_of. cbn [window_total fold_left fst snd].
  rewrite h_divides. cbn [bind]. now destruct (PrimFloat.ltb _ _).
Qed.

Lemma inner_loop (w1 s1 : Z) (xs : list Z) (st : best) :
  for_each xs
    (split_body night h (h - w1) s1 (s1 + w1) (slice night s1 (s1 + w1))) st
  = Ok (fold_left (consider night h)
          (map (fun s2 => [(s1, s1 + w1); (s2, s2 + (h - w1))]) xs) st).
Proof.
  revert st. induction xs as [|s2 xs IH]; intros st; [reflexivity|].
  cbn [for_each map fold_left]. rewrite split_body_consider. cbn [bind].
  apply IH.
Qed.

Lemma middle_loop (w1 : Z) (xs : list Z) (st : best) :
  for_each xs
    (fun start1 st =>
       for_each (range (start1 + w1) (NIGHT_HOURS - (h - w1) + 1))
         (split_body night h (h - w1) start1 (start1 + w1)
            (slice night start1 (start1 + w1))) st) st
  = Ok (fold_left (consider night h)
          (flat_map (split_candidates_at h w1) xs) st).
Proof.
  revert st. induction xs as [|s1 xs IH]; intros st; [reflexivity|].
  cbn [for_each flat_map]. rewrite inner_loop. cbn [bind].
  rewrite fold_left_app. apply IH.
Qed.

Lemma outer_loop (xs : list Z) (st : best) :
  for_each xs
    (fun window1_size st =>
       for_each (range 0 (NIGHT_HOURS - window1_size + 1))
         (fun start1 st =>
            for_each
              (range (start1 + window1_size)
                     (NIGHT_HOURS - (h - window1_size) + 1))
              (split_body night h (h - window1_size) start1
                 (start1 + window1_size)
                 (slice night start1 (start1 + window1_size))) st) st) st
  = Ok (fold_left (consider night h)
          (flat_map (split_candidates_of h) xs) st).
Proof.
  revert st. induction xs as [|w1 xs IH]; intros st; [reflexivity|].
  cbn [for_each flat_map]. rewrite middle_loop. cbn [bind].
  rewrite fold_left_app. apply IH.
Qed.

End Loops.

Lemma single_phase_fold (prices : list float) (h : Z) (st : best) :
  h <> 0 -> h <= NIGHT_HOURS ->
  single_phase (slice prices 0 NIGHT_HOURS) h st
  = Ok (fold_left (consider (slice prices 0 NIGHT_HOURS) h)
          (single_candidates h) st).
Proof.
  intros Hnz Hle. apply single_loop. intros s Hs. apply In_range in Hs.
  apply night_truediv; (assumption || lia).
Qed.

Lemma split_phase_fold (night : list float) (h : Z) (st : best) :
  h <> 0 -> h <= NIGHT_HOURS ->
  split_phase night h st
  = Ok (fold_left (consider night h) (split_candidates h) st).
Proof.
  intros Hnz Hle. unfold split_phase, split_candidates.
  destruct (Z.le_gt_cases h 1) as [Hsmall|Hbig].
  - now rewrite range_empty by lia.
  - apply outer_loop. intros t. apply truediv_ok; [assumption|].
    apply small_not_too_large. unfold NIGHT_HOURS in Hle.
    assert (0 < 2 ^ 63) by (vm_compute; reflexivity). lia.
Qed.

Lemma find_optimal_fold (prices : list float) (h : Z) :
  h <> 0 -> h <= NIGHT_HOURS ->
  find_optimal_charging_windows prices h
  = Ok (let st := fold_left (consider (slice prices 0 NIGHT_HOURS) h)
                    (candidates h) (mkBest PrimFloat.infinity []) in
        (best_windows st, min_mean st)).
Proof.
  intros Hnz Hle. unfold find_optimal_charging_windows.
  destruct (Z.ltb_spec NIGHT_HOURS h); [lia|].
  cbv zeta. rewrite single_phase_fold by assumption. cbn [bind].
  rewrite split_phase_fold by assumption. cbn [bind].
  unfold candidates. now rewrite fold_left_app.
Qed.

(** ** The fold keeps the first minimum *)

Section FirstMin.

Variable night : list float.
Variable h : Z.

Let cost := mean_of night h.

(** Either no candidate had a mean below the running minimum it met, and
    the initial state is returned; or the result is the first candidate
    with the least mean. *)
Lemma fold_consider_first_min (l : list (list window)) :
  let st := fold_left (consider night h) l (mkBest PrimFloat.infinity []) in
  (st = mkBest PrimFloat.infinity [] /\
   forall c, In c l -> PrimFloat.ltb (cost c) PrimFloat.infinity = false) \/
  (exists before c after,
     l = before ++ c :: after /\
     st = mkBest (cost c) c /\
     PrimFloat.ltb (cost c) PrimFloat.infinity = true /\
     (forall c', In c' before -> PrimFloat.leb (cost c') (cost c) = false) /\
     (forall c', In c' after -> PrimFloat.ltb (cost c') (cost c) = false)).
Proof.
  induction l as [|x l IH] using rev_ind; cbv zeta.
  - left. split; [reflexivity|intros c []].
  - rewrite fold_left_app. cbn [fold_left]. cbv zeta in IH.
    destruct IH as [[Hst Hnone]|(before & c & after & Hl & Hst & Hfin & Hb & Ha)];
      rewrite Hst; unfold consider; cbn [min_mean]; fold cost.
    + destruct (PrimFloat.ltb (cost x) PrimFloat.infinity) eqn:Hx.
      * right. exists l, x, []. repeat split; try assumption.
        -- intros c' Hin. specialize (Hnone c' Hin).
           destruct (PrimFloat.leb (cost c') (cost x)) eqn:Hle;
             [|reflexivity].
           rewrite (leb_ltb_trans _ _ _ Hle Hx) in Hnone. discriminate.
        -- intros c' [].
      * left. split; [reflexivity|].
        intros c' Hin. apply in_app_or in Hin.
        destruct Hin as [Hin|[<-|[]]]; [now apply Hnone|exact Hx].
    + destruct (PrimFloat.ltb (cost x) (cost c)) eqn:Hx.
      * right. exists l, x, []. repeat split.
        -- exact (ltb_trans _ _ _ Hx Hfin).
        -- intros c' Hin. rewrite Hl in Hin.
           destruct (PrimFloat.leb (cost c') (cost x)) eqn:Hle;
             [|reflexivity].
           pose proof (leb_ltb_trans _ _ _ Hle Hx) as Hlt.
           apply in_app_or in Hin. destruct Hin as [Hin|[<-|Hin]].
           ++ specialize (Hb c' Hin). rewrite (ltb_leb _ _ Hlt) in Hb.
              discriminate Hb.
           ++ now rewrite ltb_irrefl in Hlt.
           ++ specialize (Ha c' Hin). congruence.
        -- intros c' [].
      * right. exists before, c, (after ++ [x]). repeat split; try assumption.
        -- rewrite Hl. now rewrite <- app_assoc.
        -- intros c' Hin. apply in_app_or in Hin.
           destruct Hin as [Hin|[<-|[]]]; [now apply Ha|exact Hx].
Qed.

End FirstMin.

(** ** Which candidates are enumerated *)

Lemma In_single_candidates (h : Z) (c : list window) :
  In c (single_candidates h) <->
  exists s, 0 <= s <= NIGHT_HOURS - h /\ c = [(s, s + h)].
Proof.
  unfold single_candidates. rewrite in_map_iff. split.
  - intros (s & <- & Hs). apply In_range in Hs. exists s. split; [lia|reflexivity].
  - intros (s & Hs & ->). exists s. split; [reflexivity|]. apply In_range. lia.
Qed.

Lemma In_split_candidates (h : Z) (c : list window) :
  In c (split_candidates h) <->
  exists w1 s1 s2,
    1 <= w1 < h /\ 0 <= s1 <= NIGHT_HOURS - w1 /\
    s1 + w1 <= s2 <= NIGHT_HOURS - (h - w1) /\
    c = [(s1, s1 + w1); (s2, s2 + (h - w1))].
Proof.
  unfold split_candidates, split_candidates_of, split_candidates_at.
  rewrite in_flat_map. split.
  - intros (w1 & Hw1 & Hc). apply in_flat_map in Hc.
    destruct Hc as (s1 & Hs1 & Hc). apply in_map_iff in Hc.
    destruct Hc as (s2 & <- & Hs2).
    apply In_range in Hw1, Hs1, Hs2.
    exists w1, s1, s2. repeat split; lia.
  - intros (w1 & s1 & s2 & Hw1 & Hs1 & Hs2 & ->).
    exists w1. split; [apply In_range; lia|].
    apply in_flat_map. exists s1. split; [apply In_range; lia|].
    apply in_map_iff. exists s2. split; [reflexivity|apply In_range; lia].
Qed.

Lemma candidates_nonempty (h : Z) : h <= NIGHT_HOURS -> candidates h <> [].
Proof.
  intros Hle Hnil.
  assert (Hin : In [(0, 0 + h)] (candidates h)).
  { unfold candidates. apply in_or_app. left.
    apply In_single_candidates. exists 0. split; [lia|reflexivity]. }
  rewrite Hnil in Hin. destruct Hin.
Qed.

Lemma key_ltb_lt (a b : Z * Z * Z * Z) : key_ltb a b = true -> key_lt a b.
Proof.
  destruct a as [[[a1 a2] a3] a4], b as [[[b1 b2] b3] b4].
  unfold key_ltb, key_lt.
  destruct (Z.ltb_spec a1 b1), (Z.eqb_spec a1 b1),
           (Z.ltb_spec a2 b2), (Z.eqb_spec a2 b2),
           (Z.ltb_spec a3 b3), (Z.eqb_spec a3 b3),
           (Z.ltb_spec a4 b4); cbn; intros Htrue; try discriminate Htrue; lia.
Qed.

Lemma all_pairs_sorted (l : list (list window)) :
  all_pairs_ltb l = true -> StronglySorted enum_before l.
Proof.
  induction l as [|c l IH]; intros H; [constructor|].
  cbn [all_pairs_ltb] in H. apply andb_true_iff in H. destruct H as [Hc Hl].
  constructor; [now apply IH|].
  apply Forall_forall. intros c' Hin.
  rewrite forallb_forall in Hc. apply key_ltb_lt. now apply Hc.
Qed.

Lemma hours_cases (h : Z) :
  1 <= h <= NIGHT_HOURS ->
  h = 1 \/ h = 2 \/ h = 3 \/ h = 4 \/ h = 5 \/ h = 6 \/ h = 7.
Proof. unfold NIGHT_HOURS. lia. Qed.

Lemma candidates_sorted (h : Z) :
  1 <= h <= NIGHT_HOURS -> StronglySorted enum_before (candidates h).
Proof.
  intros Hh. apply all_pairs_sorted.
  destruct (hours_cases h Hh) as [->|[->|[->|[->|[->|[->| ->]]]]]];
    vm_compute; reflexivity.
Qed.

Lemma sorted_split {A : Type} (R : A -> A -> Prop) (l1 l2 : list A) (x : A) :
  StronglySorted R (l1 ++ x :: l2) ->
  (forall y, In y l1 -> R y x) /\ (forall y, In y l2 -> R x y).
Proof.
  induction l1 as [|a l1 IH]; cbn [app]; intros H;
    apply StronglySorted_inv in H; destruct H as [Hs Hf];
    rewrite Forall_forall in Hf.
  - split; [intros ? []|exact Hf].
  - destruct (IH Hs) as [Hb Ha]. split; [|exact Ha].
    intros y [<-|Hy]; [|now apply Hb].
    apply Hf. apply in_or_app. right. now left.
Qed.

Lemma candidate_well_formed (h : Z) (c : list window) :
  1 <= h <= NIGHT_HOURS -> In c (candidates h) -> well_formed_windows h c.
Proof.
  intros Hh Hin. unfold candidates in Hin. apply in_app_or in Hin.
  destruct Hin as [Hin|Hin].
  - apply In_single_candidates in Hin. destruct Hin as (s & Hs & ->).
    unfold well_formed_windows, window_in_night, window_before, covered_hours.
    cbn [length flat_map total_hours fold_right fst snd]. rewrite app_nil_r.
    split; [lia|].
    split; [repeat constructor; cbn [fst snd]; lia|].
    split; [repeat constructor|].
    split; [repeat constructor|].
    split; [lia|].
    split; [apply NoDup_range|].
    split; [rewrite length_range; lia|].
    intros x Hx. apply In_range in Hx. lia.
  - apply In_split_candidates in Hin.
    destruct Hin as (w1 & s1 & s2 & Hw1 & Hs1 & Hs2 & ->).
    unfold well_formed_windows, window_in_night, window_before, covered_hours.
    cbn [length flat_map total_hours fold_right fst snd]. rewrite app_nil_r.
    split; [lia|].
    split; [repeat constructor; cbn [fst snd]; lia|].
    split; [repeat constructor; cbn [fst snd]; lia|].
    split; [repeat constructor; cbn [fst snd]; lia|].
    split; [lia|].
    split.
    { apply NoDup_app; try apply NoDup_range.
      intros x Hx Hx'. apply In_range in Hx, Hx'. lia. }
    split; [rewrite length_app, !length_range; lia|].
    intros x Hx. apply in_app_or in Hx.
    destruct Hx as [Hx|Hx]; apply In_range in Hx; lia.
Qed.

Lemma candidate_shape (h : Z) (c : list window) :
  In c (candidates h) ->
  (exists w, c = [w]) \/ (exists w w', c = [w; w']).
Proof.
  intros Hin. unfold candidates in Hin. apply in_app_or in Hin.
  destruct Hin as [Hin|Hin].
  - apply In_single_candidates in Hin. destruct Hin as (s & _ & ->). eauto.
  - apply In_split_candidates in Hin.
    destruct Hin as (w1 & s1 & s2 & _ & _ & _ & ->). eauto.
Qed.


(** ** Slices of the night prefix *)

Lemma night_prefix (prices : list float) :
  NIGHT_HOURS <= Z.of_nat (length prices) ->
  slice prices 0 NIGHT_HOURS = firstn 7 prices.
Proof.
  intros Hlen. unfold slice, clamp, NIGHT_HOURS in *. cbn [Z.ltb Z.compare].
  rewrite Z.min_l by lia. rewrite Z.min_l by lia. reflexivity.
Qed.

Lemma night_length (prices : list float) :
  NIGHT_HOURS <= Z.of_nat (length prices) ->
  Z.of_nat (length (slice prices 0 NIGHT_HOURS)) = NIGHT_HOURS.
Proof.
  intros Hlen. rewrite night_prefix by assumption.
  rewrite length_firstn. unfold NIGHT_HOURS in *. lia.
Qed.

Lemma night_price_at (prices : list float) (i : Z) :
  NIGHT_HOURS <= Z.of_nat (length prices) -> 0 <= i < NIGHT_HOURS ->
  price_at (slice prices 0 NIGHT_HOURS) i = price_at prices i.
Proof.
  intros Hlen Hi. rewrite night_prefix by assumption. unfold price_at.
  rewrite <- (firstn_skipn 7 prices) at 2.
  rewrite app_nth1; [reflexivity|].
  rewrite length_firstn. unfold NIGHT_HOURS in *. lia.
Qed.

Lemma night_block_sum (prices : list float) (s w : Z) :
  NIGHT_HOURS <= Z.of_nat (length prices) ->
  0 <= s -> 0 <= w -> s + w <= NIGHT_HOURS ->
  sum (slice (slice prices 0 NIGHT_HOURS) s (s + w)) = block_sum prices s w.
Proof.
  intros Hlen Hs Hw Hsw. unfold block_sum.
  rewrite slice_inside by (rewrite ?night_length by assumption; lia).
  f_equal. apply map_ext_in. intros i Hi. apply In_range in Hi.
  apply night_price_at; [assumption|lia].
Qed.


Lemma single_candidate_mean (prices : list float) (h s : Z) :
  NIGHT_HOURS <= Z.of_nat (length prices) ->
  0 <= h -> 0 <= s -> s + h <= NIGHT_HOURS ->
  mean_of (slice prices 0 NIGHT_HOURS) h [(s, s + h)] = single_mean prices h s.
Proof.
  intros Hlen Hh Hs Hsh. unfold mean_of, single_mean.
  cbn [window_total fold_left fst snd].
  now rewrite night_block_sum.
Qed.

Lemma split_candidate_mean (prices : list float) (h s1 w1 s2 w2 : Z) :
  NIGHT_HOURS <= Z.of_nat (length prices) ->
  0 <= w1 -> 0 <= w2 -> 0 <= s1 -> s1 + w1 <= NIGHT_HOURS ->
  0 <= s2 -> s2 + w2 <= NIGHT_HOURS ->
  mean_of (slice prices 0 NIGHT_HOURS) h [(s1, s1 + w1); (s2, s2 + w2)]
  = split_mean prices h s1 w1 s2 w2.
Proof.
  intros Hlen Hw1 Hw2 Hs1 He1 Hs2 He2. unfold mean_of, split_mean.
  cbn [window_total fold_left fst snd].
  now rewrite !night_block_sum.
Qed.

Lemma In_candidates_single (h s : Z) :
  0 <= s -> s + h <= NIGHT_HOURS -> In [(s, s + h)] (candidates h).
Proof.
  intros Hs Hsh. unfold candidates. apply in_or_app. left.
  apply In_single_candidates. exists s. split; [lia|reflexivity].
Qed.

Lemma In_candidates_split (h s1 w1 s2 w2 : Z) :
  1 <= w1 -> 1 <= w2 -> w1 + w2 = h ->
  0 <= s1 -> s1 + w1 <= s2 -> s2 + w2 <= NIGHT_HOURS ->
  In [(s1, s1 + w1); (s2, s2 + w2)] (candidates h).
Proof.
  intros Hw1 Hw2 Hsum Hs1 Hs12 He2.
  unfold candidates. apply in_or_app. right.
  apply In_split_candidates. exists w1, s1, s2.
  repeat split; try lia. repeat f_equal. lia.
Qed.

(** ** Non-negative prices give non-negative means *)

Lemma slice_Forall {A : Type} (P : A -> Prop) (l : list A) (lo hi : Z) :
  Forall P l -> Forall P (slice l lo hi).
Proof.
  intros Hl. unfold slice.
  assert (Hskip : forall n (l' : list A), Forall P l' -> Forall P (skipn n l')).
  { induction n as [|n IH]; intros l' Hl'; [exact Hl'|].
    destruct Hl' as [|x l' Hx Hl']; [constructor|]. cbn. now apply IH. }
  assert (Hfirst : forall n (l' : list A), Forall P l' -> Forall P (firstn n l')).
  { induction n as [|n IH]; intros l' Hl'; [constructor|].
    destruct Hl' as [|x l' Hx Hl']; [constructor|]. cbn. constructor; auto. }
  apply Hfirst, Hskip, Hl.
Qed.

Lemma candidate_mean_non_negative (night : list float) (h : Z)
  (c : list window) :
  1 <= h <= NIGHT_HOURS -> Forall non_negative night ->
  In c (candidates h) -> non_negative (mean_of night h c).
Proof.
  intros Hh Hnight Hin. unfold mean_of.
  apply mean_value_non_negative; [assumption|].
  destruct (candidate_shape h c Hin) as [(w & ->)|(w & w' & ->)];
    cbn [window_total fold_left].
  - apply sum_non_negative. now apply slice_Forall.
  - apply plus_non_negative; apply sum_non_negative; now apply slice_Forall.
Qed.

(** ** The result of the optimizer *)

Lemma optimal_result (prices : list float) (h : Z) :
  h <> 0 -> h <= NIGHT_HOURS ->
  (find_optimal_charging_windows prices h = Ok ([], PrimFloat.infinity) /\
   forall c, In c (candidates h) ->
     PrimFloat.ltb (mean_of (slice prices 0 NIGHT_HOURS) h c)
       PrimFloat.infinity = false) \/
  (exists before c after,
     candidates h = before ++ c :: after /\
     find_optimal_charging_windows prices h
       = Ok (c, mean_of (slice prices 0 NIGHT_HOURS) h c) /\
     PrimFloat.ltb (mean_of (slice prices 0 NIGHT_HOURS) h c)
       PrimFloat.infinity = true /\
     (forall c', In c' before ->
        PrimFloat.leb (mean_of (slice prices 0 NIGHT_HOURS) h c')
          (mean_of (slice prices 0 NIGHT_HOURS) h c) = false) /\
     (forall c', In c' after ->
        PrimFloat.ltb (mean_of (slice prices 0 NIGHT_HOURS) h c')
          (mean_of (slice prices 0 NIGHT_HOURS) h c) = false)).
Proof.
  intros Hnz Hle. rewrite find_optimal_fold by assumption.
  pose proof (fold_consider_first_min (slice prices 0 NIGHT_HOURS) h
                (candidates h)) as H.
  cbv zeta in H |- *.
  destruct H as [[Hst Hnone]|(before & c & after & Hl & Hst & Hfin & Hb & Ha)];
    rewrite Hst; cbn [best_windows min_mean].
  - left. split; [reflexivity|exact Hnone].
  - right. exists before, c, after. repeat split; assumption.
Qed.

Lemma leb_false_ltb_false (x y : float) :
  PrimFloat.leb x y = false -> PrimFloat.ltb x y = false.
Proof.
  intros H. destruct (PrimFloat.ltb x y) eqn:Hlt; [|reflexivity].
  rewrite (ltb_leb _ _ Hlt) in H. discriminate H.
Qed.

(** What every successful call returns: a mean that is a number and that no
    candidate undercuts, with either no window and the mean +inf, or a
    candidate and its mean. *)
Lemma optimal_returns (prices : list float) (h : Z) :
  h <> 0 -> h <= NIGHT_HOURS ->
  exists ws m,
    find_optimal_charging_windows prices h = Ok (ws, m) /\
    PrimFloat.is_nan m = false /\
    (forall c, In c (candidates h) ->
       PrimFloat.ltb (mean_of (slice prices 0 NIGHT_HOURS) h c) m = false) /\
    ((ws = [] /\ m = PrimFloat.infinity) \/
     (In ws (candidates h) /\
      m = mean_of (slice prices 0 NIGHT_HOURS) h ws /\
      PrimFloat.ltb m PrimFloat.infinity = true)).
Proof.
  intros Hnz Hle.
  destruct (optimal_result prices h Hnz Hle)
    as [[Hres Hnone]|(before & c & after & Hl & Hres & Hfin & Hb & Ha)].
  - exists [], PrimFloat.infinity. split; [exact Hres|].
    split; [reflexivity|]. split; [exact Hnone|]. now left.
  - eexists c, _. split; [exact Hres|].
    split; [now apply (ltb_number _ _ Hfin)|].
    split.
    + intros c' Hin. rewrite Hl in Hin. apply in_app_or in Hin.
      destruct Hin as [Hin|[<-|Hin]].
      * apply leb_false_ltb_false. now apply Hb.
      * apply ltb_irrefl.
      * now apply Ha.
    + right. split; [|split; [reflexivity|exact Hfin]].
      rewrite Hl. apply in_or_app. right. now left.
Qed.

(** With non-negative prices every candidate mean is a number, so the
    returned mean is at most each of them, and it is the mean of one. *)
Lemma optimal_returns_non_negative (prices : list float) (h : Z)
  (ws : list window) (m : float) :
  1 <= h <= NIGHT_HOURS -> Forall non_negative prices ->
  find_optimal_charging_windows prices h = Ok (ws, m) ->
  (forall c, In c (candidates h) ->
     PrimFloat.leb m (mean_of (slice prices 0 NIGHT_HOURS) h c) = true) /\
  (exists c, In c (candidates h) /\
     m = mean_of (slice prices 0 NIGHT_HOURS) h c).
Proof.
  intros Hh Hprices Hres.
  assert (Hnz : h <> 0) by lia. assert (Hle : h <= NIGHT_HOURS) by lia.
  destruct (optimal_returns prices h Hnz Hle)
    as (ws' & m' & Hres' & Hnum & Hmin & Hshape).
  rewrite Hres' in Hres. injection Hres as -> ->.
  assert (Hnight : Forall non_negative (slice prices 0 NIGHT_HOURS))
    by now apply slice_Forall.
  assert (Hmeans : forall c, In c (candidates h) ->
            PrimFloat.is_nan (mean_of (slice prices 0 NIGHT_HOURS) h c) = false).
  { intros c Hin. apply non_negative_number.
    now apply candidate_mean_non_negative. }
  split.
  - intros c Hin. apply not_ltb_leb; auto.
  - destruct Hshape as [[-> ->]|(Hin & -> & _)]; [|eauto].
    exists [(0, 0 + h)].
    assert (Hin : In [(0, 0 + h)] (candidates h))
      by (apply In_candidates_single; lia).
    split; [exact Hin|]. symmetry. apply not_below_infinity; auto.
Qed.

(** ** Addition of doubles commutes *)

Lemma SFadd_comm (prec emax : Z) (x y : spec_float) :
  SFadd prec emax x y = SFadd prec emax y x.
Proof.
  destruct x as [[|]|[|]| |sx mx ex], y as [[|]|[|]| |sy my ey];
    cbn [SFadd]; try reflexivity.
  now rewrite (Z.min_comm ey ex), Z.add_comm.
Qed.

Lemma add_comm (x y : float) : PrimFloat.add x y = PrimFloat.add y x.
Proof. apply Prim2SF_inj. rewrite !add_spec. apply SFadd_comm. Qed.

Lemma plus_comm (a b : number) : plus a b = plus b a.
Proof.
  destruct a as [|x], b as [|y]; cbn [plus]; try reflexivity;
    now rewrite add_comm.
Qed.

Lemma split_mean_swap (prices : list float) (h s1 w1 s2 w2 : Z) :
  split_mean prices h s1 w1 s2 w2 = split_mean prices h s2 w2 s1 w1.
Proof. unfold split_mean. now rewrite plus_comm. Qed.

Lemma leb_infinity (x : float) :
  PrimFloat.is_nan x = false -> PrimFloat.leb x PrimFloat.infinity = true.
Proof.
  intros Hnum. apply is_number_spec in Hnum. rewrite FloatAxioms.leb_spec.
  change (Prim2SF PrimFloat.infinity) with (S754_infinity false).
  unfold sf_num in Hnum.
  destruct (Prim2SF x) as [[|]|[|]| |[|] m e]; cbn; congruence.
Qed.

(** Either some element of a list has a value that is a number, or every
    value is NaN. *)
Lemma some_number_or_none {A : Type} (f : A -> float) (l : list A) :
  (exists x, In x l /\ PrimFloat.is_nan (f x) = false) \/
  (forall x, In x l -> PrimFloat.is_nan (f x) = true).
Proof.
  induction l as [|a l [(x & Hin & Hx)|Hall]].
  - right. intros x [].
  - left. exists x. split; [now right|exact Hx].
  - destruct (PrimFloat.is_nan (f a)) eqn:Ha.
    + right. intros x [<-|Hin]; [exact Ha|now apply Hall].
    + left. exists a. split; [now left|exact Ha].
Qed.

(** ** The single-block search of src/ESS.py *)

Section Cheapest.

Variable night : list float.
Variable h : Z.
Hypothesis h_divides : forall t, truediv t h = Ok (mean_value t h).

Lemma cheapest_body_same (i : Z) (c : Z * float) (st : best) :
  same_choice h c st ->
  exists c',
    cheapest_body night h i c = Ok c' /\
    same_choice h c' (consider night h st [(i, i + h)]).
Proof.
  destruct c as [index mm]. intros [Hmin Hw]. cbn [fst snd] in Hmin, Hw.
  unfold cheapest_body, consider, mean_of.
  cbn [window_total fold_left fst snd].
  rewrite h_divides. cbn [bind]. rewrite Hmin.
  destruct (PrimFloat.ltb _ mm); eexists; (split; [reflexivity|]);
    unfold same_choice; cbn [fst snd min_mean best_windows].
  - split; [reflexivity|now right].
  - split; assumption.
Qed.

Lemma cheapest_loop (xs : list Z) (c : Z * float) (st : best) :
  same_choice h c st ->
  exists c',
    for_each xs (cheapest_body night h) c = Ok c' /\
    same_choice h c'
      (fold_left (consider night h) (map (fun s => [(s, s + h)]) xs) st).
Proof.
  revert c st. induction xs as [|i xs IH]; intros c st Hsame.
  - exists c. split; [reflexivity|exact Hsame].
  - destruct (cheapest_body_same i c st Hsame) as (c1 & Hbody & Hsame1).
    cbn [for_each map fold_left]. rewrite Hbody. cbn [bind].
    now apply IH.
Qed.

End Cheapest.

Lemma small_divides (h : Z) (t : number) :
  h <> 0 -> - 2 ^ 63 <= h <= NIGHT_HOURS ->
  truediv t h = Ok (mean_value t h).
Proof.
  intros Hnz Hh. apply truediv_ok; [assumption|].
  apply small_not_too_large. unfold NIGHT_HOURS in Hh.
  assert (0 < 2 ^ 63) by (vm_compute; reflexivity). lia.
Qed.

Lemma cheapest_unfold (prices : list float) (h : Z) :
  h <= NIGHT_HOURS ->
  find_cheapest_night_charging prices h
  = for_each
      (range 0 (Z.of_nat (length (slice prices 0 NIGHT_HOURS)) - h + 1))
      (cheapest_body (slice prices 0 NIGHT_HOURS) h)
      (0, PrimFloat.infinity).
Proof.
  intros Hle. unfold find_cheapest_night_charging.
  destruct (Z.ltb_spec 7 h); [unfold NIGHT_HOURS in *; lia|reflexivity].
Qed.

(** The search of ESS.py and the first loop of the optimizer, run over the
    starts the former visits, end in related states. *)
Lemma cheapest_result (prices : list float) (h : Z) :
  1 <= h <= NIGHT_HOURS ->
  exists c,
    find_cheapest_night_charging prices h = Ok c /\
    same_choice h c
      (fold_left (consider (slice prices 0 NIGHT_HOURS) h)
         (map (fun s => [(s, s + h)])
            (range 0 (Z.of_nat (length (slice prices 0 NIGHT_HOURS)) - h + 1)))
         (mkBest PrimFloat.infinity [])).
Proof.
  intros Hh. rewrite cheapest_unfold by lia.
  apply cheapest_loop.
  - intros t. apply small_divides; [lia|].
    assert (0 < 2 ^ 63) by (vm_compute; reflexivity). lia.
  - split; [reflexivity|now left].
Qed.

(** With fewer prices than hours the loop of ESS.py has no iteration. *)
Lemma cheapest_short (prices : list float) (h : Z) :
  h <= NIGHT_HOURS -> Z.of_nat (length prices) < h ->
  find_cheapest_night_charging prices h = Ok (0, PrimFloat.infinity).
Proof.
  intros Hle Hshort. rewrite cheapest_unfold by assumption.
  rewrite night_length_any. now rewrite range_empty by lia.
Qed.

(** ** Means of the candidates in the vocabulary of the specification *)

Lemma candidate_mean_cases (prices : list float) (h : Z) (c : list window) :
  NIGHT_HOURS <= Z.of_nat (length prices) -> 1 <= h <= NIGHT_HOURS ->
  In c (candidates h) ->
  (exists s, 0 <= s /\ s + h <= NIGHT_HOURS /\ c = [(s, s + h)] /\
     mean_of (slice prices 0 NIGHT_HOURS) h c = single_mean prices h s) \/
  (exists s1 w1 s2 w2,
     disjoint_blocks h s1 w1 s2 w2 /\ s1 + w1 <= s2 /\
     c = [(s1, s1 + w1); (s2, s2 + w2)] /\
     mean_of (slice prices 0 NIGHT_HOURS) h c
     = split_mean prices h s1 w1 s2 w2).
Proof.
  intros Hlen Hh Hin. unfold candidates in Hin. apply in_app_or in Hin.
  destruct Hin as [Hin|Hin].
  - left. apply In_single_candidates in Hin. destruct Hin as (s & Hs & ->).
    exists s. repeat split; try lia.
    apply single_candidate_mean; (assumption || lia).
  - right. apply In_split_candidates in Hin.
    destruct Hin as (w1 & s1 & s2 & Hw1 & Hs1 & Hs2 & ->).
    exists s1, w1, s2, (h - w1).
    split; [unfold disjoint_blocks; lia|]. split; [lia|].
    split; [reflexivity|].
    apply split_candidate_mean; (assumption || lia).
Qed.

Lemma single_mean_candidate (prices : list float) (h s : Z) :
  NIGHT_HOURS <= Z.of_nat (length prices) -> 1 <= h <= NIGHT_HOURS ->
  0 <= s -> s + h <= NIGHT_HOURS ->
  exists c, In c (candidates h) /\
    mean_of (slice prices 0 NIGHT_HOURS) h c = single_mean prices h s.
Proof.
  intros Hlen Hh Hs Hsh. exists [(s, s + h)]. split.
  - now apply In_candidates_single.
  - apply single_candidate_mean; (assumption || lia).
Qed.

Lemma split_mean_candidate (prices : list float) (h s1 w1 s2 w2 : Z) :
  NIGHT_HOURS <= Z.of_nat (length prices) ->
  disjoint_blocks h s1 w1 s2 w2 ->
  exists c, In c (candidates h) /\
    mean_of (slice prices 0 NIGHT_HOURS) h c
    = split_mean prices h s1 w1 s2 w2.
Proof.
  intros Hlen (Hw1 & Hw2 & Hsum & Hs1 & He1 & Hs2 & He2 & [Hd|Hd]).
  - exists [(s1, s1 + w1); (s2, s2 + w2)]. split.
    + now apply In_candidates_split.
    + apply split_candidate_mean; (assumption || lia).
  - exists [(s2, s2 + w2); (s1, s1 + w1)]. split.
    + apply In_candidates_split; lia.
    + rewrite split_mean_swap.
      apply split_candidate_mean; (assumption || lia).
Qed.

(** The mean of a single block of finite prices is a number. *)
Lemma single_mean_number (prices : list float) (h s : Z) :
  NIGHT_HOURS <= Z.of_nat (length prices) -> 1 <= h <= NIGHT_HOURS ->
  0 <= s -> s + h <= NIGHT_HOURS -> Forall finite prices ->
  PrimFloat.is_nan (single_mean prices h s) = false.
Proof.
  intros Hlen Hh Hs Hsh Hfin.
  rewrite <- single_candidate_mean by (assumption || lia).
  unfold mean_of. cbn [window_total fold_left fst snd].
  apply block_mean_number; [assumption|].
  now apply slice_Forall, slice_Forall.
Qed.

(** ** The code on concrete inputs *)

Example sample_day_two_hours :
  find_optimal_charging_windows sample_day 2 = Ok ([(4, 6)], 5%float).
Proof. vm_compute. reflexivity. Qed.

Example sample_day_whole_night :
  find_optimal_charging_windows sample_day 7
  = Ok ([(0, 7)], 25.714285714285715%float).
Proof. vm_compute. reflexivity. Qed.

Example split_beats_single :
  find_optimal_charging_windows [5; 1; 9; 1; 9; 9; 9]%float 2
  = Ok ([(1, 2); (3, 4)], 1%float).
Proof. vm_compute. reflexivity. Qed.

Lemma truediv_zero (t : number) : truediv t 0 = Raise ZeroDivisionError.
Proof. now destruct t. Qed.

Example zero_hours_divides_by_zero (prices : list float) :
  find_optimal_charging_windows prices 0 = Raise ZeroDivisionError.
Proof.
  unfold find_optimal_charging_windows, single_phase.
  change (NIGHT_HOURS <? 0) with false. cbv iota zeta.
  rewrite (range_cons 0) by (unfold NIGHT_HOURS; lia).
  cbn [for_each]. unfold single_body at 1. now rewrite truediv_zero.
Qed.

Example short_series_is_not_rejected :
  find_optimal_charging_windows [40; 10]%float 3 = Ok ([(2, 5)], 0%float).
Proof. vm_compute. reflexivity. Qed.

Example cheapest_sample_day :
  find_cheapest_night_charging sample_day 2 = Ok (4, 5%float).
Proof. vm_compute. reflexivity. Qed.

(** Rounding decides between candidates whose exact means are equal: the
    two sums of the split are added in another order than the sum of the
    single block. *)
Example rounding_picks_the_split :
  find_optimal_charging_windows rounding_night 3
  = Ok ([(0, 1); (5, 7)], 79.593333333333334%float) /\
  find_cheapest_night_charging rounding_night 3
  = Ok (4, 79.593333333333348%float).
Proof. split; vm_compute; reflexivity. Qed.

Example rounded_mean :
  find_optimal_charging_windows [0.1; 0.2; 9; 9; 9; 9; 9]%float 2
  = Ok ([(0, 2)], 0.15000000000000002%float).
Proof. vm_compute. reflexivity. Qed.

(** Sums that overflow: no mean is below the initial +inf. *)
Example overflow_returns_no_window :
  find_optimal_charging_windows overflow_night 2
  = Ok ([], PrimFloat.infinity) /\
  find_cheapest_night_charging overflow_night 2 = Ok (0, PrimFloat.infinity).
Proof. split; vm_compute; reflexivity. Qed.

Example product_is_rounded :
  is_charging_profitable (mkConfig 1.25 2) 70.4 [88]%float = Ok true.
Proof. vm_compute. reflexivity. Qed.

(** ** The claims of the specification *)




(** C2, as the specification states it, fails: on the alternating night and
    3 hours the optimizer does not return windows covering the hours 0, 2
    and 4 with mean 10. *)
Lemma alternating_night_no_three_slots :
  ~ exists ws m,
      find_optimal_charging_windows alternating_night 3 = Ok (ws, m) /\
      covered_hours ws = [0; 2; 4] /\ m = 10%float.
Proof.
  intros (ws & m & Hres & Hcov & _).
  vm_compute in Hres. injection Hres as <- _.
  vm_compute in Hcov. discriminate Hcov.
Qed.

(** C2, amended. On the alternating night and 3 hours the optimizer returns
    the single contiguous window [0, 3) with mean 40: a schedule has at most
    two windows, so every candidate holds a 100-price hour, and no candidate,
    split or not, has a mean below 40. *)
Theorem alternating_night_single_block :
  exists m,
    find_optimal_charging_windows alternating_night 3 = Ok ([(0, 3)], m) /\
    m = 40%float /\
    Forall (fun c => PrimFloat.leb 40 (mean_of alternating_night 3 c) = true)
      (candidates 3).
Proof.
  exists 40%float. split; [|split].
  - vm_compute. reflexivity.
  - reflexivity.
  - apply Forall_forall. intros c Hin.
    assert (Hall : forallb
                     (fun c => PrimFloat.leb 40 (mean_of alternating_night 3 c))
                     (candidates 3) = true) by (vm_compute; reflexivity).
    rewrite forallb_forall in Hall. now apply Hall.
Qed.

(** C3 at a failing input. On seven prices of 2^1023 and 2 hours every sum
    overflows to +inf, no mean is below the initial +inf, and the optimizer
    returns no window at all: the covered hours are not chargeHours. *)
Theorem overflow_night_no_window :
  NIGHT_HOURS <= Z.of_nat (length overflow_night) /\
  Forall finite overflow_night /\
  find_optimal_charging_windows overflow_night 2
    = Ok ([], PrimFloat.infinity) /\
  total_hours [] <> 2 /\
  ~ well_formed_windows 2 [].
Proof.
  split; [vm_compute; discriminate|]. split.
  - unfold overflow_night. cbn [repeat].
    repeat constructor; vm_compute; reflexivity.
  - split; [vm_compute; reflexivity|]. split; [discriminate|].
    intros (_ & _ & _ & _ & Htotal & _). discriminate Htotal.
Qed.

(** C4 at a failing input. On seven prices of 2^1023 and 2 hours the first
    candidate of the enumeration, the block [0, 2), has the minimum mean
    +inf, and the optimizer returns the empty list, which is no candidate. *)
Theorem overflow_night_not_first_minimum :
  find_optimal_charging_windows overflow_night 2
    = Ok ([], PrimFloat.infinity) /\
  hd_error (candidates 2) = Some [(0, 2)] /\
  mean_of (slice overflow_night 0 NIGHT_HOURS) 2 [(0, 2)] = PrimFloat.infinity /\
  ~ In [] (candidates 2).
Proof.
  split; [vm_compute; reflexivity|]. split; [reflexivity|].
  split; [vm_compute; reflexivity|].
  intros Hin. apply candidate_shape in Hin.
  destruct Hin as [(w & Hw)|(w & w' & Hw)]; discriminate Hw.
Qed.

(** C5. For a non-empty daily series the profitability check returns, and
    its answer is true exactly when the double meanChargePrice *
    priceMultiplier is at most the mean of the whole series, its
    left-to-right sum divided by its length. *)
Theorem profitable_iff_below_daily_mean (config : Config) (m : float)
  (daily_prices : list float) :
  daily_prices <> [] ->
  Z.of_nat (length daily_prices) <= max_list_length ->
  exists b,
    is_charging_profitable config m daily_prices = Ok b /\
    (b = true <->
     PrimFloat.leb (PrimFloat.mul m (price_multiplier config))
       (series_mean daily_prices) = true).
Proof.
  intros Hne Hlen. unfold is_charging_profitable.
  rewrite truediv_ok.
  - cbn [bind]. eexists. split; [reflexivity|].
    destruct daily_prices as [|x l]; [congruence|].
    cbn [sum mean_value]. unfold series_mean. reflexivity.
  - destruct daily_prices; [congruence|cbn [length]; lia].
  - apply small_not_too_large. unfold max_list_length in Hlen.
    assert (0 < 2 ^ 63) by (vm_compute; reflexivity). lia.
Qed.

Lemma profitable_iff_below_daily_mean_witness :
  sample_day <> [] /\
  Z.of_nat (length sample_day) <= max_list_length /\
  exists b,
    is_charging_profitable (mkConfig 1 2) 5 sample_day = Ok b /\
    (b = true <->
     PrimFloat.leb (PrimFloat.mul 5 (price_multiplier (mkConfig 1 2)))
       (series_mean sample_day) = true).
Proof.
  assert (Hne : sample_day <> []) by discriminate.
  assert (Hlen : Z.of_nat (length sample_day) <= max_list_length)
    by (vm_compute; discriminate).
  split; [exact Hne|]. split; [exact Hlen|].
  exact (profitable_iff_below_daily_mean (mkConfig 1 2) 5 sample_day Hne Hlen).
Defined.

(** The baseline of C5 is the whole day, not the night prefix: the same
    charge price is profitable against the day and not against its first 7
    hours. *)
Lemma profitable_baseline_is_whole_day :
  is_charging_profitable (mkConfig 1 2) 30 sample_day = Ok true /\
  is_charging_profitable (mkConfig 1 2) 30 (slice sample_day 0 NIGHT_HOURS)
    = Ok false.
Proof. split; vm_compute; reflexivity. Qed.

(** C6. On the empty daily series the profitability check fails, whatever
    the charge price and the multiplier: the undefined average raises
    ZeroDivisionError, the exception behind the InvalidInput kind of the
    specification. *)
Theorem profitable_empty_fails (config : Config) (m : float) :
  is_charging_profitable config m [] = Raise ZeroDivisionError.
Proof. reflexivity. Qed.

(** C7. The optimizer raises ValueError (InvalidConfiguration) exactly when
    chargeHours > 7, whatever the prices, so before anything is computed on
    them; chargeHours = 8 fails; and for 1 <= chargeHours <= 7 with at least
    7 prices the call returns. *)
Theorem invalid_configuration_iff (prices : list float) (h : Z) :
  (find_optimal_charging_windows prices h = Raise ValueError
   <-> NIGHT_HOURS < h) /\
  find_optimal_charging_windows prices 8 = Raise ValueError /\
  (NIGHT_HOURS <= Z.of_nat (length prices) -> 1 <= h <= NIGHT_HOURS ->
   exists ws m, find_optimal_charging_windows prices h = Ok (ws, m)).
Proof.
  split; [|split].
  - split.
    + intros Hres. destruct (Z.ltb_spec NIGHT_HOURS h) as [Hlt|Hge]; [exact Hlt|].
      destruct (Z.eq_dec h 0) as [->|Hnz].
      * rewrite zero_hours_divides_by_zero in Hres. discriminate Hres.
      * rewrite find_optimal_fold in Hres by assumption. discriminate Hres.
    + intros Hlt. unfold find_optimal_charging_windows.
      destruct (Z.ltb_spec NIGHT_HOURS h); [reflexivity|lia].
  - reflexivity.
  - intros _ Hh. rewrite find_optimal_fold by lia. eexists _, _. reflexivity.
Qed.

Lemma invalid_configuration_iff_witness :
  NIGHT_HOURS <= Z.of_nat (length sample_day) /\
  1 <= 2 <= NIGHT_HOURS /\
  exists ws m, find_optimal_charging_windows sample_day 2 = Ok (ws, m).
Proof.
  assert (Hlen : NIGHT_HOURS <= Z.of_nat (length sample_day))
    by (vm_compute; discriminate).
  assert (Hh : 1 <= 2 <= NIGHT_HOURS) by (unfold NIGHT_HOURS; lia).
  split; [exact Hlen|]. split; [exact Hh|].
  exact (proj2 (proj2 (invalid_configuration_iff sample_day 2)) Hlen Hh).
Defined.

(** C8. Two series of at least 7 prices that agree on their first 7 entries
    give the same result for every 1 <= chargeHours <= 7: entries beyond the
    night prefix have no influence. *)
Theorem night_prefix_only (prices prices' : list float) (h : Z) :
  NIGHT_HOURS <= Z.of_nat (length prices) ->
  NIGHT_HOURS <= Z.of_nat (length prices') ->
  firstn 7 prices = firstn 7 prices' ->
  1 <= h <= NIGHT_HOURS ->
  find_optimal_charging_windows prices h
  = find_optimal_charging_windows prices' h.
Proof.
  intros Hlen Hlen' Hprefix _. unfold find_optimal_charging_windows.
  rewrite !night_prefix by assumption. now rewrite Hprefix.
Qed.

Lemma night_prefix_only_witness :
  find_optimal_charging_windows sample_day 2
  = find_optimal_charging_windows (firstn 7 sample_day ++ [1; 2; 3]%float) 2.
Proof.
  apply night_prefix_only.
  - vm_compute; discriminate.
  - vm_compute; discriminate.
  - reflexivity.
  - unfold NIGHT_HOURS; lia.
Defined.

(** What the search of ESS.py returns on a series of at least 7 prices, in
    terms of the candidates of the optimizer. *)
Lemma cheapest_summary (prices : list float) (h : Z) :
  NIGHT_HOURS <= Z.of_nat (length prices) ->
  1 <= h <= NIGHT_HOURS ->
  let night := slice prices 0 NIGHT_HOURS in
  exists i m st,
    find_cheapest_night_charging prices h = Ok (i, m) /\
    single_phase night h (mkBest PrimFloat.infinity []) = Ok st /\
    same_choice h (i, m) st /\
    0 <= i /\ i + h <= NIGHT_HOURS /\
    (forall s, 0 <= s -> s + h <= NIGHT_HOURS ->
       PrimFloat.ltb (mean_of night h [(s, s + h)]) m = false) /\
    (forall s, 0 <= s < i ->
       PrimFloat.leb (mean_of night h [(s, s + h)]) m = false) /\
    ((m = PrimFloat.infinity /\ i = 0) \/
     (m = mean_of night h [(i, i + h)] /\
      PrimFloat.ltb m PrimFloat.infinity = true)).
Proof.
  intros Hlen Hh night.
  assert (Hnz : h <> 0) by lia. assert (Hle : h <= NIGHT_HOURS) by lia.
  destruct (cheapest_result prices h Hh) as ([i m] & Hres & Hsame).
  rewrite night_length in Hsame by assumption.
  fold (single_candidates h) in Hsame. fold night in Hsame.
  assert (Hall : forall s, 0 <= s -> s + h <= NIGHT_HOURS ->
            In [(s, s + h)] (single_candidates h)).
  { intros s Hs Hsh. apply In_single_candidates. exists s.
    split; [lia|reflexivity]. }
  exists i, m,
    (fold_left (consider night h) (single_candidates h)
       (mkBest PrimFloat.infinity [])).
  split; [exact Hres|].
  split; [now apply single_phase_fold|].
  split; [exact Hsame|].
  pose proof (fold_consider_first_min night h (single_candidates h)) as Hfold.
  cbv zeta in Hfold.
  destruct Hfold
    as [[Hst Hnone]|(before & c0 & after & Hl & Hst & Hfin & Hb & Ha)];
    rewrite Hst in Hsame; destruct Hsame as [Hmin Hw];
    cbn [min_mean best_windows fst snd] in Hmin, Hw.
  - destruct Hw as [[_ Hc]|Hw]; [|discriminate Hw].
    injection Hc as -> ->.
    split; [lia|]. split; [lia|]. split; [|split].
    + intros s Hs Hsh. now apply Hnone, Hall.
    + intros s Hs. lia.
    + now left.
  - subst m.
    assert (Hin0 : In c0 (single_candidates h))
      by (rewrite Hl; apply in_or_app; right; now left).
    apply In_single_candidates in Hin0. destruct Hin0 as (i0 & Hi0 & ->).
    destruct Hw as [[Hw _]|Hw]; [discriminate Hw|].
    injection Hw as Hw _. subst i0.
    split; [lia|]. split; [lia|]. split; [|split].
    + intros s Hs Hsh. specialize (Hall s Hs Hsh). rewrite Hl in Hall.
      apply in_app_or in Hall. destruct Hall as [Hin|[Heq|Hin]].
      * apply leb_false_ltb_false. now apply Hb.
      * rewrite <- Heq. apply ltb_irrefl.
      * now apply Ha.
    + intros s Hs.
      assert (Hin : In [(s, s + h)] (single_candidates h)) by (apply Hall; lia).
      pose proof (candidates_sorted h Hh) as Hsorted.
      unfold candidates in Hsorted. rewrite Hl, <- app_assoc in Hsorted.
      cbn [app] in Hsorted. apply sorted_split in Hsorted.
      destruct Hsorted as [_ Hafter].
      rewrite Hl in Hin. apply in_app_or in Hin.
      destruct Hin as [Hin|[Heq|Hin]].
      * now apply Hb.
      * injection Heq as Heq. lia.
      * specialize (Hafter [(s, s + h)]
                      ltac:(apply in_or_app; left; exact Hin)).
        unfold enum_before, enum_key, key_lt in Hafter. lia.
    + right. split; [reflexivity|exact Hfin].
Qed.




(** C10, as the specification states it, fails: on a night where the
    optimizer returns two windows, the returned mean is not the sum, taken
    in one pass, of the prices at the covered hours divided by chargeHours;
    the code adds the sums of the two windows. *)
Lemma one_pass_mean_differs :
  ~ exists ws m,
      find_optimal_charging_windows rounding_night 3 = Ok (ws, m) /\
      m = covered_mean (slice rounding_night 0 NIGHT_HOURS) 3 ws.
Proof.
  intros (ws & m & Hres & Hm).
  vm_compute in Hres. injection Hres as <- <-.
  apply (f_equal (fun x => PrimFloat.eqb x 79.593333333333334)) in Hm.
  vm_compute in Hm. discriminate Hm.
Qed.

(** C10, amended. For a series of at least 7 prices and 1 <= chargeHours <=
    7, whenever the optimizer returns windows its mean is consistent with
    them: for one window it is the sum of the night-prefix prices at the
    covered hours divided by chargeHours; for two windows it is the sum of
    the prices of the first window plus the sum of the prices of the second,
    divided by chargeHours. *)
Theorem optimal_mean_matches_windows (prices : list float) (h : Z) :
  NIGHT_HOURS <= Z.of_nat (length prices) ->
  1 <= h <= NIGHT_HOURS ->
  exists ws m,
    find_optimal_charging_windows prices h = Ok (ws, m) /\
    (ws <> [] ->
     m = mean_of (slice prices 0 NIGHT_HOURS) h ws /\
     ((exists s,
         ws = [(s, s + h)] /\
         m = covered_mean (slice prices 0 NIGHT_HOURS) h ws /\
         m = single_mean prices h s) \/
      (exists s1 w1 s2 w2,
         ws = [(s1, s1 + w1); (s2, s2 + w2)] /\
         disjoint_blocks h s1 w1 s2 w2 /\
         m = split_mean prices h s1 w1 s2 w2))).
Proof.
  intros Hlen Hh.
  assert (Hnz : h <> 0) by lia. assert (Hle : h <= NIGHT_HOURS) by lia.
  destruct (optimal_returns prices h Hnz Hle)
    as (ws & m & Hres & _ & _ & Hshape).
  exists ws, m. split; [exact Hres|]. intros Hne.
  destruct Hshape as [[-> _]|(Hin & Hm & _)]; [congruence|].
  split; [exact Hm|].
  pose proof (night_length prices Hlen) as Hnight.
  destruct (candidate_mean_cases prices h ws Hlen Hh Hin)
    as [(s & Hs & Hsh & -> & Hmean)|(s1 & w1 & s2 & w2 & Hd & _ & -> & Hmean)].
  - left. exists s. split; [reflexivity|]. split; [|now rewrite <- Hmean].
    rewrite Hm. unfold mean_of, covered_mean, covered_hours.
    cbn [window_total fold_left flat_map fst snd]. rewrite app_nil_r.
    now rewrite slice_inside by lia.
  - right. exists s1, w1, s2, w2. split; [reflexivity|].
    split; [exact Hd|]. now rewrite <- Hmean.
Qed.

Lemma optimal_mean_matches_windows_witness :
  NIGHT_HOURS <= Z.of_nat (length sample_day) /\
  1 <= 2 <= NIGHT_HOURS /\
  exists ws m,
    find_optimal_charging_windows sample_day 2 = Ok (ws, m) /\
    (ws <> [] -> m = mean_of (slice sample_day 0 NIGHT_HOURS) 2 ws).
Proof.
  assert (Hlen : NIGHT_HOURS <= Z.of_nat (length sample_day))
    by (vm_compute; discriminate).
  assert (Hh : 1 <= 2 <= NIGHT_HOURS) by (unfold NIGHT_HOURS; lia).
  split; [exact Hlen|]. split; [exact Hh|].
  destruct (optimal_mean_matches_windows sample_day 2 Hlen Hh)
    as (ws & m & Hres & Hm).
  exists ws, m. split; [exact Hres|]. intros Hne. now apply Hm.
Defined.

(** * Further properties of the code *)

(** ** Series of any length *)

Lemma slice_beyond {A : Type} (l : list A) (lo hi : Z) :
  Z.of_nat (length l) <= lo -> slice l lo hi = [].
Proof.
  intros Hlo. unfold slice, clamp.
  destruct (Z.ltb_spec lo 0); [lia|].
  replace (Z.to_nat _) with 0%nat; [reflexivity|].
  destruct (Z.ltb_spec hi 0); lia.
Qed.

(** A block that starts at or after the end of the night prices has the
    mean of the int 0. *)
Lemma mean_beyond (night : list float) (h s : Z) :
  Z.of_nat (length night) <= s ->
  mean_of night h [(s, s + h)] = mean_value IntZero h.
Proof.
  intros Hs. unfold mean_of. cbn [window_total fold_left fst snd].
  now rewrite slice_beyond.
Qed.

Lemma mean_int_zero_below_infinity (h : Z) :
  PrimFloat.ltb (mean_value IntZero h) PrimFloat.infinity = true.
Proof. cbn [mean_value]. now destruct (h <? 0). Qed.

(** For every series, of any length, and 1 <= hours <= 7 the optimizer
    returns: either no candidate mean is below +inf and it returns no window
    with mean +inf, or it returns a candidate, well formed, with its mean. No
    candidate mean is below the returned mean. A series of at most 7 - hours
    prices leaves the last block empty: windows are returned, with a mean of
    at most 0. *)
Theorem optimal_on_any_series (prices : list float) (h : Z) :
  1 <= h <= NIGHT_HOURS ->
  exists ws m,
    find_optimal_charging_windows prices h = Ok (ws, m) /\
    PrimFloat.is_nan m = false /\
    (forall c, In c (candidates h) ->
       PrimFloat.ltb (mean_of (slice prices 0 NIGHT_HOURS) h c) m = false) /\
    ((ws = [] /\ m = PrimFloat.infinity) \/
     (well_formed_windows h ws /\
      m = mean_of (slice prices 0 NIGHT_HOURS) h ws /\
      PrimFloat.ltb m PrimFloat.infinity = true)) /\
    (Z.of_nat (length prices) <= NIGHT_HOURS - h ->
     well_formed_windows h ws /\ PrimFloat.leb m 0 = true).
Proof.
  intros Hh.
  assert (Hnz : h <> 0) by lia. assert (Hle : h <= NIGHT_HOURS) by lia.
  destruct (optimal_returns prices h Hnz Hle)
    as (ws & m & Hres & Hnum & Hmin & Hshape).
  set (night := slice prices 0 NIGHT_HOURS) in *.
  exists ws, m. split; [exact Hres|]. split; [exact Hnum|].
  split; [exact Hmin|]. split.
  - destruct Hshape as [H|(Hin & Hm & Hfin)]; [now left|right].
    split; [now apply candidate_well_formed|]. split; assumption.
  - intros Hshort.
    assert (Hin : In [(NIGHT_HOURS - h, NIGHT_HOURS - h + h)] (candidates h))
      by (apply In_candidates_single; lia).
    assert (Hlast : mean_of night h [(NIGHT_HOURS - h, NIGHT_HOURS - h + h)]
                    = 0%float).
    { rewrite mean_beyond.
      - cbn [mean_value]. destruct (Z.ltb_spec h 0); [lia|reflexivity].
      - unfold night. rewrite night_length_any. lia. }
    pose proof (Hmin _ Hin) as Hzero. rewrite Hlast in Hzero.
    split.
    + destruct Hshape as [[_ ->]|(Hin' & _)].
      * vm_compute in Hzero. discriminate Hzero.
      * now apply candidate_well_formed.
    + apply not_ltb_leb; [reflexivity|exact Hnum|exact Hzero].
Qed.

Lemma optimal_on_any_series_witness :
  1 <= 3 <= NIGHT_HOURS /\
  exists ws m,
    find_optimal_charging_windows [40; 10]%float 3 = Ok (ws, m) /\
    well_formed_windows 3 ws /\ PrimFloat.leb m 0 = true.
Proof.
  assert (Hh : 1 <= 3 <= NIGHT_HOURS) by (unfold NIGHT_HOURS; lia).
  split; [exact Hh|].
  destruct (optimal_on_any_series [40; 10]%float 3 Hh)
    as (ws & m & Hres & _ & _ & _ & Hshort).
  exists ws, m. split; [exact Hres|].
  apply Hshort. cbn. unfold NIGHT_HOURS. lia.
Defined.

(** The guard only rejects hours above 7. A negative number of hours is
    accepted: the call returns one window [(s, s + h)] whose end lies before
    its start, with a mean below +inf. *)
Theorem negative_hours_not_rejected (prices : list float) (h : Z) :
  h < 0 ->
  exists s m,
    find_optimal_charging_windows prices h = Ok ([(s, s + h)], m) /\
    0 <= s <= NIGHT_HOURS - h /\ s + h < s /\
    PrimFloat.ltb m PrimFloat.infinity = true.
Proof.
  intros Hneg.
  assert (Hnz : h <> 0) by lia.
  assert (Hle : h <= NIGHT_HOURS) by (unfold NIGHT_HOURS; lia).
  destruct (optimal_returns prices h Hnz Hle)
    as (ws & m & Hres & Hnum & Hmin & Hshape).
  assert (Hlast : In [(NIGHT_HOURS - h, NIGHT_HOURS - h + h)] (candidates h))
    by (apply In_candidates_single; lia).
  destruct Hshape as [[-> ->]|(Hin & Hm & Hfin)].
  - specialize (Hmin _ Hlast). rewrite mean_beyond in Hmin.
    + rewrite mean_int_zero_below_infinity in Hmin. discriminate Hmin.
    + rewrite night_length_any. lia.
  - unfold candidates, split_candidates in Hin.
    rewrite (range_empty 1 h) in Hin by lia. cbn [flat_map] in Hin.
    rewrite app_nil_r in Hin. apply In_single_candidates in Hin.
    destruct Hin as (s & Hs & ->).
    exists s, m. split; [exact Hres|]. split; [lia|]. split; [lia|exact Hfin].
Qed.

Lemma negative_hours_not_rejected_witness :
  exists s m,
    find_optimal_charging_windows overflow_night (-1)
      = Ok ([(s, s + -1)], m) /\
    0 <= s <= NIGHT_HOURS - -1 /\ s + -1 < s /\
    PrimFloat.ltb m PrimFloat.infinity = true.
Proof. apply negative_hours_not_rejected. lia. Defined.

Example negative_hours_overflow :
  find_optimal_charging_windows overflow_night (-1)
  = Ok ([(0, -1)], PrimFloat.neg_infinity).
Proof. vm_compute. reflexivity. Qed.


(** The comparison step replaces the running best only on a strictly
    smaller mean; the loops of the optimizer are the left fold of that step
    over the candidates in the order single blocks by ascending start, then
    splits by ascending w1, s1, s2; and whenever some candidate mean is below
    +inf the returned windows are the first candidate of this order with the
    least mean: earlier candidates are not at most it, later ones not below
    it. *)
Theorem optimal_is_first_minimum (prices : list float) (h : Z) :
  1 <= h <= NIGHT_HOURS ->
  let night := slice prices 0 NIGHT_HOURS in
  (forall st c,
     (PrimFloat.ltb (mean_of night h c) (min_mean st) = true ->
      consider night h st c = mkBest (mean_of night h c) c) /\
     (PrimFloat.ltb (mean_of night h c) (min_mean st) = false ->
      consider night h st c = st)) /\
  find_optimal_charging_windows prices h
    = Ok (let st := fold_left (consider night h) (candidates h)
                      (mkBest PrimFloat.infinity []) in
          (best_windows st, min_mean st)) /\
  StronglySorted enum_before (candidates h) /\
  ((find_optimal_charging_windows prices h = Ok ([], PrimFloat.infinity) /\
    forall c, In c (candidates h) ->
      PrimFloat.ltb (mean_of night h c) PrimFloat.infinity = false) \/
   (exists before ws after,
      candidates h = before ++ ws :: after /\
      find_optimal_charging_windows prices h = Ok (ws, mean_of night h ws) /\
      PrimFloat.ltb (mean_of night h ws) PrimFloat.infinity = true /\
      (forall c, In c before ->
         PrimFloat.leb (mean_of night h c) (mean_of night h ws) = false) /\
      (forall c, In c after ->
         PrimFloat.ltb (mean_of night h c) (mean_of night h ws) = false))).
Proof.
  intros Hh night.
  assert (Hnz : h <> 0) by lia. assert (Hle : h <= NIGHT_HOURS) by lia.
  split; [|split; [|split]].
  - intros st c. unfold consider. split; intros Hc; now rewrite Hc.
  - now apply find_optimal_fold.
  - now apply candidates_sorted.
  - now apply optimal_result.
Qed.

Lemma optimal_is_first_minimum_witness :
  1 <= 3 <= NIGHT_HOURS /\
  StronglySorted enum_before (candidates 3) /\
  find_optimal_charging_windows rounding_night 3
    = Ok (let st := fold_left
                      (consider (slice rounding_night 0 NIGHT_HOURS) 3)
                      (candidates 3) (mkBest PrimFloat.infinity []) in
          (best_windows st, min_mean st)).
Proof.
  assert (Hh : 1 <= 3 <= NIGHT_HOURS) by (unfold NIGHT_HOURS; lia).
  split; [exact Hh|].
  destruct (optimal_is_first_minimum rounding_night 3 Hh)
    as (_ & Hfold & Hsorted & _).
  split; [exact Hsorted|exact Hfold].
Defined.

(** ** The single-block search on series of any length *)

Lemma cheapest_any (prices : list float) (h : Z) :
  1 <= h <= NIGHT_HOURS ->
  exists i m,
    find_cheapest_night_charging prices h = Ok (i, m) /\
    PrimFloat.is_nan m = false /\
    ((i = 0 /\ m = PrimFloat.infinity) \/
     (0 <= i /\ i + h <= NIGHT_HOURS /\ i + h <= Z.of_nat (length prices) /\
      m = mean_of (slice prices 0 NIGHT_HOURS) h [(i, i + h)] /\
      PrimFloat.ltb m PrimFloat.infinity = true)).
Proof.
  intros Hh.
  destruct (cheapest_result prices h Hh) as ([i m] & Hres & Hsame).
  set (night := slice prices 0 NIGHT_HOURS) in *.
  exists i, m. split; [exact Hres|].
  pose proof (fold_consider_first_min night h
                (map (fun s => [(s, s + h)])
                   (range 0 (Z.of_nat (length night) - h + 1)))) as Hfold.
  cbv zeta in Hfold.
  destruct Hfold
    as [[Hst _]|(before & c0 & after & Hl & Hst & Hfin & _)];
    rewrite Hst in Hsame; destruct Hsame as [Hmin Hw];
    cbn [min_mean best_windows fst snd] in Hmin, Hw.
  - destruct Hw as [[_ Hc]|Hw]; [|discriminate Hw].
    injection Hc as -> ->. split; [reflexivity|now left].
  - subst m.
    assert (Hin0 : In c0 (map (fun s => [(s, s + h)])
                            (range 0 (Z.of_nat (length night) - h + 1))))
      by (rewrite Hl; apply in_or_app; right; now left).
    apply in_map_iff in Hin0. destruct Hin0 as (i0 & <- & Hi0).
    apply In_range in Hi0. unfold night in Hi0.
    rewrite night_length_any in Hi0.
    destruct Hw as [[Hw _]|Hw]; [discriminate Hw|].
    injection Hw as Hw _. subst i0.
    split; [now apply (ltb_number _ _ Hfin)|].
    right. split; [lia|]. split; [lia|]. split; [lia|].
    split; [reflexivity|exact Hfin].
Qed.

(** The search of ESS.py iterates over the prices it has. With fewer prices
    than hours it finds no block and returns start 0 with mean
    float('inf'), without an error; otherwise it returns a block inside the
    available night prices and a mean that is a number, the mean of that
    block when it is below +inf. *)
Theorem cheapest_infinite_when_short (prices : list float) (h : Z) :
  1 <= h <= NIGHT_HOURS ->
  (Z.of_nat (length prices) < h ->
   find_cheapest_night_charging prices h = Ok (0, PrimFloat.infinity)) /\
  (h <= Z.of_nat (length prices) ->
   exists i m,
     find_cheapest_night_charging prices h = Ok (i, m) /\
     0 <= i /\ i + h <= NIGHT_HOURS /\ i + h <= Z.of_nat (length prices) /\
     PrimFloat.is_nan m = false /\
     (PrimFloat.ltb m PrimFloat.infinity = true ->
      m = mean_of (slice prices 0 NIGHT_HOURS) h [(i, i + h)])).
Proof.
  intros Hh. split.
  - intros Hshort. apply cheapest_short; lia.
  - intros Hlen.
    destruct (cheapest_any prices h Hh) as (i & m & Hres & Hnum & Hcase).
    exists i, m. split; [exact Hres|].
    destruct Hcase as [[-> ->]|(Hi & Hih & Hil & Hm & Hfin)].
    + repeat split; try lia. intros Hlt. discriminate Hlt.
    + repeat split; try lia; try assumption. intros _. exact Hm.
Qed.

Lemma cheapest_infinite_when_short_witness :
  1 <= 3 <= NIGHT_HOURS /\
  find_cheapest_night_charging [40; 10]%float 3 = Ok (0, PrimFloat.infinity).
Proof.
  assert (Hh : 1 <= 3 <= NIGHT_HOURS) by (unfold NIGHT_HOURS; lia).
  split; [exact Hh|].
  apply (proj1 (cheapest_infinite_when_short [40; 10]%float 3 Hh)).
  cbn. lia.
Defined.

(** With prices that are numbers and not below zero no sum is NaN, and the
    claim on the minimum holds as the specification states it: the returned
    mean is at most the mean of every single block and of every pair of
    disjoint blocks, it is the mean of one of them, and it is at most the
    mean of the block at offset 0. *)
Theorem optimal_mean_is_minimum_non_negative (prices : list float) (h : Z) :
  NIGHT_HOURS <= Z.of_nat (length prices) ->
  1 <= h <= NIGHT_HOURS ->
  Forall non_negative prices ->
  exists ws m,
    find_optimal_charging_windows prices h = Ok (ws, m) /\
    (forall s, 0 <= s -> s + h <= NIGHT_HOURS ->
       PrimFloat.leb m (single_mean prices h s) = true) /\
    (forall s1 w1 s2 w2, disjoint_blocks h s1 w1 s2 w2 ->
       PrimFloat.leb m (split_mean prices h s1 w1 s2 w2) = true) /\
    ((exists s, 0 <= s /\ s + h <= NIGHT_HOURS /\ m = single_mean prices h s) \/
     (exists s1 w1 s2 w2, disjoint_blocks h s1 w1 s2 w2 /\
        m = split_mean prices h s1 w1 s2 w2)) /\
    PrimFloat.leb m (single_mean prices h 0) = true.
Proof.
  intros Hlen Hh Hprices.
  assert (Hnz : h <> 0) by lia. assert (Hle : h <= NIGHT_HOURS) by lia.
  destruct (optimal_returns prices h Hnz Hle) as (ws & m & Hres & _).
  destruct (optimal_returns_non_negative prices h ws m Hh Hprices Hres)
    as (Hmin & c & Hin & Hm).
  assert (Hsingle : forall s, 0 <= s -> s + h <= NIGHT_HOURS ->
            PrimFloat.leb m (single_mean prices h s) = true).
  { intros s Hs Hsh.
    destruct (single_mean_candidate prices h s Hlen Hh Hs Hsh)
      as (c' & Hin' & <-). now apply Hmin. }
  exists ws, m. split; [exact Hres|]. split; [exact Hsingle|]. split; [|split].
  - intros s1 w1 s2 w2 Hd.
    destruct (split_mean_candidate prices h s1 w1 s2 w2 Hlen Hd)
      as (c' & Hin' & <-). now apply Hmin.
  - destruct (candidate_mean_cases prices h c Hlen Hh Hin)
      as [(s & Hs & Hsh & _ & Hmean)|(s1 & w1 & s2 & w2 & Hd & _ & _ & Hmean)].
    + left. exists s. repeat split; try assumption. now rewrite <- Hmean.
    + right. exists s1, w1, s2, w2. split; [assumption|]. now rewrite <- Hmean.
  - apply Hsingle; lia.
Qed.

Lemma optimal_mean_is_minimum_non_negative_witness :
  exists ws m,
    find_optimal_charging_windows overflow_night 2 = Ok (ws, m) /\
    PrimFloat.leb m (single_mean overflow_night 2 0) = true.
Proof.
  destruct (optimal_mean_is_minimum_non_negative overflow_night 2)
    as (ws & m & Hres & _ & _ & _ & Hzero).
  - vm_compute. discriminate.
  - unfold NIGHT_HOURS. lia.
  - unfold overflow_night. cbn [repeat]. repeat constructor.
  - exists ws, m. split; [exact Hres|exact Hzero].
Defined.

(** ** Profitability *)

Lemma profitable_below (config : Config) (m m' : float)
  (daily_prices : list float) :
  non_negative (price_multiplier config) ->
  PrimFloat.leb m' m = true ->
  PrimFloat.is_nan (PrimFloat.mul m' (price_multiplier config)) = false ->
  is_charging_profitable config m daily_prices = Ok true ->
  is_charging_profitable config m' daily_prices = Ok true.
Proof.
  intros Hk Hm Hnum. unfold is_charging_profitable.
  destruct (truediv (sum daily_prices) (Z.of_nat (length daily_prices)))
    as [avg|e]; cbn [bind]; [|discriminate].
  intros Hres. injection Hres as Hres. f_equal.
  apply (leb_trans _ (PrimFloat.mul m (price_multiplier config))); [|exact Hres].
  apply mul_le_compat; try assumption.
  apply leb_iff in Hres. tauto.
Qed.

(** With a finite, non-negative multiplier the check is monotone: a finite
    charge price below a profitable one is profitable too. *)
Theorem profitable_monotone (config : Config) (m m' : float)
  (daily_prices : list float) :
  non_negative (price_multiplier config) ->
  finite (price_multiplier config) -> finite m' ->
  PrimFloat.leb m' m = true ->
  is_charging_profitable config m daily_prices = Ok true ->
  is_charging_profitable config m' daily_prices = Ok true.
Proof.
  intros Hk Hfk Hfm Hm. apply profitable_below; try assumption.
  now apply mul_finite_number.
Qed.

Lemma profitable_monotone_witness :
  is_charging_profitable (mkConfig 1 2) 5 sample_day = Ok true.
Proof.
  apply (profitable_monotone (mkConfig 1 2) 30 5 sample_day).
  - reflexivity.
  - split; reflexivity.
  - split; reflexivity.
  - reflexivity.
  - vm_compute. reflexivity.
Defined.

(** Outside the finite doubles the check is not monotone: with multiplier
    0 the price 1 is profitable and the price -inf, whose product is NaN,
    is not. *)
Example profitable_not_monotone_at_infinity :
  PrimFloat.leb PrimFloat.neg_infinity 1 = true /\
  is_charging_profitable (mkConfig 0 2) 1 [1]%float = Ok true /\
  is_charging_profitable (mkConfig 0 2) PrimFloat.neg_infinity [1]%float
    = Ok false.
Proof. repeat split; vm_compute; reflexivity. Qed.



(** Where the product is not a number the split can lose a profitable
    night: the single block of ESS.py has mean -2^1022 and passes the check
    with multiplier 0, the two windows of the optimizer sum to -inf and
    -inf * 0 is NaN. *)
Example split_search_overflow_loses_profitability :
  find_cheapest_night_charging cancelling_day 2 = Ok (1, (-0x1p1022)%float) /\
  is_charging_profitable (mkConfig 0 2) (-0x1p1022) cancelling_day = Ok true /\
  find_optimal_charging_windows cancelling_day 2
    = Ok ([(2, 3); (4, 5)], PrimFloat.neg_infinity) /\
  is_charging_profitable (mkConfig 0 2) PrimFloat.neg_infinity cancelling_day
    = Ok false.
Proof. repeat split; vm_compute; reflexivity. Qed.

(** ** From the optimizer to the command *)

Lemma hour_string_night (n : Z) :
  0 <= n <= NIGHT_HOURS -> In (hour_string n) night_times.
Proof.
  unfold NIGHT_HOURS. intros Hn.
  assert (Hcases : n = 0 \/ n = 1 \/ n = 2 \/ n = 3 \/ n = 4 \/ n = 5 \/
                   n = 6 \/ n = 7) by lia.
  destruct Hcases as [->|[->|[->|[->|[->|[->|[->| ->]]]]]]];
    vm_compute; auto 10.
Qed.


Lemma profitable_value (config : Config) (m : float)
  (daily_prices : list float) :
  daily_prices <> [] ->
  Z.of_nat (length daily_prices) <= max_list_length ->
  is_charging_profitable config m daily_prices
  = Ok (PrimFloat.leb (PrimFloat.mul m (price_multiplier config))
          (series_mean daily_prices)).
Proof.
  intros Hne Hlen. unfold is_charging_profitable.
  rewrite truediv_ok.
  - destruct daily_prices as [|x l]; [congruence|reflexivity].
  - destruct daily_prices; [congruence|cbn [length]; lia].
  - apply small_not_too_large. unfold max_list_length in Hlen.
    assert (0 < 2 ^ 63) by (vm_compute; reflexivity). lia.
Qed.

(** The ways a run of [optimize_charging_schedule] can go. *)
Lemma optimize_cases (config : Config) (prices : list float) :
  Z.of_nat (length prices) <= max_list_length ->
  let h := charge_to_full config in
  let no_window :=
    find_optimal_charging_windows prices h = Ok ([], PrimFloat.infinity) /\
    is_charging_profitable config PrimFloat.infinity prices = Ok true in
  (NIGHT_HOURS < h /\
   optimize_charging_schedule config prices = Throw (Inner ValueError)) \/
  (h = 0 /\
   optimize_charging_schedule config prices = Throw (Inner ZeroDivisionError)) \/
  (h <= NIGHT_HOURS /\ h <> 0 /\ prices = [] /\
   optimize_charging_schedule config prices = Throw (Inner ZeroDivisionError)) \/
  (h <= NIGHT_HOURS /\ h <> 0 /\ prices <> [] /\ no_window /\
   optimize_charging_schedule config prices = Throw IndexError) \/
  (h <= NIGHT_HOURS /\ h <> 0 /\ prices <> [] /\ ~ no_window /\
   exists cmd, optimize_charging_schedule config prices = Return cmd).
Proof.
  intros Hlen h no_window. subst no_window.
  unfold optimize_charging_schedule. fold h.
  destruct (Z.lt_ge_cases NIGHT_HOURS h) as [Hgt|Hle].
  { left. split; [exact Hgt|]. unfold find_optimal_charging_windows.
    destruct (Z.ltb_spec NIGHT_HOURS h); [reflexivity|lia]. }
  right. destruct (Z.eq_dec h 0) as [Hz|Hnz].
  { left. split; [exact Hz|].
    now rewrite Hz, zero_hours_divides_by_zero. }
  right.
  destruct (optimal_returns prices h Hnz Hle)
    as (ws & m & Hres & _ & _ & Hshape).
  rewrite Hres.
  destruct prices as [|p prices].
  { left. repeat split; assumption. }
  right.
  assert (Hne : p :: prices <> []) by discriminate.
  rewrite (profitable_value config m _ Hne Hlen).
  destruct (PrimFloat.leb _ _) eqn:Hb.
  - destruct Hshape as [[-> ->]|(Hin & _ & _)].
    + left. repeat split; try assumption.
      rewrite (profitable_value config _ _ Hne Hlen). now rewrite Hb.
    + right. repeat split; try assumption.
      * intros [Hnone _]. injection Hnone as -> _.
        apply candidate_shape in Hin.
        destruct Hin as [(w & Hw)|(w & w' & Hw)]; discriminate Hw.
      * destruct (candidate_shape h ws Hin) as [(w & ->)|(w & w' & ->)]; eauto.
  - right. repeat split; try assumption; [|eauto].
    intros [Hnone Hprof]. injection Hnone as _ ->.
    rewrite (profitable_value config _ _ Hne Hlen), Hb in Hprof.
    discriminate Hprof.
Qed.

(** A run raises ValueError exactly when hours > 7, ZeroDivisionError
    exactly when hours = 0 or (hours <= 7 and) the series is empty, and
    IndexError on [windows[0]] exactly when the optimizer returned no window
    (no mean below +inf) and the check still passes; in every other case it
    hands a command to the manager. *)
Theorem schedule_failures (config : Config) (prices : list float) :
  Z.of_nat (length prices) <= max_list_length ->
  let h := charge_to_full config in
  let no_window :=
    find_optimal_charging_windows prices h = Ok ([], PrimFloat.infinity) /\
    is_charging_profitable config PrimFloat.infinity prices = Ok true in
  (optimize_charging_schedule config prices = Throw (Inner ValueError)
   <-> NIGHT_HOURS < h) /\
  (optimize_charging_schedule config prices = Throw (Inner ZeroDivisionError)
   <-> h <= NIGHT_HOURS /\ (h = 0 \/ prices = [])) /\
  (optimize_charging_schedule config prices = Throw IndexError
   <-> h <= NIGHT_HOURS /\ h <> 0 /\ prices <> [] /\ no_window) /\
  ((exists cmd, optimize_charging_schedule config prices = Return cmd)
   <-> h <= NIGHT_HOURS /\ h <> 0 /\ prices <> [] /\ ~ no_window).
Proof.
  intros Hlen. cbv zeta.
  pose proof (optimize_cases config prices Hlen) as Hcases.
  cbv zeta in Hcases.
  destruct Hcases
    as [(Hh & Hr)|[(Hh & Hr)|[(Hle & Hnz & He & Hr)|
        [(Hle & Hnz & Hne & Hno & Hr)|(Hle & Hnz & Hne & Hno & cmd & Hr)]]]];
    rewrite Hr.
  - split; [split; [intros _; exact Hh|reflexivity]|].
    split; [split; [discriminate|intros [Hle _]; lia]|].
    split; [split; [discriminate|intros (Hle & _); lia]|].
    split; [intros (c & Hc); discriminate Hc|intros (Hle & _); lia].
  - split; [split; [discriminate|unfold NIGHT_HOURS; lia]|].
    split; [split; [intros _|reflexivity]|].
    { split; [unfold NIGHT_HOURS; lia|now left]. }
    split; [split; [discriminate|intros (_ & Hnz & _); contradiction]|].
    split; [intros (c & Hc); discriminate Hc|intros (_ & Hnz & _); contradiction].
  - split; [split; [discriminate|lia]|].
    split; [split; [intros _|reflexivity]|].
    { split; [assumption|now right]. }
    split; [split; [discriminate|intros (_ & _ & Hne & _); contradiction]|].
    split; [intros (c & Hc); discriminate Hc|intros (_ & _ & Hne & _); contradiction].
  - split; [split; [discriminate|lia]|].
    split; [split; [discriminate|]|].
    { intros (_ & [Hz|He]); contradiction. }
    split; [split; [intros _; tauto|reflexivity]|].
    split; [intros (c & Hc); discriminate Hc|].
    intros (_ & _ & _ & Hnot). contradiction.
  - split; [split; [discriminate|lia]|].
    split; [split; [discriminate|]|].
    { intros (_ & [Hz|He]); contradiction. }
    split; [split; [discriminate|intros (_ & _ & _ & Hyes); contradiction]|].
    split; [intros _; tauto|intros _; eauto].
Qed.

Lemma schedule_failures_witness :
  Z.of_nat (length overflow_night) <= max_list_length /\
  optimize_charging_schedule (mkConfig 1 2) overflow_night = Throw IndexError.
Proof.
  assert (Hlen : Z.of_nat (length overflow_night) <= max_list_length)
    by (vm_compute; discriminate).
  split; [exact Hlen|].
  destruct (schedule_failures (mkConfig 1 2) overflow_night Hlen)
    as (_ & _ & Hindex & _).
  apply Hindex. cbn [charge_to_full].
  split; [unfold NIGHT_HOURS; lia|]. split; [lia|]. split; [discriminate|].
  split; vm_compute; reflexivity.
Defined.

(** For a non-empty series and 1 <= hours <= 7 a run either hands one
    command to the manager or, when the optimizer returned no window and
    the check passes, raises IndexError. Charging is enabled exactly when
    the double optimal mean * multiplier is at most the mean of the day. A
    disabled command carries the midnight pair in both slots; an enabled
    one carries the returned windows as HH:00 times, the second slot being
    the midnight pair when there is one window. All times lie between 00:00
    and 07:00. *)
Theorem schedule_command_valid (config : Config) (prices : list float) :
  prices <> [] ->
  Z.of_nat (length prices) <= max_list_length ->
  1 <= charge_to_full config <= NIGHT_HOURS ->
  exists ws m,
    find_optimal_charging_windows prices (charge_to_full config)
      = Ok (ws, m) /\
    let profitable :=
      PrimFloat.leb (PrimFloat.mul m (price_multiplier config))
        (series_mean prices) in
    (ws = [] /\ m = PrimFloat.infinity /\ profitable = true /\
     optimize_charging_schedule config prices = Throw IndexError) \/
    (exists cmd,
       optimize_charging_schedule config prices = Return cmd /\
       should_charge cmd = profitable /\
       (should_charge cmd = false ->
        cmd = mkCommand false MIDNIGHT MIDNIGHT MIDNIGHT MIDNIGHT) /\
       (should_charge cmd = true ->
        (exists s1 e1,
           ws = [(s1, e1)] /\
           cmd = mkCommand true (hour_string s1) (hour_string e1)
                   MIDNIGHT MIDNIGHT) \/
        (exists s1 e1 s2 e2,
           ws = [(s1, e1); (s2, e2)] /\
           cmd = mkCommand true (hour_string s1) (hour_string e1)
                   (hour_string s2) (hour_string e2))) /\
       In (start_time1 cmd) night_times /\ In (end_time1 cmd) night_times /\
       In (start_time2 cmd) night_times /\ In (end_time2 cmd) night_times).
Proof.
  intros Hne Hlen Hh. set (h := charge_to_full config) in *.
  assert (Hnz : h <> 0) by lia. assert (Hle : h <= NIGHT_HOURS) by lia.
  destruct (optimal_returns prices h Hnz Hle)
    as (ws & m & Hres & _ & _ & Hshape).
  assert (Hmid : In MIDNIGHT night_times) by (now left).
  exists ws, m. split; [exact Hres|]. cbv zeta.
  unfold optimize_charging_schedule. fold h.
  rewrite Hres, (profitable_value config m prices Hne Hlen).
  destruct (PrimFloat.leb _ _) eqn:Hb.
  - destruct Hshape as [[-> ->]|(Hin & _ & _)]; [left; repeat split|right].
    unfold candidates in Hin. apply in_app_or in Hin. destruct Hin as [Hin|Hin].
    + apply In_single_candidates in Hin. destruct Hin as (s & Hs & ->).
      eexists. split; [reflexivity|].
      cbn [should_charge start_time1 end_time1 start_time2 end_time2 fst snd].
      split; [reflexivity|]. split; [discriminate|].
      split; [intros _; left; eauto|].
      repeat split; try assumption; apply hour_string_night; lia.
    + apply In_split_candidates in Hin.
      destruct Hin as (w1 & s1 & s2 & Hw1 & Hs1 & Hs2 & ->).
      eexists. split; [reflexivity|].
      cbn [should_charge start_time1 end_time1 start_time2 end_time2 fst snd].
      split; [reflexivity|]. split; [discriminate|].
      split; [intros _; right; eauto 6|].
      repeat split; apply hour_string_night; lia.
  - right. eexists. split; [reflexivity|].
    cbn [should_charge start_time1 end_time1 start_time2 end_time2].
    split; [reflexivity|]. split; [reflexivity|].
    split; [discriminate|]. repeat split; assumption.
Qed.

Lemma schedule_command_valid_witness :
  exists cmd,
    optimize_charging_schedule (mkConfig 1 2) sample_day = Return cmd /\
    should_charge cmd = true.
Proof.
  destruct (schedule_command_valid (mkConfig 1 2) sample_day)
    as (ws & m & Hres & [(Hws & _)|(cmd & Hrun & Hcharge & _)]).
  - discriminate.
  - vm_compute. discriminate.
  - cbn. unfold NIGHT_HOURS. lia.
  - vm_compute in Hres. injection Hres as <- _. discriminate Hws.
  - exists cmd. split; [exact Hrun|].
    vm_compute in Hres. injection Hres as _ <-.
    rewrite Hcharge. vm_compute. reflexivity.
Defined.

(** [main] of ESS.py never checks profitability. For every series, even an
    empty one, and 1 <= hours <= 7 it enables charging from some hour i to
    i + hours inside the night prefix; with fewer prices than hours, from
    00:00. *)
Theorem ess_main_always_charges (h : Z) (prices : list float) :
  1 <= h <= NIGHT_HOURS ->
  exists i,
    ess_main h prices = Ok (true, hour_string i, hour_string (i + h)) /\
    0 <= i /\ i + h <= NIGHT_HOURS /\
    In (hour_string i) night_times /\ In (hour_string (i + h)) night_times /\
    (Z.of_nat (length prices) < h -> i = 0).
Proof.
  intros Hh. unfold ess_main.
  destruct (cheapest_any prices h Hh) as (i & m & Hres & _ & Hcase).
  exists i. rewrite Hres. cbn [bind fst].
  destruct Hcase as [[-> _]|(Hi & Hih & Hil & _)];
    repeat split; try lia; apply hour_string_night; lia.
Qed.

Lemma ess_main_always_charges_witness :
  exists i,
    ess_main 3 [1; 2]%float = Ok (true, hour_string i, hour_string (i + 3)) /\
    0 <= i /\ i + 3 <= NIGHT_HOURS.
Proof.
  destruct (ess_main_always_charges 3 [1; 2]%float) as (i & Hres & Hi & Hih & _).
  - unfold NIGHT_HOURS. lia.
  - exists i. split; [exact Hres|]. split; [exact Hi|exact Hih].
Defined.

(** ** Configuration files *)

Section RequiredKeys.

Context {V : Type}.
Variable config : ConfigFile.dict V.

Lemma check_required_ok (keys : list string) :
  ConfigFile.check_required config keys = Return tt <->
  forall key, In key keys -> ConfigFile.dict_contains config key = true.
Proof.
  induction keys as [|k keys IH]; cbn [ConfigFile.check_required].
  - split; [intros _ ? []|reflexivity].
  - destruct (ConfigFile.dict_contains config k) eqn:Hk; cbn [negb].
    + rewrite IH. split.
      * intros H key [<-|Hin]; [exact Hk|now apply H].
      * intros H key Hin. apply H. now right.
    + split; [discriminate|].
      intros H. specialize (H k (or_introl eq_refl)). congruence.
Qed.

Lemma check_required_first_missing (keys : list string)
  (e : ConfigFile.config_exn) :
  ConfigFile.check_required config keys = Throw e ->
  exists before key after,
    keys = before ++ key :: after /\
    e = ConfigFile.ConfigValueError
          (String.append key " not found in config"%string) /\
    ConfigFile.dict_contains config key = false /\
    (forall k, In k before -> ConfigFile.dict_contains config k = true).
Proof.
  induction keys as [|k keys IH]; cbn [ConfigFile.check_required];
    [discriminate|].
  destruct (ConfigFile.dict_contains config k) eqn:Hk; cbn [negb].
  - intros H. destruct (IH H) as (before & key & after & -> & He & Hkey & Hb).
    exists (k :: before), key, after. repeat split; try assumption.
    intros k' [<-|Hin]; [exact Hk|now apply Hb].
  - intros H. injection H as <-.
    exists [], k, keys. repeat split; try assumption. intros ? [].
Qed.

End RequiredKeys.

(** [validate_config] of ESS.py accepts a dict exactly when it holds the
    five required keys; otherwise it raises ValueError naming the first
    missing key in the order username, password, price_multiplier,
    charge_to_full, serial_number. *)
Theorem validate_config_first_missing (V : Type) (config : ConfigFile.dict V) :
  (ConfigFile.validate_config config = Return tt <->
   forall key, In key ConfigFile.ess_required_keys ->
     ConfigFile.dict_contains config key = true) /\
  (forall e, ConfigFile.validate_config config = Throw e ->
   exists before key after,
     ConfigFile.ess_required_keys = before ++ key :: after /\
     e = ConfigFile.ConfigValueError
           (String.append key " not found in config"%string) /\
     ConfigFile.dict_contains config key = false /\
     (forall k, In k before -> ConfigFile.dict_contains config k = true)).
Proof.
  split.
  - apply check_required_ok.
  - intros e. apply check_required_first_missing.
Qed.


(** ** The retry loops of the battery service *)


Lemma outcome_eq_true {E : Type} (res : outcome E bool) :
  res = Return true \/ res <> Return true.
Proof. destruct res as [[|]|e]; [now left|right; discriminate..]. Qed.

Section ServiceTraces.

Context {V : Type}.

Lemma count_app (p : Service.event V -> bool) (a b : list (Service.event V)) :
  Service.count p (a ++ b) = (Service.count p a + Service.count p b)%nat.
Proof. unfold Service.count. now rewrite filter_app, length_app. Qed.

Lemma log_failure_is_plain (r : Service.reply) :
  Service.is_warning (V := V) (Service.Logged (Service.log_failure r)) = false /\
  Service.is_giving_up (V := V) (Service.Logged (Service.log_failure r)) = false.
Proof.
  destruct r as [|s|]; cbn; try destruct (s =? 401); split; reflexivity.
Qed.

Variable replies : nat -> Service.reply.
Variable serial_number : V.
Variable cmd : command.

Let update : Service.call V :=
  Service.updateChargeConfigInfo serial_number 100 (should_charge cmd)
    (start_time1 cmd) (end_time1 cmd) (start_time2 cmd) (end_time2 cmd).

Let delivered : list (Service.event V) :=
  [Service.Called update Service.Fine; Service.Logged Service.InfoSent;
   Service.Called Service.close Service.Fine].

Lemma schedule_attempts_cons (attempt : Z) (rest : list Z) (n : nat) :
  Service.schedule_attempts replies update (attempt :: rest) n
  = let '(r, n', tr) := Service.try_update replies update n in
    match r with
    | Service.Fine => (Return true, tr)
    | _ =>
        let '(res, tr') := Service.schedule_attempts replies update rest n' in
        (res,
         tr ++ [Service.Logged (Service.log_failure r);
                Service.Logged (Service.WarningRetry (attempt + 1))]
            ++ tr')
    end.
Proof. reflexivity. Qed.

Lemma attempt_step (attempt : Z) (rest : list Z) (n : nat) :
  Service.schedule_attempts replies update (attempt :: rest) n
    = (Return true, delivered) \/
  exists pre n',
    Service.schedule_attempts replies update (attempt :: rest) n
      = (fst (Service.schedule_attempts replies update rest n'),
         pre ++ snd (Service.schedule_attempts replies update rest n')) /\
    Service.count Service.is_update pre = 1%nat /\
    Service.count Service.is_warning pre = 1%nat /\
    Service.count Service.is_giving_up pre = 0%nat /\
    (forall c r, In (Service.Called c r) pre -> c = update \/ c = Service.close).
Proof.
  cbn [Service.schedule_attempts]. unfold Service.try_update.
  destruct (replies n) as [|s|] eqn:Hn; [destruct (replies (S n)) as [|s|] eqn:Hn'|..].
  - now left.
  - right. eexists _, (S (S n)).
    destruct (Service.schedule_attempts replies update rest (S (S n))).
    rewrite app_assoc. split; [reflexivity|].
    cbn; destruct (s =? 401); cbn; repeat split; try reflexivity;
      intros c r H; decompose [or] H; try discriminate; try contradiction;
      match goal with E : Service.Called _ _ = Service.Called _ _ |- _ =>
        injection E as <- _ end; auto.
  - right. eexists _, (S (S n)).
    destruct (Service.schedule_attempts replies update rest (S (S n))).
    rewrite app_assoc. split; [reflexivity|].
    cbn; repeat split; try reflexivity;
      intros c r H; decompose [or] H; try discriminate; try contradiction;
      match goal with E : Service.Called _ _ = Service.Called _ _ |- _ =>
        injection E as <- _ end; auto.
  - right. eexists _, (S n).
    destruct (Service.schedule_attempts replies update rest (S n)).
    rewrite app_assoc. split; [reflexivity|].
    cbn; destruct (s =? 401); cbn; repeat split; try reflexivity;
      intros c r H; decompose [or] H; try discriminate; try contradiction;
      match goal with E : Service.Called _ _ = Service.Called _ _ |- _ =>
        injection E as <- _ end; auto.
  - right. eexists _, (S n).
    destruct (Service.schedule_attempts replies update rest (S n)).
    rewrite app_assoc. split; [reflexivity|].
    cbn; repeat split; try reflexivity;
      intros c r H; decompose [or] H; try discriminate; try contradiction;
      match goal with E : Service.Called _ _ = Service.Called _ _ |- _ =>
        injection E as <- _ end; auto.
Qed.

Lemma schedule_attempts_trace (attempts : list Z) (n : nat) :
  let res := fst (Service.schedule_attempts replies update attempts n) in
  let tr := snd (Service.schedule_attempts replies update attempts n) in
  (Service.count Service.is_update tr <= length attempts)%nat /\
  (forall c r, In (Service.Called c r) tr -> c = update \/ c = Service.close) /\
  (res = Return true ->
   (exists tr0, tr = tr0 ++ delivered) /\
   (1 <= Service.count Service.is_update tr)%nat /\
   (Service.count Service.is_warning tr + 1
    = Service.count Service.is_update tr)%nat /\
   Service.count Service.is_giving_up tr = 0%nat) /\
  (res <> Return true ->
   Service.count Service.is_update tr = length attempts /\
   Service.count Service.is_warning tr = length attempts /\
   Service.count Service.is_giving_up tr = 1%nat /\
   exists tr0 r,
     tr = tr0 ++ [Service.Logged Service.ErrorGivingUp;
                  Service.Called Service.close r] /\
     res = match r with
           | Service.Fine => Return false
           | _ => Throw r
           end).
Proof.
  revert n. induction attempts as [|attempt rest IH]; intros n.
  - cbn [Service.schedule_attempts fst snd length]. split; [cbn; lia|].
    split.
    { intros c r [H|[H|[]]]; [discriminate H|injection H as <- _; now right]. }
    split.
    { destruct (replies n); discriminate. }
    intros _. repeat split; try reflexivity.
    exists [], (replies n). split; [reflexivity|].
    now destruct (replies n).
  - destruct (attempt_step attempt rest n)
      as [Heq|(pre & n' & Heq & Hu & Hw & Hg & Hc)]; rewrite Heq;
      cbn [fst snd length].
    + split; [cbn; lia|]. split.
      { intros c r H. cbn in H. decompose [or] H; try discriminate;
          try contradiction;
          match goal with E : Service.Called _ _ = Service.Called _ _ |- _ =>
            injection E as <- _ end; auto. }
      split; [|intros H; now contradiction H].
      intros _. split; [now exists []|]. cbn. repeat split; lia.
    + specialize (IH n'). cbv zeta in IH.
      destruct IH as (Hb & Hcalls & Htrue & Hfalse).
      rewrite !count_app, Hu, Hw, Hg.
      split; [lia|]. split.
      { intros c r H. apply in_app_or in H. destruct H; eauto. }
      split.
      * intros Hres. destruct (Htrue Hres) as ((tr0 & Htr) & H1 & H2 & H3).
        split; [|repeat split; lia].
        exists (pre ++ tr0). now rewrite Htr, app_assoc.
      * intros Hres. destruct (Hfalse Hres) as (H1 & H2 & H3 & tr0 & r & Htr & Hr).
        repeat split; try lia.
        exists (pre ++ tr0), r. split; [now rewrite Htr, app_assoc|exact Hr].
Qed.

(** [set_charging_schedule] sends the schedule between one and three times,
    always with the serial number, battery cap 100 and the flag and times of
    the command, and calls nothing else but [close]. It stops trying (False,
    or the exception of the last [close]) only after three sends, each
    followed by a retry warning, the third too; when it returns True it has
    logged one warning per failed attempt and no final error. *)
Theorem set_schedule_bounded_retries :
  let res := fst (Service.set_charging_schedule replies serial_number cmd) in
  let tr := snd (Service.set_charging_schedule replies serial_number cmd) in
  (1 <= Service.count Service.is_update tr <= 3)%nat /\
  (forall c r, In (Service.Called c r) tr ->
     c = Service.updateChargeConfigInfo serial_number 100 (should_charge cmd)
           (start_time1 cmd) (end_time1 cmd) (start_time2 cmd) (end_time2 cmd)
     \/ c = Service.close) /\
  (res <> Return true ->
   Service.count Service.is_update tr = 3%nat /\
   Service.count Service.is_warning tr = 3%nat /\
   Service.count Service.is_giving_up tr = 1%nat) /\
  (res = Return true ->
   (Service.count Service.is_warning tr + 1
    = Service.count Service.is_update tr)%nat /\
   Service.count Service.is_giving_up tr = 0%nat).
Proof.
  unfold Service.set_charging_schedule. fold update.
  pose proof (schedule_attempts_trace (range 0 3) 0) as H. cbv zeta in H |- *.
  destruct H as (Hb & Hc & Ht & Hf).
  change (length (range 0 3)) with 3%nat in *.
  split; [|split; [exact Hc|split]].
  - split; [|exact Hb].
    destruct (outcome_eq_true
                (fst (Service.schedule_attempts replies update (range 0 3) 0)))
      as [Hres|Hres].
    + now destruct (Ht Hres) as (_ & H1 & _).
    + destruct (Hf Hres) as (H1 & _). lia.
  - intros Hres. destruct (Hf Hres) as (H1 & H2 & H3 & _). auto.
  - intros Hres. destruct (Ht Hres) as (_ & _ & H2 & H3). auto.
Qed.

(** [set_charging_schedule] returns True exactly when its last three events
    are a schedule the service accepted, the success line and a [close]
    that returned. It returns False after a final [close] that returned and
    raises what the final [close] raised. *)
Theorem set_schedule_true_iff_delivered :
  let res := fst (Service.set_charging_schedule replies serial_number cmd) in
  let tr := snd (Service.set_charging_schedule replies serial_number cmd) in
  (res = Return true <->
   exists tr0,
     tr = tr0 ++
          [Service.Called
             (Service.updateChargeConfigInfo serial_number 100
                (should_charge cmd) (start_time1 cmd) (end_time1 cmd)
                (start_time2 cmd) (end_time2 cmd)) Service.Fine;
           Service.Logged Service.InfoSent;
           Service.Called Service.close Service.Fine]) /\
  (res = Return false ->
   exists tr0,
     tr = tr0 ++ [Service.Logged Service.ErrorGivingUp;
                  Service.Called Service.close Service.Fine]) /\
  (forall r, res = Throw r ->
   r <> Service.Fine /\
   exists tr0,
     tr = tr0 ++ [Service.Logged Service.ErrorGivingUp;
                  Service.Called Service.close r]).
Proof.
  unfold Service.set_charging_schedule. fold update.
  pose proof (schedule_attempts_trace (range 0 3) 0) as H. cbv zeta in H |- *.
  destruct H as (_ & _ & Ht & Hf).
  set (res := fst (Service.schedule_attempts replies update (range 0 3) 0)) in *.
  set (tr := snd (Service.schedule_attempts replies update (range 0 3) 0)) in *.
  split; [split|split].
  - intros Hres. now destruct (Ht Hres) as (Hd & _).
  - intros (tr0 & Htr).
    destruct (outcome_eq_true res) as [Hres|Hres]; [exact Hres|].
    destruct (Hf Hres) as (_ & _ & _ & tr1 & r & Htr1 & _).
    rewrite Htr in Htr1.
    change (tr0 ++ [Service.Called update Service.Fine;
                    Service.Logged Service.InfoSent;
                    Service.Called Service.close Service.Fine])
      with (tr0 ++ [Service.Called update Service.Fine]
                ++ [Service.Logged Service.InfoSent]
                ++ [Service.Called (V := V) Service.close Service.Fine])
      in Htr1.
    change (tr1 ++ [Service.Logged Service.ErrorGivingUp;
                    Service.Called Service.close r])
      with (tr1 ++ [Service.Logged Service.ErrorGivingUp]
                ++ [Service.Called (V := V) Service.close r]) in Htr1.
    rewrite !app_assoc in Htr1.
    apply app_inj_tail in Htr1. destruct Htr1 as [Htr1 _].
    apply app_inj_tail in Htr1. destruct Htr1 as [_ Habs].
    discriminate Habs.
  - intros Hres.
    assert (Hne : res <> Return true) by (rewrite Hres; discriminate).
    destruct (Hf Hne) as (_ & _ & _ & tr1 & r & Htr1 & Hr).
    rewrite Hres in Hr. destruct r; try discriminate Hr. now exists tr1.
  - intros r Hres.
    assert (Hne : res <> Return true) by (rewrite Hres; discriminate).
    destruct (Hf Hne) as (_ & _ & _ & tr1 & r' & Htr1 & Hr).
    rewrite Hres in Hr.
    destruct r'; try discriminate Hr; injection Hr as ->;
      (split; [discriminate|now exists tr1]).
Qed.

(** When the service accepts the schedule but the following [close] raises,
    the manager counts the attempt as failed and sends the same schedule
    again. *)
Theorem close_failure_resends :
  replies 0%nat = Service.Fine -> replies 1%nat <> Service.Fine ->
  let tr := snd (Service.set_charging_schedule replies serial_number cmd) in
  (exists tr',
     tr = Service.Called
            (Service.updateChargeConfigInfo serial_number 100
               (should_charge cmd) (start_time1 cmd) (end_time1 cmd)
               (start_time2 cmd) (end_time2 cmd)) Service.Fine :: tr') /\
  (2 <= Service.count Service.is_update tr)%nat.
Proof.
  intros H0 H1. unfold Service.set_charging_schedule. fold update.
  change (range 0 3) with [0; 1; 2].
  pose proof (schedule_attempts_trace [1; 2] 2) as H. cbv zeta in H.
  destruct H as (_ & _ & Ht & Hf).
  rewrite schedule_attempts_cons. unfold Service.try_update. rewrite H0.
  destruct (Service.schedule_attempts replies update [1; 2] 2) as [res tr'].
  cbn [fst snd length] in Ht, Hf.
  assert (Hrest : (1 <= Service.count Service.is_update tr')%nat).
  { destruct (outcome_eq_true res) as [Hres|Hres].
    - now destruct (Ht Hres) as (_ & Hone & _).
    - destruct (Hf Hres) as (Hall & _). lia. }
  destruct (replies 1%nat) as [|s|] eqn:Hr1; [now contradiction H1|..];
    cbn [snd]; (split; [cbn [app]; eauto|]);
    rewrite !count_app; cbn; lia.
Qed.

End ServiceTraces.

Lemma close_failure_resends_witness :
  (2 <= Service.count Service.is_update
          (snd (Service.set_charging_schedule
                  (fun n => match n with
                            | 1%nat => Service.OtherException
                            | _ => Service.Fine
                            end)
                  "SN1"%string
                  (mkCommand true "04:00" "06:00" MIDNIGHT MIDNIGHT))))%nat.
Proof.
  apply (close_failure_resends
           (fun n => match n with
                     | 1%nat => Service.OtherException
                     | _ => Service.Fine
                     end)
           "SN1"%string (mkCommand true "04:00" "06:00" MIDNIGHT MIDNIGHT)).
  - reflexivity.
  - discriminate.
Defined.

Section EssTraces.

Context {V : Type}.
Variable replies : nat -> Service.reply.
Variable of_str : string -> V.
Variable config : ConfigFile.dict V.
Variable enabled : bool.
Variable start_charging stop_charging : string.
Variable username password : V.
Hypothesis has_username :
  ConfigFile.dict_get config "username"%string = Some username.
Hypothesis has_password :
  ConfigFile.dict_get config "password"%string = Some password.

Let serial : V :=
  match ConfigFile.dict_get config "serial_number"%string with
  | Some v => v
  | None => of_str "your_serial_number"%string
  end.

Let auth : Service.call V := Service.authenticate username password.

Let send : Service.call V :=
  Service.setbatterycharge serial enabled start_charging stop_charging
    MIDNIGHT MIDNIGHT 100.

Let run (n : nat) :=
  Service.authenticate_and_send_to_ess replies of_str config enabled
    start_charging stop_charging n.

Let loop (attempts : list Z) (n : nat) :=
  Service.send_attempts replies of_str config enabled
    start_charging stop_charging attempts n.

Lemma send_once (n : nat) :
  run n = Return (true, S (S n),
                  [Service.Called auth Service.Fine;
                   Service.Called send Service.Fine]) \/
  exists n' pre,
    run n = Return (false, n', pre) /\
    Service.count Service.is_authenticate pre = 1%nat /\
    (Service.count Service.is_send pre <= 1)%nat /\
    Service.count Service.is_giving_up pre = 0%nat /\
    (forall c r, In (Service.Called c r) pre ->
       (c = auth \/ c = send) /\ (c = send -> r <> Service.Fine)).
Proof.
  unfold run, Service.authenticate_and_send_to_ess.
  rewrite has_username, has_password. fold serial. fold auth. fold send.
  destruct (replies n) as [|s|] eqn:Hn;
    [destruct (replies (S n)) as [|s|] eqn:Hn'|..];
    [now left|right; eexists _, _; (split; [reflexivity|])..];
    cbn; try destruct (s =? 401); cbn;
    (split; [reflexivity|]); (split; [lia|]); (split; [reflexivity|]);
    intros c r H; decompose [or] H; try discriminate; try contradiction;
    match goal with E : Service.Called _ _ = Service.Called _ _ |- _ =>
      injection E as <- <- end;
    (split; [auto|]); intros; discriminate.
Qed.

Lemma send_attempts_cons (attempt : Z) (rest : list Z) (n : nat) :
  loop (attempt :: rest) n
  = match run n with
    | Throw e => Throw e
    | Return (true, _, tr) => Return (tr ++ [Service.Logged Service.InfoSent])
    | Return (false, n', tr) =>
        match loop rest n' with
        | Throw e => Throw e
        | Return tr' => Return (tr ++ tr')
        end
    end.
Proof. reflexivity. Qed.

Lemma send_attempts_trace (attempts : list Z) (n : nat) :
  exists tr,
    loop attempts n = Return tr /\
    (Service.count Service.is_authenticate tr <= length attempts)%nat /\
    (Service.count Service.is_send tr
     <= Service.count Service.is_authenticate tr)%nat /\
    (forall c r, In (Service.Called c r) tr -> c = auth \/ c = send) /\
    ((exists tr0,
        tr = tr0 ++ [Service.Called auth Service.Fine;
                     Service.Called send Service.Fine;
                     Service.Logged Service.InfoSent] /\
        (forall r, In (Service.Called send r) tr0 -> r <> Service.Fine) /\
        Service.count Service.is_giving_up tr = 0%nat) \/
     (Service.count Service.is_authenticate tr = length attempts /\
      (exists tr0, tr = tr0 ++ [Service.Logged Service.ErrorGivingUp]) /\
      (forall r, In (Service.Called send r) tr -> r <> Service.Fine) /\
      Service.count Service.is_giving_up tr = 1%nat)).
Proof.
  revert n. induction attempts as [|attempt rest IH]; intros n.
  - exists [Service.Logged Service.ErrorGivingUp].
    split; [reflexivity|]. cbn. split; [lia|]. split; [lia|].
    split; [intros c r [H|[]]; discriminate H|].
    right. split; [reflexivity|]. split; [now exists []|].
    split; [intros r [H|[]]; discriminate H|reflexivity].
  - rewrite send_attempts_cons.
    destruct (send_once n) as [Hrun|(n' & pre & Hrun & Ha & Hs & Hg & Hc)];
      rewrite Hrun.
    + eexists. split; [reflexivity|]. cbn [app length].
      split; [cbn; lia|]. split; [cbn; lia|].
      split.
      { intros c r H. cbn in H. decompose [or] H; try discriminate;
          try contradiction;
          match goal with E : Service.Called _ _ = Service.Called _ _ |- _ =>
            injection E as <- _ end; auto. }
      left. exists []. split; [reflexivity|]. split; [intros r []|reflexivity].
    + destruct (IH n') as (tr' & Hloop & Hb & Hle & Hcalls & Hend).
      rewrite Hloop. eexists. split; [reflexivity|].
      rewrite !count_app, Ha, Hg. cbn [length].
      split; [lia|]. split; [lia|].
      split.
      { intros c r H. apply in_app_or in H.
        destruct H as [H|H]; [now apply (Hc c r)|eauto]. }
      destruct Hend as [(tr0 & Htr & Hno & Hg')|(Hall & (tr0 & Htr) & Hno & Hg')].
      * left. exists (pre ++ tr0). split; [now rewrite Htr, app_assoc|].
        split; [|exact Hg'].
        intros r H. apply in_app_or in H.
        destruct H as [H|H]; [now apply (Hc send r)|now apply Hno].
      * right. split; [lia|].
        split; [exists (pre ++ tr0); now rewrite Htr, app_assoc|].
        split; [|exact Hg'].
        intros r H. apply in_app_or in H.
        destruct H as [H|H]; [now apply (Hc send r)|now apply Hno].
Qed.

End EssTraces.

(** After [validate_config], [authenticate_and_set_schedule] of ESS.py
    returns without KeyError. It authenticates between one and three times,
    sends the schedule only after a successful authentication, with the
    discharge window 00:00-00:00 and battery cap 100, and the service
    accepts the schedule at most once: the run either ends with an accepted
    schedule and the success line, or, after three failed attempts, with
    the giving-up line. *)
Theorem ess_schedule_retries (V : Type) (replies : nat -> Service.reply)
  (of_str : string -> V) (config : ConfigFile.dict V) (enabled : bool)
  (start_charging stop_charging : string) :
  ConfigFile.validate_config config = Return tt ->
  exists username password serial tr,
    ConfigFile.dict_get config "username"%string = Some username /\
    ConfigFile.dict_get config "password"%string = Some password /\
    ConfigFile.dict_get config "serial_number"%string = Some serial /\
    Service.authenticate_and_set_schedule replies of_str config enabled
      start_charging stop_charging = Return tr /\
    (1 <= Service.count Service.is_authenticate tr <= 3)%nat /\
    (Service.count Service.is_send tr
     <= Service.count Service.is_authenticate tr)%nat /\
    (forall c r, In (Service.Called c r) tr ->
       c = Service.authenticate username password \/
       c = Service.setbatterycharge serial enabled
             start_charging stop_charging MIDNIGHT MIDNIGHT 100) /\
    ((exists tr0,
        tr = tr0 ++
             [Service.Called (Service.authenticate username password)
                Service.Fine;
              Service.Called
                (Service.setbatterycharge serial enabled
                   start_charging stop_charging MIDNIGHT MIDNIGHT 100)
                Service.Fine;
              Service.Logged Service.InfoSent] /\
        (forall r,
           In (Service.Called
                 (Service.setbatterycharge serial enabled
                    start_charging stop_charging MIDNIGHT MIDNIGHT 100) r)
              tr0 ->
           r <> Service.Fine) /\
        Service.count Service.is_giving_up tr = 0%nat) \/
     (Service.count Service.is_authenticate tr = 3%nat /\
      (exists tr0, tr = tr0 ++ [Service.Logged Service.ErrorGivingUp]) /\
      (forall r,
         In (Service.Called
               (Service.setbatterycharge serial enabled
                  start_charging stop_charging MIDNIGHT MIDNIGHT 100) r)
            tr ->
         r <> Service.Fine))).
Proof.
  intros Hvalid.
  pose proof (proj1 (check_required_ok config _) Hvalid) as Hkeys.
  assert (Hget : forall key, In key ConfigFile.ess_required_keys ->
            exists v, ConfigFile.dict_get config key = Some v).
  { intros key Hin. specialize (Hkeys key Hin).
    unfold ConfigFile.dict_contains in Hkeys.
    destruct (ConfigFile.dict_get config key); [eauto|discriminate Hkeys]. }
  destruct (Hget "username"%string) as (u & Hu); [cbn; auto|].
  destruct (Hget "password"%string) as (p & Hp); [cbn; auto|].
  destruct (Hget "serial_number"%string) as (sn & Hsn); [cbn; auto 6|].
  destruct (send_attempts_trace replies of_str config enabled
              start_charging stop_charging u p Hu Hp (range 0 3) 0)
    as (tr & Hloop & Hb & Hle & Hcalls & Hend).
  rewrite Hsn in Hcalls, Hend.
  change (length (range 0 3)) with 3%nat in *.
  exists u, p, sn, tr. split; [exact Hu|]. split; [exact Hp|].
  split; [exact Hsn|]. split; [exact Hloop|].
  split.
  { split; [|exact Hb].
    destruct Hend as [(tr0 & -> & _)|(Hall & _)]; [|lia].
    rewrite count_app. cbn. lia. }
  split; [exact Hle|]. split; [exact Hcalls|].
  destruct Hend as [(tr0 & Htr & Hno & Hg)|(Hall & Htr & Hno & _)].
  - left. exists tr0. auto.
  - right. auto.
Qed.

(** Without validation, [authenticate_and_set_schedule] raises KeyError,
    before any client call, exactly when the username or the password is
    missing; a missing serial number does not raise: the literal
    "your_serial_number" is sent instead. *)
Theorem ess_missing_credentials (V : Type) (replies : nat -> Service.reply)
  (of_str : string -> V) (config : ConfigFile.dict V) (enabled : bool)
  (start_charging stop_charging : string) :
  (ConfigFile.dict_get config "username"%string = None ->
   Service.authenticate_and_set_schedule replies of_str config enabled
     start_charging stop_charging
   = Throw (ConfigFile.KeyError "username"%string)) /\
  (ConfigFile.dict_get config "username"%string <> None ->
   ConfigFile.dict_get config "password"%string = None ->
   Service.authenticate_and_set_schedule replies of_str config enabled
     start_charging stop_charging
   = Throw (ConfigFile.KeyError "password"%string)) /\
  (forall username password,
   ConfigFile.dict_get config "username"%string = Some username ->
   ConfigFile.dict_get config "password"%string = Some password ->
   ConfigFile.dict_get config "serial_number"%string = None ->
   exists tr,
     Service.authenticate_and_set_schedule replies of_str config enabled
       start_charging stop_charging = Return tr /\
     forall c r, In (Service.Called c r) tr ->
       c = Service.authenticate username password \/
       c = Service.setbatterycharge (of_str "your_serial_number"%string)
             enabled start_charging stop_charging MIDNIGHT MIDNIGHT 100).
Proof.
  unfold Service.authenticate_and_set_schedule.
  change (range 0 3) with [0; 1; 2].
  split; [|split].
  - intros Hu. cbn [Service.send_attempts].
    unfold Service.authenticate_and_send_to_ess. now rewrite Hu.
  - intros Hu Hp. cbn [Service.send_attempts].
    unfold Service.authenticate_and_send_to_ess.
    destruct (ConfigFile.dict_get config "username"%string);
      [|now contradiction Hu].
    now rewrite Hp.
  - intros u p Hu Hp Hsn.
    destruct (send_attempts_trace replies of_str config enabled
                start_charging stop_charging u p Hu Hp [0; 1; 2] 0)
      as (tr & Hloop & _ & _ & Hcalls & _).
    rewrite Hsn in Hcalls. exists tr. split; [exact Hloop|exact Hcalls].
Qed.

(** ** The extra properties on concrete inputs *)

Lemma validate_config_first_missing_witness :
  exists before key after,
    ConfigFile.ess_required_keys = before ++ key :: after /\
    ConfigFile.dict_contains
      [("username", 1); ("password", 2)]%string key = false.
Proof.
  destruct (proj2 (validate_config_first_missing Z
                     [("username", 1); ("password", 2)]%string)
              (ConfigFile.ConfigValueError
                 "price_multiplier not found in config"%string)
              eq_refl)
    as (before & key & after & Hl & _ & Hkey & _).
  exists before, key, after. split; [exact Hl|exact Hkey].
Defined.


Lemma set_schedule_bounded_retries_witness :
  Service.count Service.is_update
    (snd (Service.set_charging_schedule (fun _ => Service.OtherException)
            "SN1"%string (mkCommand true "04:00" "06:00" MIDNIGHT MIDNIGHT)))
  = 3%nat.
Proof.
  destruct (set_schedule_bounded_retries (fun _ => Service.OtherException)
              "SN1"%string (mkCommand true "04:00" "06:00" MIDNIGHT MIDNIGHT))
    as (_ & _ & Hfail & _).
  apply Hfail. vm_compute. discriminate.
Defined.

Lemma set_schedule_true_iff_delivered_witness :
  exists tr0,
    snd (Service.set_charging_schedule (fun _ => Service.Fine)
           "SN1"%string (mkCommand true "04:00" "06:00" MIDNIGHT MIDNIGHT))
    = tr0 ++
      [Service.Called
         (Service.updateChargeConfigInfo "SN1"%string 100 true
            "04:00" "06:00" MIDNIGHT MIDNIGHT) Service.Fine;
       Service.Logged Service.InfoSent;
       Service.Called Service.close Service.Fine].
Proof.
  destruct (set_schedule_true_iff_delivered (fun _ => Service.Fine)
              "SN1"%string (mkCommand true "04:00" "06:00" MIDNIGHT MIDNIGHT))
    as (Hiff & _).
  apply (proj1 Hiff). reflexivity.
Defined.

Lemma ess_schedule_retries_witness :
  exists tr,
    Service.authenticate_and_set_schedule (fun _ => Service.Fine)
      (fun s => s)
      [("username", "u"); ("password", "p"); ("price_multiplier", "1.2");
       ("charge_to_full", "2"); ("serial_number", "SN1")]%string
      true "04:00" "06:00" = Return tr.
Proof.
  destruct (ess_schedule_retries string (fun _ => Service.Fine) (fun s => s)
              [("username", "u"); ("password", "p");
               ("price_multiplier", "1.2"); ("charge_to_full", "2");
               ("serial_number", "SN1")]%string true "04:00" "06:00" eq_refl)
    as (u & p & sn & tr & _ & _ & _ & Hrun & _).
  exists tr. exact Hrun.
Defined.

Lemma ess_missing_credentials_witness :
  Service.authenticate_and_set_schedule (fun _ => Service.Fine) (fun s => s)
    [("password", "p")]%string true "04:00" "06:00"
  = Throw (ConfigFile.KeyError "username"%string).
Proof.
  apply (proj1 (ess_missing_credentials string (fun _ => Service.Fine)
                  (fun s => s) [("password", "p")]%string
                  true "04:00" "06:00")).
  reflexivity.
Defined.
